(** * Storage façade of the student portal ([src/data/storage.js])

    A shallow embedding of the CRUD layer over the two module-level
    collections [students] and [teachers].  JavaScript objects and arrays
    are reference values, and several properties of the façade are about
    which references are shared, so the embedding keeps an explicit heap:
    every object and every array lives in a heap cell, and a value is a
    primitive or a reference to a cell.

    Strings are sequences of 8-bit code units: the strings of JavaScript
    whose code units are all below 256 (U+0000 to U+00FF, the Latin-1
    range), one character of the model per code unit.  Numbers are the
    integers that JavaScript represents exactly (no fractions, no NaN, no
    infinities, no negative zero).  The durable mirror of the collections
    (browser local storage) is not part of the modelled state. *)

From stdpp Require Import gmap strings list fin_maps pretty.
From Stdlib Require Import ZArith Ascii.

Local Open Scope string_scope.
Local Open Scope list_scope.
Local Open Scope nat_scope.
Local Open Scope stdpp_scope.

(** ** Values, heap cells and the store *)

Definition loc := nat.

Inductive value :=
  | VUndef
  | VNull
  | VBool (b : bool)
  | VNum (n : Z)
  | VStr (s : string)
  | VRef (l : loc).

#[global] Instance value_eq_dec : EqDecision value.
Proof. solve_decision. Defined.

#[global] Instance value_inhabited : Inhabited value := populate VUndef.

(** An object is a finite map from property names to values; an array is a
    list of values. *)
Inductive cell :=
  | CObj (o : gmap string value)
  | CArr (a : list value).

(** The module-level bindings [students] and [teachers] hold a value each
    (a reference to an array in every state the façade builds). *)
Record store := Store {
  heap : gmap loc cell;
  students : value;
  teachers : value
}.

(** ** Errors and the state-and-exception monad

    Every [throw new Error(msg)] of the source is one constructor:
    - [ValidationError]: "Student must have id, name, and email" (and the
      teacher variant);
    - [DuplicateKeyError id]: "Student with ID ${id} already exists";
    - [NotFoundError id]: "Student with ID ${id} not found";
    - [ImportError]: "Failed to import data: ...";
    - [TypeError], [SyntaxError]: raised by the language itself.
    A thrown exception does not roll the heap back: the store at the point
    of the throw is part of the outcome. *)
Inductive error :=
  | ValidationError
  | DuplicateKeyError (id : value)
  | NotFoundError (id : value)
  | ImportError
  | TypeError
  | SyntaxError.

Inductive result (A : Type) :=
  | Ok (a : A)
  | Throw (e : error).
Arguments Ok {A} a.
Arguments Throw {A} e.

#[global] Instance result_ret : MRet result := λ A a, Ok a.
#[global] Instance result_bind : MBind result := λ A B f r,
  match r with
  | Ok a => f a
  | Throw e => Throw e
  end.

Definition M (A : Type) : Type := store → result A * store.

#[global] Instance M_ret : MRet M := λ A a st, (Ok a, st).
#[global] Instance M_bind : MBind M := λ A B f m st,
  match m st with
  | (Ok a, st') => f a st'
  | (Throw e, st') => (Throw e, st')
  end.

Definition throw {A} (e : error) : M A := λ st, (Throw e, st).

(** Run a computation that only reads the heap. *)
Definition reading {A} (f : gmap loc cell → result A) : M A :=
  λ st, (f (heap st), st).

(** [try { m } catch (e) { throw new Error(...) }] *)
Definition try_catch {A} (m : M A) (handler : error → M A) : M A := λ st,
  match m st with
  | (Ok a, st') => (Ok a, st')
  | (Throw e, st') => handler e st'
  end.

(** ** Language primitives *)

(** Allocation of a fresh cell: [{...}] and [[...]] literals, and the
    arrays that [map] and [filter] return. *)
Definition new (c : cell) : M value := λ st,
  let l := fresh (dom (heap st)) in
  (Ok (VRef l), Store (<[l := c]> (heap st)) (students st) (teachers st)).

Definition write (l : loc) (c : cell) : M unit := λ st,
  (Ok (), Store (<[l := c]> (heap st)) (students st) (teachers st)).

(** ToBoolean *)
Definition truthy (v : value) : bool :=
  match v with
  | VUndef | VNull => false
  | VBool b => b
  | VNum n => negb (n =? 0)%Z
  | VStr s => negb (String.eqb s "")
  | VRef _ => true
  end.

(** [a === b]: primitives by value, objects and arrays by identity. *)
Definition strict_eq (a b : value) : bool := bool_decide (a = b).

(** [o.k] on an object given by its properties. *)
Definition prop (o : gmap string value) (k : string) : value :=
  default VUndef (o !! k).

(** [v.k] for [k] one of [id], [name], [email], [password],
    [specialization], [students], [teachers]: a TypeError on [undefined] and
    [null], the property of an object, and [undefined] on everything else
    (no prototype has one of these names). *)
Definition getProp (h : gmap loc cell) (v : value) (k : string) : result value :=
  match v with
  | VUndef | VNull => Throw TypeError
  | VRef l =>
      match h !! l with
      | Some (CObj o) => Ok (prop o k)
      | _ => Ok VUndef
      end
  | _ => Ok VUndef
  end.

Definition isArray (h : gmap loc cell) (v : value) : bool :=
  match v with
  | VRef l => match h !! l with Some (CArr _) => true | _ => false end
  | _ => false
  end.

(** The elements of the array a value refers to; calling an array method
    on anything else is a TypeError. *)
Definition elements_of (h : gmap loc cell) (v : value) : result (list value) :=
  match v with
  | VRef l => match h !! l with Some (CArr a) => Ok a | _ => Throw TypeError end
  | _ => Throw TypeError
  end.

Fixpoint chars (s : string) : list value :=
  match s with
  | EmptyString => []
  | String c s' => VStr (String c EmptyString) :: chars s'
  end.

Definition indexed (vs : list value) : gmap string value :=
  list_to_map (imap (λ i v, (pretty i, v)) vs).

(** The own enumerable properties that [{...v}] copies. *)
Definition spread (h : gmap loc cell) (v : value) : gmap string value :=
  match v with
  | VRef l =>
      match h !! l with
      | Some (CObj o) => o
      | Some (CArr a) => indexed a
      | None => ∅
      end
  | VStr s => indexed (chars s)
  | _ => ∅
  end.

(** [Array.prototype.findIndex], with a callback that may throw. *)
Fixpoint findIndex (p : value → result bool) (a : list value) : result (option nat) :=
  match a with
  | [] => Ok None
  | x :: a' =>
      b ← p x;
      if (b : bool) then Ok (Some 0)
      else i ← findIndex p a'; Ok (S <$> (i : option nat))
  end.

(** [Array.prototype.find]: the first element the callback accepts, or
    [undefined]. *)
Fixpoint find (p : value → result bool) (a : list value) : result value :=
  match a with
  | [] => Ok VUndef
  | x :: a' => b ← p x; if (b : bool) then Ok x else find p a'
  end.

(** [Array.prototype.filter] *)
Fixpoint filterA (p : value → result bool) (a : list value) : result (list value) :=
  match a with
  | [] => Ok []
  | x :: a' =>
      b ← p x; r ← filterA p a';
      Ok (if (b : bool) then x :: r else r)
  end.

(** [Array.prototype.map] with a callback that allocates. *)
Definition mapA {A B} (f : A → M B) : list A → M (list B) :=
  fix go a :=
    match a with
    | [] => mret []
    | x :: a' => y ← f x; r ← go a'; mret (y :: r)
    end.

(** The same for a callback that only reads. *)
Definition mapR {A B} (f : A → result B) : list A → result (list B) :=
  fix go a :=
    match a with
    | [] => Ok []
    | x :: a' => y ← f x; r ← go a'; Ok (y :: r)
    end.

(** *** Strings *)

(** The lower-case mapping of one code unit below 256: the capital letters
    of that range are A-Z (65-90) and the accented capitals U+00C0-U+00DE
    (192-222) without the multiplication sign U+00D7 (215); each has its
    small letter 32 places further.  Every other code unit of the range,
    the sharp s (223) and the y with diaeresis (255) among them, is its
    own lower case. *)
Definition lower_unit (c : ascii) : ascii :=
  let n := nat_of_ascii c in
  if ((65 <=? n) && (n <=? 90) || (192 <=? n) && (n <=? 222) && negb (n =? 215))%nat
  then ascii_of_nat (n + 32) else c.

(** [s.toLowerCase()]: on code units below 256 the mapping is unit by
    unit (the rules that change the length or look at the context are
    about characters outside the range). *)
Fixpoint toLowerCase (s : string) : string :=
  match s with
  | EmptyString => EmptyString
  | String c s' => String (lower_unit c) (toLowerCase s')
  end.

(** [s.includes(q)] *)
Fixpoint includes (s q : string) : bool :=
  String.prefix q s ||
  match s with
  | EmptyString => false
  | String _ s' => includes s' q
  end.

Fixpoint drop_chars (n : nat) (s : string) : string :=
  match n, s with
  | S n', String _ s' => drop_chars n' s'
  | _, _ => s
  end.

(** [s.slice(-n)]: the last [n] code units, or all of [s] when it is
    shorter. *)
Definition slice_last (n : nat) (s : string) : string :=
  drop_chars (String.length s - n)%nat s.

(** [parts.join(sep)] on texts. *)
Fixpoint join_text (sep : string) (parts : list string) : string :=
  match parts with
  | [] => EmptyString
  | [p] => p
  | p :: parts' => p +:+ sep +:+ join_text sep parts'
  end.

(** [undefined] and [null], which [join] writes as the empty string. *)
Definition nullish (v : value) : bool :=
  match v with VUndef | VNull => true | _ => false end.

(** [String(v)], the conversion a template literal applies.  A number is
    written in decimal, as JavaScript writes an integer of magnitude below
    10^21.  An array is its elements joined by commas; an
    array met again while it is being joined is written as the empty
    string, which is what the engines do on a cycle ([seen] is the stack of
    the arrays being joined).  An object is ["[object Object]"], unless it
    has a property [toString] of its own: the values of the model are not
    functions, so the conversion finds nothing to call and throws a
    TypeError.  The fuel bounds the nesting of arrays; [size h] is enough,
    since an array nested deeper is on the stack. *)
Fixpoint to_text (fuel : nat) (h : gmap loc cell) (seen : list loc) (v : value)
  : result string :=
  match v with
  | VUndef => Ok "undefined"
  | VNull => Ok "null"
  | VBool b => Ok (if b then "true" else "false")
  | VNum n => Ok (pretty n)
  | VStr s => Ok s
  | VRef l =>
      match h !! l with
      | Some (CArr a) =>
          if bool_decide (l ∈ seen) then Ok EmptyString
          else
            match fuel with
            | 0 => Ok EmptyString
            | S fuel' =>
                parts ← mapR (λ x, if nullish x then Ok EmptyString
                                   else to_text fuel' h (l :: seen) x) a;
                Ok (join_text "," parts)
            end
      | Some (CObj o) =>
          if bool_decide (is_Some (o !! "toString")) then Throw TypeError
          else Ok "[object Object]"
      | None => Ok "[object Object]"
      end
  end.

(** [`${v.slice(-3)}`]: the last three code units of a string; for an
    array, the text of the array of its last three elements.  Numbers,
    booleans and plain objects have no [slice]: a TypeError. *)
Definition slice3 (h : gmap loc cell) (v : value) : result string :=
  match v with
  | VStr s => Ok (slice_last 3 s)
  | VRef l =>
      match h !! l with
      | Some (CArr a) =>
          parts ← mapR (λ x, if nullish x then Ok EmptyString
                             else to_text (size h) h [] x)
                       (drop (length a - 3) a);
          Ok (join_text "," parts)
      | _ => Throw TypeError
      end
  | _ => Throw TypeError
  end.

(** [v.toLowerCase()] *)
Definition lowered (v : value) : result string :=
  match v with
  | VStr s => Ok (toLowerCase s)
  | _ => Throw TypeError
  end.

(** *** Arrays in the heap *)

(** [arr.push(x)] *)
Definition push (arr x : value) : M unit := λ st,
  match elements_of (heap st) arr, arr with
  | Ok a, VRef l => write l (CArr (a ++ [x])) st
  | _, _ => (Throw TypeError, st)
  end.

(** [arr[i]]: [undefined] past the end. *)
Definition index_get (arr : value) (i : nat) : M value :=
  reading (λ h, a ← elements_of h arr; Ok (default VUndef (a !! i))).

(** [arr[i] = x]: an assignment past the end extends the array, leaving
    holes that read as [undefined]. *)
Definition index_set (arr : value) (i : nat) (x : value) : M unit := λ st,
  match elements_of (heap st) arr, arr with
  | Ok a, VRef l =>
      let a' := if decide (i < length a) then <[i := x]> a
                else a ++ replicate (i - length a) VUndef ++ [x] in
      write l (CArr a') st
  | _, _ => (Throw TypeError, st)
  end.

(** [arr.splice(i, 1)] *)
Definition splice1 (arr : value) (i : nat) : M unit := λ st,
  match elements_of (heap st) arr, arr with
  | Ok a, VRef l => write l (CArr (delete i a)) st
  | _, _ => (Throw TypeError, st)
  end.

(** [{ ...v }] as an expression: a fresh object with the properties of
    [v]. *)
Definition copy_of (v : value) : M value :=
  o ← reading (λ h, Ok (spread h v)); new (CObj o).

(** ** The two collections

    The source repeats every operation for students and for teachers; the
    two texts differ in the binding they use, in the [flushStudents] calls
    and in [createTeacher]'s extra field.  The operations that are the same
    text are written once, over the kind of collection. *)

Inductive kind := Students | Teachers.

Definition binding (k : kind) : M value := λ st,
  (Ok (match k with Students => students st | Teachers => teachers st end), st).

(** Modelled from the spec: [saveStudents] and [saveTeachers] live in
    [students.js] and [teachers.js], which are not among the sources.  The
    spec has them replace the in-memory collection by the list they are
    given ("wholesale-replaces the student collection") and mirror it to
    durable storage, swallowing every persistence failure; only the first
    effect is on the modelled state. *)
Definition save (k : kind) (list : value) : M unit := λ st,
  (Ok (), match k with
          | Students => Store (heap st) list (teachers st)
          | Teachers => Store (heap st) (students st) list
          end).

Definition saveStudents : value → M unit := save Students.
Definition saveTeachers : value → M unit := save Teachers.

(** Modelled from the spec: [flushStudents] (in [students.js]) forces the
    synchronous durable write; it does not touch the collections. *)
Definition flushStudents : M unit := mret ().

(** [try { flushStudents(); } catch (e) { /* ignore */ }] after a change
    to the students; the teacher operations have no such call. *)
Definition flush (k : kind) : M unit :=
  match k with
  | Students => try_catch flushStudents (λ _, mret ())
  | Teachers => mret ()
  end.

(** The callback [s => s.id === id]. *)
Definition has_id (h : gmap loc cell) (id : value) (s : value) : result bool :=
  x ← getProp h s "id"; Ok (strict_eq x id).

(** [getStudents] / [getTeachers]: [students.map(s => ({ ...s }))]. *)
Definition getAll (k : kind) : M value :=
  c ← binding k;
  a ← reading (λ h, elements_of h c);
  copies ← mapA copy_of a;
  new (CArr copies).

Definition getStudents : M value := getAll Students.
Definition getTeachers : M value := getAll Teachers.

(** [getStudentById] / [getTeacherById] *)
Definition getById (k : kind) (id : value) : M value :=
  c ← binding k;
  student ← reading (λ h, a ← elements_of h c; find (has_id h id) a);
  if truthy student then copy_of student else mret VNull.

Definition getStudentById : value → M value := getById Students.
Definition getTeacherById : value → M value := getById Teachers.

(** [data.password || `Student@${data.id.slice(-3)}`] *)
Definition password_or_default (prefix : string) (data : gmap string value) : M value :=
  if truthy (prop data "password") then mret (prop data "password")
  else s ← reading (λ h, slice3 h (prop data "id")); mret (VStr (prefix +:+ s)).

Definition createStudent (studentData : gmap string value) : M value :=
  if negb (truthy (prop studentData "id")) || negb (truthy (prop studentData "name"))
     || negb (truthy (prop studentData "email"))
  then throw ValidationError
  else
    c ← binding Students;
    existing ← reading (λ h, a ← elements_of h c; find (has_id h (prop studentData "id")) a);
    if truthy existing then throw (DuplicateKeyError (prop studentData "id"))
    else
      password ← password_or_default "Student@" studentData;
      newStudent ← new (CObj (<["id" := prop studentData "id"]>
                             (<["name" := prop studentData "name"]>
                             (<["email" := prop studentData "email"]>
                             (<["password" := password]> ∅)))));
      c ← binding Students;
      push c newStudent;;
      c ← binding Students;
      saveStudents c;;
      try_catch flushStudents (λ _, mret ());;
      copy_of newStudent.

Definition createTeacher (teacherData : gmap string value) : M value :=
  if negb (truthy (prop teacherData "id")) || negb (truthy (prop teacherData "name"))
     || negb (truthy (prop teacherData "email"))
  then throw ValidationError
  else
    c ← binding Teachers;
    existing ← reading (λ h, a ← elements_of h c; find (has_id h (prop teacherData "id")) a);
    if truthy existing then throw (DuplicateKeyError (prop teacherData "id"))
    else
      password ← password_or_default "Teacher@" teacherData;
      is_arr ← reading (λ h, Ok (isArray h (prop teacherData "specialization")));
      specialization ← (if (is_arr : bool) then mret (prop teacherData "specialization")
                        else new (CArr []));
      newTeacher ← new (CObj (<["id" := prop teacherData "id"]>
                             (<["name" := prop teacherData "name"]>
                             (<["email" := prop teacherData "email"]>
                             (<["password" := password]>
                             (<["specialization" := specialization]> ∅))))));
      c ← binding Teachers;
      push c newTeacher;;
      c ← binding Teachers;
      saveTeachers c;;
      copy_of newTeacher.

(** [updateStudent] / [updateTeacher]:
    [students[index] = { ...students[index], ...updates, id }]. *)
Definition update (k : kind) (id : value) (updates : gmap string value) : M value :=
  c ← binding k;
  index ← reading (λ h, a ← elements_of h c; findIndex (has_id h id) a);
  match index with
  | None => throw (NotFoundError id)
  | Some i =>
      c ← binding k;
      old ← index_get c i;
      merged ← reading (λ h, Ok (<["id" := id]> (updates ∪ spread h old)));
      r ← new (CObj merged);
      c ← binding k;
      index_set c i r;;
      c ← binding k;
      save k c;;
      flush k;;
      c ← binding k;
      cur ← index_get c i;
      copy_of cur
  end.

Definition updateStudent : value → gmap string value → M value := update Students.
Definition updateTeacher : value → gmap string value → M value := update Teachers.

(** [deleteStudent] / [deleteTeacher] *)
Definition delete_record (k : kind) (id : value) : M bool :=
  c ← binding k;
  index ← reading (λ h, a ← elements_of h c; findIndex (has_id h id) a);
  match index with
  | None => mret false
  | Some i =>
      c ← binding k;
      splice1 c i;;
      c ← binding k;
      save k c;;
      flush k;;
      mret true
  end.

Definition deleteStudent : value → M bool := delete_record Students.
Definition deleteTeacher : value → M bool := delete_record Teachers.

(** The callback of the search:
    [s => s.name.toLowerCase().includes(q) || s.email.toLowerCase().includes(q)]. *)
Definition matches (h : gmap loc cell) (q : string) (s : value) : result bool :=
  n ← getProp h s "name";
  nl ← lowered n;
  if includes nl q then Ok true
  else e ← getProp h s "email"; el ← lowered e; Ok (includes el q).

(** [searchStudents] / [searchTeachers] *)
Definition search (k : kind) (query : string) : M value :=
  let q := toLowerCase query in
  c ← binding k;
  found ← reading (λ h, a ← elements_of h c; filterA (matches h q) a);
  new (CArr found).

Definition searchStudents : string → M value := search Students.
Definition searchTeachers : string → M value := search Teachers.

(** ** JSON

    [exportData] copies a collection with [JSON.parse(JSON.stringify(...))].
    The text in between is represented by the tree it encodes; an object's
    members are a finite map, as their order carries no meaning. *)

#[warnings="-register-all"]
Inductive json :=
  | JNull
  | JBool (b : bool)
  | JNum (n : Z)
  | JStr (s : string)
  | JArr (js : list json)
  | JObj (m : gmap string json).

Definition is_ok {A} (r : result A) : bool :=
  match r with Ok _ => true | Throw _ => false end.

(** The member a serialized property value contributes to its object:
    none when the value is [undefined]. *)
Definition member (r : result (option json)) : option json :=
  match r with Ok j => j | Throw _ => None end.

(** [JSON.stringify]: [None] stands for the result [undefined].  Inside an
    array [undefined] is written as [null]; inside an object a property
    whose value is [undefined] is left out.  The only failure is the
    TypeError on a cyclic structure: the fuel bounds the number of
    references followed one inside the other, and a chain of more
    references than the heap has cells goes through one cell twice. *)
Fixpoint stringify (fuel : nat) (h : gmap loc cell) (v : value) : result (option json) :=
  match v with
  | VUndef => Ok None
  | VNull => Ok (Some JNull)
  | VBool b => Ok (Some (JBool b))
  | VNum n => Ok (Some (JNum n))
  | VStr s => Ok (Some (JStr s))
  | VRef l =>
      match fuel with
      | 0 => Throw TypeError
      | S fuel' =>
          match h !! l with
          | Some (CArr a) =>
              js ← mapR (λ x, j ← stringify fuel' h x; Ok (default JNull (j : option json))) a;
              Ok (Some (JArr js))
          | Some (CObj o) =>
              let members := stringify fuel' h <$> o in
              if decide (map_Forall (λ _ r, is_ok r = true) members)
              then Ok (Some (JObj (omap member members)))
              else Throw TypeError
          | None => Ok None
          end
      end
  end.

(** [JSON.parse]: builds fresh arrays and objects. *)
Fixpoint parse (j : json) : M value :=
  match j with
  | JNull => mret VNull
  | JBool b => mret (VBool b)
  | JNum n => mret (VNum n)
  | JStr s => mret (VStr s)
  | JArr js => vs ← mapA parse js; new (CArr vs)
  | JObj m =>
      o ← map_fold (λ k j' (acc : M (gmap string value)),
                      o ← acc; v ← parse j'; mret (<[k := v]> o))
                   (mret ∅) m;
      new (CObj o)
  end.

(** [JSON.parse(JSON.stringify(v))]; [JSON.parse(undefined)] is a
    SyntaxError. *)
Definition json_clone (v : value) : M value :=
  text ← reading (λ h, stringify (size h) h v);
  match text with
  | Some j => parse j
  | None => throw SyntaxError
  end.

(** ** Export, import and reset *)

(** [exportData]; [now] is [new Date().toISOString()]. *)
Definition exportData (now : string) : M (gmap string value) :=
  s ← binding Students;
  s_copy ← json_clone s;
  t ← binding Teachers;
  t_copy ← json_clone t;
  mret (<["students" := s_copy]> (<["teachers" := t_copy]> (<["exportDate" := VStr now]> ∅))).

Definition importData (data : gmap string value) : M unit :=
  try_catch
    (has_students ← reading (λ h, Ok (truthy (prop data "students")
                                        && isArray h (prop data "students")));
     (if (has_students : bool) then saveStudents (prop data "students") else mret ());;
     has_teachers ← reading (λ h, Ok (truthy (prop data "teachers")
                                        && isArray h (prop data "teachers")));
     (if (has_teachers : bool) then saveTeachers (prop data "teachers") else mret ()))
    (λ _, throw ImportError).

(** Modelled from the spec: [resetStudents] and [resetTeachers] (in
    [students.js] and [teachers.js]) replace a collection by its built-in
    default seed data.  The seed literals are not among the sources; they
    are parameters here, given as the JSON they denote. *)
Definition reset (k : kind) (seed : json) : M unit :=
  c ← parse seed; save k c.

Definition resetAllData (defaultStudents defaultTeachers : json) : M unit :=
  reset Students defaultStudents;;
  reset Teachers defaultTeachers.


(** [create] for either collection. *)
Definition create (k : kind) : gmap string value → M value :=
  match k with
  | Students => createStudent
  | Teachers => createTeacher
  end.

(** ** Callers

    What a caller can do with a record or a list it was given. *)

(** [v.k = x] on an object; other receivers are outside the model. *)
Definition setProp (v : value) (k : string) (x : value) : M unit := λ st,
  match v with
  | VRef l =>
      match heap st !! l with
      | Some (CObj o) => write l (CObj (<[k := x]> o)) st
      | _ => (Ok (), st)
      end
  | VUndef | VNull => (Throw TypeError, st)
  | _ => (Ok (), st)
  end.

(** [m()[0].name = name] *)
Definition rename_first (m : M value) (name : string) : M unit :=
  list ← m; first ← index_get list 0; setProp first "name" (VStr name).

(** [m().name = name] *)
Definition rename (m : M value) (name : string) : M unit :=
  record ← m; setProp record "name" (VStr name).

(** ** Reading a store

    The vocabulary of the properties: the contents of a collection, as
    the list of the property maps of its records. *)

(** The properties of the object a value refers to; [None] when it is not
    a reference to an object. *)
Definition record_at (h : gmap loc cell) (v : value) : option (gmap string value) :=
  match v with
  | VRef l => match h !! l with Some (CObj o) => Some o | _ => None end
  | _ => None
  end.

(** The contents of a collection: the properties of the object behind every
    element of the array, in order.  [None] when the value is not an array
    of objects. *)
Definition records (h : gmap loc cell) (c : value) : option (list (gmap string value)) :=
  match elements_of h c with
  | Ok a => mapM (record_at h) a
  | Throw _ => None
  end.

Definition ids (rs : list (gmap string value)) : list value :=
  (λ o, prop o "id") <$> rs.

Definition coll (k : kind) (st : store) : value :=
  match k with Students => students st | Teachers => teachers st end.

(** The contents of collection [k] in [st] are [rs]. *)
Definition holds (k : kind) (st : store) (rs : list (gmap string value)) : Prop :=
  records (heap st) (coll k st) = Some rs.

(** Record [i] is the first one of [rs] whose id is [id] (the one
    [findIndex] selects; the only one when ids are unique). *)
Definition first_with_id (rs : list (gmap string value)) (id : value) (i : nat) : Prop :=
  (∃ o, rs !! i = Some o ∧ prop o "id" = id) ∧
  ∀ j o, j < i → rs !! j = Some o → prop o "id" ≠ id.

(** The required-field check of [create] passes. *)
Definition valid_input (data : gmap string value) : bool :=
  truthy (prop data "id") && truthy (prop data "name") && truthy (prop data "email").

(** The password that [create] synthesizes. *)
Definition password_prefix (k : kind) : string :=
  match k with Students => "Student@" | Teachers => "Teacher@" end.

(** The password [create] stores. *)
Definition chosen_password (k : kind) (h : gmap loc cell) (data : gmap string value)
  : result value :=
  if truthy (prop data "password") then Ok (prop data "password")
  else s ← slice3 h (prop data "id"); Ok (VStr (password_prefix k +:+ s)).

(** *** Search, as the spec words it *)

(** [s] contains [q] as a substring, ignoring case. *)
Definition contains_ci (s q : string) : Prop :=
  ∃ pre post, toLowerCase s = pre +:+ toLowerCase q +:+ post.

(** The record's name or its email contains [q], ignoring case. *)
Definition selected (q : string) (o : gmap string value) : Prop :=
  ∃ s, (prop o "name" = VStr s ∨ prop o "email" = VStr s) ∧ contains_ci s q.

(** [l'] is [l] with exactly the elements satisfying [P] kept, in order. *)
Inductive selects {A} (P : A → Prop) : list A → list A → Prop :=
  | selects_nil : selects P [] []
  | selects_keep x l l' : P x → selects P l l' → selects P (x :: l) (x :: l')
  | selects_skip x l l' : ¬ P x → selects P l l' → selects P (x :: l) l'.

(** Name and email are strings. *)
Definition text_fields (o : gmap string value) : bool :=
  match prop o "name", prop o "email" with
  | VStr _, VStr _ => true
  | _, _ => false
  end.

(** What the search callback computes on a record with string name and
    email, and what it means. *)
Definition name_or_email_includes (query : string) (o : gmap string value) : bool :=
  match prop o "name", prop o "email" with
  | VStr n, VStr e =>
      includes (toLowerCase n) (toLowerCase query)
      || includes (toLowerCase e) (toLowerCase query)
  | _, _ => false
  end.

(** *** JSON data in the heap *)

(** A property and a member agree: both absent (a property holding
    [undefined] counts as absent), or both present and related. *)
Inductive field_rel (R : value → json → Prop) : option value → option json → Prop :=
  | field_absent : field_rel R None None
  | field_undefined : field_rel R (Some VUndef) None
  | field_present v j : R v j → field_rel R (Some v) (Some j).

(** [denotes h v j]: in heap [h], the value [v] is the JSON data [j], with
    the same elements in the same order in every array and the same
    property values in every object. *)
#[warnings="-register-all"]
Inductive denotes (h : gmap loc cell) : value → json → Prop :=
  | denotes_null : denotes h VNull JNull
  | denotes_bool b : denotes h (VBool b) (JBool b)
  | denotes_num n : denotes h (VNum n) (JNum n)
  | denotes_str s : denotes h (VStr s) (JStr s)
  | denotes_arr l a js :
      h !! l = Some (CArr a) →
      Forall2 (denotes h) a js →
      denotes h (VRef l) (JArr js)
  | denotes_obj l o m :
      h !! l = Some (CObj o) →
      (∀ k, field_rel (denotes h) (o !! k) (m !! k)) →
      denotes h (VRef l) (JObj m).

(** Nesting depth of JSON data: the number of arrays and objects one
    inside the other. *)
Fixpoint depth (j : json) : nat :=
  match j with
  | JArr js => S (foldr (λ j' n, depth j' `max` n) 0 js)
  | JObj m => S (map_fold (λ _ j' n, depth j' `max` n) 0 m)
  | _ => 0
  end.

(** *** Frames *)

(** [h'] keeps every cell of [h] except perhaps the one at [lc]. *)
Definition preserved_but (lc : loc) (h h' : gmap loc cell) : Prop :=
  ∀ l x, l ≠ lc → h !! l = Some x → h' !! l = Some x.

(** [st'] is [st] with new cells: every cell of [st] is in [st'] as it was,
    and the bindings are the same. *)
Definition extends (st st' : store) : Prop :=
  heap st ⊆ heap st' ∧ students st' = students st ∧ teachers st' = teachers st.

(** A computation that only adds cells, whether it returns or throws. *)
Definition grows {A} (m : M A) : Prop := ∀ st, extends st (m st).2.

(** ** Sequences of façade operations *)

Inductive op :=
  | OpList (k : kind)
  | OpGetById (k : kind) (id : value)
  | OpCreate (k : kind) (data : gmap string value)
  | OpUpdate (k : kind) (id : value) (updates : gmap string value)
  | OpDelete (k : kind) (id : value)
  | OpSearch (k : kind) (query : string)
  | OpExport (now : string)
  | OpImport (data : gmap string value)
  | OpReset.

(** The store an operation leaves behind, whether it returns or throws. *)
Definition step (defaultStudents defaultTeachers : json) (o : op) (st : store) : store :=
  match o with
  | OpList k => (getAll k st).2
  | OpGetById k id => (getById k id st).2
  | OpCreate k data => (create k data st).2
  | OpUpdate k id updates => (update k id updates st).2
  | OpDelete k id => (delete_record k id st).2
  | OpSearch k query => (search k query st).2
  | OpExport now => (exportData now st).2
  | OpImport data => (importData data st).2
  | OpReset => (resetAllData defaultStudents defaultTeachers st).2
  end.

Definition run (defaultStudents defaultTeachers : json) (ops : list op) (st : store) : store :=
  foldl (λ st o, step defaultStudents defaultTeachers o st) st ops.

(** The value is an array of objects whose ids are pairwise distinct. *)
Definition unique_ids (h : gmap loc cell) (c : value) : Prop :=
  match records h c with
  | Some rs => NoDup (ids rs)
  | None => False
  end.

#[global] Instance unique_ids_dec h c : Decision (unique_ids h c).
Proof. unfold unique_ids. destruct (records h c); apply _. Defined.

(** Both collections have pairwise-distinct ids. *)
Definition ids_unique (st : store) : Prop :=
  unique_ids (heap st) (students st) ∧ unique_ids (heap st) (teachers st).

#[global] Instance ids_unique_dec st : Decision (ids_unique st).
Proof. unfold ids_unique. apply _. Defined.

(** A list that [importData] would install has pairwise-distinct ids. *)
Definition payload_unique (h : gmap loc cell) (data : gmap string value) (key : string) : Prop :=
  truthy (prop data key) && isArray h (prop data key) = true →
  unique_ids h (prop data key).

#[global] Instance payload_unique_dec h data key : Decision (payload_unique h data key).
Proof. unfold payload_unique. apply _. Defined.

(** Every import of the sequence carries lists with pairwise-distinct ids
    at the moment it is run. *)
Fixpoint imports_unique (defaultStudents defaultTeachers : json)
    (ops : list op) (st : store) : Prop :=
  match ops with
  | [] => True
  | o :: ops' =>
      match o with
      | OpImport data =>
          payload_unique (heap st) data "students" ∧
          payload_unique (heap st) data "teachers"
      | _ => True
      end ∧
      imports_unique defaultStudents defaultTeachers ops'
        (step defaultStudents defaultTeachers o st)
  end.

#[global] Instance imports_unique_dec dS dT ops st : Decision (imports_unique dS dT ops st).
Proof.
  revert st. induction ops as [|o ops IH]; intros st; simpl; [apply _|].
  destruct o; apply _.
Defined.

(** Seed data: a list of objects whose ids are pairwise-distinct strings. *)
Definition seed_id (j : json) : option string :=
  match j with
  | JObj m => match m !! "id" with Some (JStr s) => Some s | _ => None end
  | _ => None
  end.

Definition seed_unique (seed : json) : Prop :=
  match seed with
  | JArr js =>
      match mapM seed_id js with
      | Some names => NoDup names
      | None => False
      end
  | _ => False
  end.

#[global] Instance seed_unique_dec seed : Decision (seed_unique seed).
Proof.
  unfold seed_unique. destruct seed; try apply _.
  destruct (mapM seed_id js); apply _.
Defined.

(** ** The scenario of the spec

    A store with one student and one teacher, and the inputs used in the
    scenarios. *)

(** The seed student of the scenario. *)
Definition john : gmap string value :=
  <["id" := VStr "1234500001"]> (<["name" := VStr "John Doe"]>
  (<["email" := VStr "john@x.edu"]> (<["password" := VStr "Student@001"]> ∅))).

(** A teacher, with its specialization array in cell 4. *)
Definition ada : gmap string value :=
  <["id" := VStr "T001"]> (<["name" := VStr "Ada Byron"]>
  (<["email" := VStr "ada@x.edu"]> (<["password" := VStr "Teacher@001"]>
  (<["specialization" := VRef 4]> ∅)))).

(** Cells 0 and 1 are the two collections. *)
Definition seed_store : store :=
  Store (<[0 := CArr [VRef 2]]> (<[1 := CArr [VRef 3]]> (<[2 := CObj john]>
        (<[3 := CObj ada]> (<[4 := CArr [VStr "Mathematics"]]> ∅)))))
        (VRef 0) (VRef 1).

(** The input of the scenario: no password. *)
Definition jane : gmap string value :=
  <["id" := VStr "1234500002"]> (<["name" := VStr "Jane Roe"]>
  (<["email" := VStr "jane@x.edu"]> ∅)).

(** An input with the id of the stored student and no name. *)
Definition nameless_john : gmap string value :=
  <["id" := VStr "1234500001"]> (<["email" := VStr "john@x.edu"]> ∅).

(** Jane's input with an explicitly empty password. *)
Definition jane_empty_password : gmap string value :=
  <["password" := VStr ""]> jane.

(** A teacher input without a password. *)
Definition alan : gmap string value :=
  <["id" := VStr "T002"]> (<["name" := VStr "Alan Turing"]>
  (<["email" := VStr "alan@x.edu"]> ∅)).

(** A patch that changes the email and tries to change the id. *)
Definition new_email : gmap string value :=
  <["email" := VStr "john2@x.edu"]> (<["id" := VStr "9999999999"]> ∅).

(** The JSON data of the seed store. *)
Definition john_json : json :=
  JObj (<["id" := JStr "1234500001"]> (<["name" := JStr "John Doe"]>
       (<["email" := JStr "john@x.edu"]> (<["password" := JStr "Student@001"]> ∅)))).

Definition ada_json : json :=
  JObj (<["id" := JStr "T001"]> (<["name" := JStr "Ada Byron"]>
       (<["email" := JStr "ada@x.edu"]> (<["password" := JStr "Teacher@001"]>
       (<["specialization" := JArr [JStr "Mathematics"]]> ∅))))).

(** A store that also holds two lists a caller is about to import: one
    with two records of the same id, one with a single record. *)
Definition john_again : gmap string value :=
  <["name" := VStr "John Again"]> john.

(** Cells 5 and 8 are the lists to import. *)
Definition import_store : store :=
  Store (<[5 := CArr [VRef 6; VRef 7]]> (<[6 := CObj john]> (<[7 := CObj john_again]>
        (<[8 := CArr [VRef 6]]> (heap seed_store)))))
        (VRef 0) (VRef 1).

(** The two import payloads. *)
Definition duplicate_payload : gmap string value :=
  <["students" := VRef 5]> ∅.

Definition single_payload : gmap string value :=
  <["students" := VRef 8]> ∅.

(** A session that goes through every operation. *)
Definition session : list op :=
  [ OpCreate Students jane;
    OpUpdate Students (VStr "1234500002") new_email;
    OpSearch Students "john";
    OpList Students;
    OpGetById Teachers (VStr "T001");
    OpExport "2026-01-01T00:00:00.000Z";
    OpImport single_payload;
    OpDelete Students (VStr "1234500001");
    OpReset;
    OpCreate Teachers alan ].

(** An input without an email, and the id of a student nobody has. *)
Definition no_email : gmap string value :=
  <["id" := VStr "1234500003"]> (<["name" := VStr "Max Mustermann"]> ∅).

Definition unknown_id : value := VStr "0000000000".

(** A store whose only student has no name, and one with two students of
    the same id. *)
Definition nameless_store : store :=
  Store (<[0 := CArr [VRef 2]]> (<[1 := CArr []]> (<[2 := CObj nameless_john]> ∅)))
        (VRef 0) (VRef 1).

Definition twins_store : store :=
  Store (<[0 := CArr [VRef 2; VRef 3]]> (<[1 := CArr []]> (<[2 := CObj john]>
        (<[3 := CObj john_again]> ∅))))
        (VRef 0) (VRef 1).

(** An input whose id is a number. *)
Definition numbered : gmap string value :=
  <["id" := VNum 7]> (<["name" := VStr "Seven"]> (<["email" := VStr "seven@x.edu"]> ∅)).

(** An import payload without lists. *)
Definition empty_payload : gmap string value :=
  <["students" := VStr "none"]> (<["exportDate" := VStr "2026-01-01"]> ∅).

(** The properties [create] names in the object literal of the new record. *)
Definition fields (k : kind) : list string :=
  match k with
  | Students => ["id"; "name"; "email"; "password"]
  | Teachers => ["id"; "name"; "email"; "password"; "specialization"]
  end.

(** The object literal of [create]: [{ id, name, email, password }], with
    [specialization] for a teacher. *)
Definition new_record (k : kind) (data : gmap string value) (pw sp : value)
  : gmap string value :=
  <["id" := prop data "id"]> (<["name" := prop data "name"]>
  (<["email" := prop data "email"]> (<["password" := pw]>
  (match k with Students => ∅ | Teachers => <["specialization" := sp]> ∅ end)))).

(** A teacher input with the specialization array of the seed store and a
    property the façade does not name. *)
Definition grace : gmap string value :=
  <["id" := VStr "T003"]> (<["name" := VStr "Grace Hopper"]>
  (<["email" := VStr "grace@x.edu"]> (<["specialization" := VRef 4]>
  (<["office" := VStr "B12"]> ∅)))).

(** * The student list ([src/components/StudentsListView.jsx])

    The component keeps the list it shows, the state of the create dialog
    and the form in React state, and changes the store only through the
    façade.  A handler is a function from the state of the component at
    the time of the event to the state after it; the handlers that call
    the façade run in the store monad.  Left out: the debounce timer of the
    search box, the timer that hides the success message, the diagnostic
    snapshot of the browser's local storage ([readPersisted]), and the
    random grades of [studentsWithGrades].  The handler of the Edit button
    calls [handleOpenEdit], which the component does not define: the call
    throws before any state is set, and is left out too. *)

(** White space: the code units below 256 that [\s] matches, which are
    tab, line feed, vertical tab, form feed, carriage return (9-13), space
    (32) and the no-break space U+00A0 (160). *)
Definition is_space (c : ascii) : bool :=
  let n := nat_of_ascii c in
  ((9 <=? n) && (n <=? 13) || (n =? 32) || (n =? 160))%nat.

(** [s.replace(/\s+/g, ".")]: every maximal run of white space becomes one
    dot.  [in_run] says that the character before was white space. *)
Fixpoint replace_spaces_from (in_run : bool) (s : string) : string :=
  match s with
  | EmptyString => EmptyString
  | String c s' =>
      if is_space c
      then if in_run then replace_spaces_from true s'
           else String "." (replace_spaces_from true s')
      else String c (replace_spaces_from false s')
  end.

Definition replace_spaces : string → string := replace_spaces_from false.

Definition generateEmail (id name : string) : string :=
  if negb (truthy (VStr id)) || negb (truthy (VStr name)) then ""
  else
    let rollNum := slice_last 3 id in
    let namePart := replace_spaces (toLowerCase name) in
    namePart +:+ "." +:+ rollNum +:+ "@university.edu".

Definition generatePassword (id : string) : string :=
  if negb (truthy (VStr id)) then ""
  else
    let rollNum := slice_last 3 id in
    "Student@" +:+ rollNum.

(** [formData]: the four fields are strings, the values of text inputs. *)
Record form := Form {
  f_id : string;
  f_name : string;
  f_email : string;
  f_password : string
}.

(** The object [formData] as [createStudent] reads it. *)
Definition form_data (f : form) : gmap string value :=
  <["id" := VStr (f_id f)]> (<["name" := VStr (f_name f)]>
  (<["email" := VStr (f_email f)]> (<["password" := VStr (f_password f)]> ∅))).

Definition blank_form : form := Form "" "" "" "".

(** The [error] state: a text of the component, or the message of an
    error the façade threw. *)
Inductive shown :=
  | Text (s : string)
  | MessageOf (e : error).

(** The state of the component. *)
Record view := View {
  v_students : value;
  v_isCreateOpen : bool;
  v_editingId : value;
  v_formData : form;
  v_error : shown;
  v_success : string
}.

Definition setStudents (x : value) (v : view) : view :=
  View x (v_isCreateOpen v) (v_editingId v) (v_formData v) (v_error v) (v_success v).
Definition setIsCreateOpen (x : bool) (v : view) : view :=
  View (v_students v) x (v_editingId v) (v_formData v) (v_error v) (v_success v).
Definition setEditingId (x : value) (v : view) : view :=
  View (v_students v) (v_isCreateOpen v) x (v_formData v) (v_error v) (v_success v).
Definition setFormData (x : form) (v : view) : view :=
  View (v_students v) (v_isCreateOpen v) (v_editingId v) x (v_error v) (v_success v).
Definition setError (x : shown) (v : view) : view :=
  View (v_students v) (v_isCreateOpen v) (v_editingId v) (v_formData v) x (v_success v).
Definition setSuccess (x : string) (v : view) : view :=
  View (v_students v) (v_isCreateOpen v) (v_editingId v) (v_formData v) (v_error v) x.

Definition resetForm (v : view) : view :=
  setEditingId VNull (setError (Text "") (setFormData blank_form v)).

Definition handleOpenCreate (v : view) : view :=
  setIsCreateOpen true (resetForm v).

Definition handleIdChange (newId : string) (v : view) : view :=
  let formData := v_formData v in
  setFormData (Form newId (f_name formData)
                 (generateEmail newId (f_name formData))
                 (generatePassword newId)) v.

Definition handleNameChange (newName : string) (v : view) : view :=
  let formData := v_formData v in
  setFormData (Form (f_id formData) newName
                 (generateEmail (f_id formData) newName)
                 (f_password formData)) v.

(** [handleSave].  The state set before an exception stays set: the two
    nested handlers are the one [catch] of the source, entered with the
    state as it was before and after [setSuccess]. *)
Definition handleSave (v : view) : M view :=
  let formData := v_formData v in
  let v0 := setSuccess "" (setError (Text "") v) in
  if negb (truthy (VStr (f_id formData))) || negb (truthy (VStr (f_name formData)))
     || negb (truthy (VStr (f_email formData)))
  then mret (setError (Text "ID, Name, and Email are required") v0)
  else
    try_catch
      (v1 ← (if truthy (v_editingId v)
             then
               updateStudent (v_editingId v)
                 (<["name" := VStr (f_name formData)]>
                  (<["email" := VStr (f_email formData)]>
                  (<["password" := VStr (f_password formData)]> ∅)));;
               createStudent (form_data formData);;
               mret v0
             else
               createStudent (form_data formData);;
               mret (setSuccess ("Student " +:+ f_name formData +:+ " created successfully!")
                       v0));
       try_catch
         (list ← getStudents;
          mret (resetForm (setIsCreateOpen false (setStudents list v1))))
         (λ err, mret (setError (MessageOf err) v1)))
      (λ err, mret (setError (MessageOf err) v0)).

(** [handleDelete]; [confirmed] is the answer to [window.confirm].  The
    name is the one of a listed row, a string. *)
Definition handleDelete (id : value) (name : string) (confirmed : bool) (v : view) : M view :=
  if confirmed then
    try_catch
      (deleteStudent id;;
       list ← getStudents;
       mret (setSuccess ("Student " +:+ name +:+ " deleted successfully!")
               (setStudents list v)))
      (λ err, mret (setError (MessageOf err) v))
  else mret v.

(** The events of the component. *)
Inductive event :=
  | OpenCreate
  | IdChange (newId : string)
  | NameChange (newName : string)
  | Save
  | Delete (id : value) (name : string) (confirmed : bool)
  | OpenChange (open : bool).

Definition handle (e : event) (v : view) : M view :=
  match e with
  | OpenCreate => mret (handleOpenCreate v)
  | IdChange newId => mret (handleIdChange newId v)
  | NameChange newName => mret (handleNameChange newName v)
  | Save => handleSave v
  | Delete id name confirmed => handleDelete id name confirmed v
  | OpenChange open => mret (setIsCreateOpen open v)
  end.

Fixpoint handle_all (es : list event) (v : view) : M view :=
  match es with
  | [] => mret v
  | e :: es' => v' ← handle e v; handle_all es' v'
  end.

(** [v.includes(q)] for a string [q]: the substring test on a string,
    membership in an array, a TypeError on everything else. *)
Definition includes_of (h : gmap loc cell) (v : value) (q : string) : result bool :=
  match v with
  | VStr s => Ok (includes s q)
  | VRef l =>
      match h !! l with
      | Some (CArr a) => Ok (bool_decide (VStr q ∈ a))
      | _ => Throw TypeError
      end
  | _ => Throw TypeError
  end.

(** The callback of [filteredStudents]:
    [student => student.name.toLowerCase().includes(q) || student.id.includes(q)]. *)
Definition row_matches (h : gmap loc cell) (q : string) (s : value) : result bool :=
  n ← getProp h s "name";
  nl ← lowered n;
  if includes nl q then Ok true
  else i ← getProp h s "id"; includes_of h i q.

(** [filteredStudents]: the rows of [studentsWithGrades] are the listed
    students with three more properties, and the filter reads [name] and
    [id] only, so a row is identified with the student it extends. *)
Definition filteredStudents (debouncedSearch : string) (v : view) : M (list value) :=
  let q := toLowerCase debouncedSearch in
  reading (λ h, a ← elements_of h (v_students v); filterA (row_matches h q) a).

(** *** The form, as the properties read it *)

(** Email and password are the generated ones. *)
Definition generated (f : form) : Prop :=
  f_email f = generateEmail (f_id f) (f_name f) ∧
  f_password f = generatePassword (f_id f).

(** The characters of a string. *)
Fixpoint letters (s : string) : list ascii :=
  match s with
  | EmptyString => []
  | String c s' => c :: letters s'
  end.

(** The initial state of the component, over a list [l]. *)
Definition initial_view (l : value) : view :=
  View l false VNull blank_form (Text "") "".

(** A form filled in by typing. *)
Definition jane_form : form :=
  Form "1234500002" "Jane Roe" "jane.roe.002@university.edu" "Student@002".

(** The form with the id of the stored student. *)
Definition john_form : form :=
  Form "1234500001" "John Doe" "john.doe.001@university.edu" "Student@001".

(** A student whose id, É12, begins with a capital letter, alone in a
    store. *)
Definition capital_id : string := String (ascii_of_nat 201) "12".

Definition capital : gmap string value :=
  <["id" := VStr capital_id]> (<["name" := VStr "Cy Dee"]> ∅).

Definition capital_store : store :=
  Store (<[0 := CArr [VRef 2]]> (<[1 := CArr []]> (<[2 := CObj capital]> ∅)))
        (VRef 0) (VRef 1).

(** * The application shell ([src/App.jsx])

    [currentUser] is [null] or the session object.  The effect below runs
    after every change of [currentUser]; the address bar is a parameter.
    The copy of the session in the browser's local storage is not
    modelled. *)

(** [s.split(sep)] for a separator of one character. *)
Fixpoint split_on (sep : ascii) (s : string) : list string :=
  match s with
  | EmptyString => [EmptyString]
  | String c s' =>
      if Ascii.eqb c sep then EmptyString :: split_on sep s'
      else match split_on sep s' with
           | part :: parts => String c part :: parts
           | [] => [String c EmptyString]
           end
  end.

(** [pathname.split("/").filter(Boolean)] *)
Definition path_parts (pathname : string) : list string :=
  List.filter (λ p, truthy (VStr p)) (split_on "/" pathname).

(** The effect that selects the user named in the address bar: the value
    returned is [currentUser] after it.  An exception anywhere is caught and
    ignored, with [currentUser] as it was. *)
Definition select_from_path (pathname : string) (currentUser : value) : M value :=
  try_catch
    (match path_parts pathname with
     | id :: second :: _ =>
         if String.eqb second "dashboard" then
           same ← reading (λ h,
             if truthy currentUser
             then cid ← getProp h currentUser "id"; Ok (strict_eq cid (VStr id))
             else Ok false);
           if (same : bool) then mret currentUser
           else
             student ← getStudentById (VStr id);
             if truthy student then
               sid ← reading (λ h, getProp h student "id");
               sname ← reading (λ h, getProp h student "name");
               semail ← reading (λ h, getProp h student "email");
               new (CObj (<["id" := sid]> (<["name" := sname]> (<["email" := semail]>
                         (<["type" := VStr "student"]> ∅)))))
             else
               teacher ← getTeacherById (VStr id);
               if truthy teacher then
                 tid ← reading (λ h, getProp h teacher "id");
                 tname ← reading (λ h, getProp h teacher "name");
                 temail ← reading (λ h, getProp h teacher "email");
                 tspec ← reading (λ h, getProp h teacher "specialization");
                 new (CObj (<["id" := tid]> (<["name" := tname]> (<["email" := temail]>
                           (<["type" := VStr "lecturer"]>
                           (<["specialization" := tspec]> ∅))))))
               else mret currentUser
         else mret currentUser
     | _ => mret currentUser
     end)
    (λ _, mret currentUser).

(** The session object the effect builds from a record. *)
Definition session_of (k : kind) (o : gmap string value) : gmap string value :=
  match k with
  | Students =>
      <["id" := prop o "id"]> (<["name" := prop o "name"]> (<["email" := prop o "email"]>
      (<["type" := VStr "student"]> ∅)))
  | Teachers =>
      <["id" := prop o "id"]> (<["name" := prop o "name"]> (<["email" := prop o "email"]>
      (<["type" := VStr "lecturer"]> (<["specialization" := prop o "specialization"]> ∅))))
  end.

(** No ["/"] in the string. *)
Definition no_slash (s : string) : Prop := Forall (λ c, c ≠ "/"%char) (letters s).

(** A store in which a student and a teacher have the same id. *)
Definition shared_id_store : store :=
  Store (<[0 := CArr [VRef 2]]> (<[1 := CArr [VRef 3]]> (<[2 := CObj john]>
        (<[3 := CObj (<["id" := VStr "1234500001"]> ada)]> ∅))))
        (VRef 0) (VRef 1).

(** *** Text outside ASCII, and an id that is an array *)

(** É (U+00C9), é (U+00E9) and the no-break space (U+00A0). *)
Definition E_acute : ascii := ascii_of_nat 201.
Definition e_acute : ascii := ascii_of_nat 233.
Definition nbsp : ascii := ascii_of_nat 160.

(** "JOSÉ" and "josé". *)
Definition JOSE : string := String "J" (String "O" (String "S" (String E_acute ""))).
Definition jose : string := String "j" (String "o" (String "s" (String e_acute ""))).

(** A student whose name is in capitals, alone in a store. *)
Definition jose_record : gmap string value :=
  <["id" := VStr "1234500004"]> (<["name" := VStr JOSE]>
  (<["email" := VStr "j4@x.edu"]> (<["password" := VStr "Student@004"]> ∅))).

Definition jose_store : store :=
  Store (<[0 := CArr [VRef 2]]> (<[1 := CArr []]> (<[2 := CObj jose_record]> ∅)))
        (VRef 0) (VRef 1).

(** An input whose id is the array [[1, "b", null, ["Mathematics"]]] in
    cell 5, and the seed store with that cell. *)
Definition listed_id : gmap string value :=
  <["id" := VRef 5]> (<["name" := VStr "Ar Ray"]> (<["email" := VStr "ar@x.edu"]> ∅)).

Definition array_store : store :=
  Store (<[5 := CArr [VNum 1; VStr "b"; VNull; VRef 4]]> (heap seed_store))
        (VRef 0) (VRef 1).

(** "JOSÉ Roe", with a no-break space between the two names, and "SÉ". *)
Definition jose_roe : string := JOSE +:+ String nbsp "Roe".
Definition SE : string := String "S" (String E_acute "").
(** * Properties *)

(** ** The string primitives on examples *)

Example toLowerCase_latin1_example :
  toLowerCase JOSE = jose ∧
  toLowerCase (String (ascii_of_nat 215) (String (ascii_of_nat 223) "")) =
    String (ascii_of_nat 215) (String (ascii_of_nat 223) "").
Proof. by split. Qed.

Example toLowerCase_example : toLowerCase "John.DOE@X.edu" = "john.doe@x.edu".
Proof. reflexivity. Qed.

Example includes_example :
  includes "john doe" "n d" = true ∧ includes "john doe" "nd" = false ∧
  includes "" "" = true.
Proof. by split_and!. Qed.

Example slice_last_example :
  slice_last 3 "1234500002" = "002" ∧ slice_last 3 "42" = "42".
Proof. by split. Qed.

Example truthy_example :
  truthy (VStr "") = false ∧ truthy VUndef = false ∧ truthy (VNum 0) = false ∧
  truthy (VStr "0") = true ∧ truthy (VRef 0) = true.
Proof. by split_and!. Qed.

(** ** Running computations *)

Lemma bind_ok {A B} (m : M A) (f : A → M B) st a st' :
  m st = (Ok a, st') → (m ≫= f) st = f a st'.
Proof. intros Hm. unfold mbind, M_bind. by rewrite Hm. Qed.

Lemma binding_run k st : binding k st = (Ok (coll k st), st).
Proof. by destruct k. Qed.

Lemma save_same k st : save k (coll k st) st = (Ok (), st).
Proof. destruct k, st; reflexivity. Qed.

Lemma flush_run k st : flush k st = (Ok (), st).
Proof. by destruct k. Qed.

Lemma new_run c st :
  new c st =
    (Ok (VRef (fresh (dom (heap st)))),
     Store (<[fresh (dom (heap st)) := c]> (heap st)) (students st) (teachers st)).
Proof. reflexivity. Qed.

Lemma copy_of_run v st :
  copy_of v st =
    (Ok (VRef (fresh (dom (heap st)))),
     Store (<[fresh (dom (heap st)) := CObj (spread (heap st) v)]> (heap st))
           (students st) (teachers st)).
Proof. reflexivity. Qed.

Lemma push_run lc a x st :
  heap st !! lc = Some (CArr a) →
  push (VRef lc) x st =
    (Ok (), Store (<[lc := CArr (a ++ [x])]> (heap st)) (students st) (teachers st)).
Proof. intros H. unfold push. simpl. by rewrite H. Qed.

Lemma index_get_run lc a i st :
  heap st !! lc = Some (CArr a) →
  index_get (VRef lc) i st = (Ok (default VUndef (a !! i)), st).
Proof. intros H. unfold index_get, reading. simpl. by rewrite H. Qed.

Lemma index_set_run lc a i x st :
  heap st !! lc = Some (CArr a) → i < length a →
  index_set (VRef lc) i x st =
    (Ok (), Store (<[lc := CArr (<[i := x]> a)]> (heap st)) (students st) (teachers st)).
Proof.
  intros H Hi. unfold index_set. simpl. rewrite H.
  by rewrite decide_True by done.
Qed.

Lemma splice1_run lc a i st :
  heap st !! lc = Some (CArr a) →
  splice1 (VRef lc) i st =
    (Ok (), Store (<[lc := CArr (delete i a)]> (heap st)) (students st) (teachers st)).
Proof. intros H. unfold splice1. simpl. by rewrite H. Qed.

Lemma password_or_default_run k data st :
  password_or_default (password_prefix k) data st =
    (chosen_password k (heap st) data, st).
Proof.
  unfold password_or_default, chosen_password.
  destruct (truthy (prop data "password")); [done|].
  unfold mbind, M_bind, reading. simpl. by destruct (slice3 _ _).
Qed.

(** ** Reading records through the heap *)

Lemma record_at_inv h v o :
  record_at h v = Some o → ∃ l, v = VRef l ∧ h !! l = Some (CObj o).
Proof.
  destruct v as [| | | | |l]; simpl; try discriminate.
  destruct (h !! l) as [[o'|]|] eqn:E; try discriminate.
  intros [= <-]. eauto.
Qed.

Lemma records_inv h c rs :
  records h c = Some rs →
  ∃ l a, c = VRef l ∧ h !! l = Some (CArr a) ∧
         Forall2 (λ v o, record_at h v = Some o) a rs.
Proof.
  unfold records, elements_of.
  destruct c as [| | | | |l]; try discriminate.
  destruct (h !! l) as [[|a]|] eqn:E; try discriminate.
  intros Hm. apply mapM_Some in Hm. eauto.
Qed.

Lemma records_intro h l a rs :
  h !! l = Some (CArr a) →
  Forall2 (λ v o, record_at h v = Some o) a rs →
  records h (VRef l) = Some rs.
Proof.
  intros Hl Ha. unfold records, elements_of. rewrite Hl.
  by apply mapM_Some.
Qed.

Lemma record_at_weaken h h' v o :
  h ⊆ h' → record_at h v = Some o → record_at h' v = Some o.
Proof.
  intros Hsub Hv. apply record_at_inv in Hv as (l & -> & Hl).
  simpl. by rewrite (lookup_weaken _ _ _ _ Hl Hsub).
Qed.

Lemma records_weaken h h' c rs :
  h ⊆ h' → records h c = Some rs → records h' c = Some rs.
Proof.
  intros Hsub Hc. apply records_inv in Hc as (l & a & -> & Hl & Ha).
  apply records_intro with a.
  - by apply (lookup_weaken _ _ _ _ Hl Hsub).
  - eapply Forall2_impl; [done|]. intros v o. by apply record_at_weaken.
Qed.

Lemma has_id_record h v o id :
  record_at h v = Some o → has_id h id v = Ok (bool_decide (prop o "id" = id)).
Proof.
  intros Hv. apply record_at_inv in Hv as (l & -> & Hl).
  unfold has_id, getProp. by rewrite Hl.
Qed.

Lemma first_with_id_exists rs id :
  id ∈ ids rs → ∃ i, first_with_id rs id i.
Proof.
  induction rs as [|o rs IH]; simpl.
  - intros H. by apply elem_of_nil in H.
  - intros Hin. destruct (decide (prop o "id" = id)) as [Heq|Hne].
    + exists 0. split; [by exists o|]. intros j o' Hj. lia.
    + apply elem_of_cons in Hin as [Hin|Hin]; [congruence|].
      destruct (IH Hin) as (i & (o' & Hi & Hid) & Hfirst).
      exists (S i). split; [by exists o'|].
      intros [|j] o'' Hj Hl; simpl in Hl.
      * by injection Hl as <-.
      * apply (Hfirst j); [lia|done].
Qed.

Lemma first_with_id_lt rs id i : first_with_id rs id i → i < length rs.
Proof. intros [(o & Hi & _) _]. by eapply lookup_lt_Some. Qed.

Lemma findIndex_absent h a rs id :
  Forall2 (λ v o, record_at h v = Some o) a rs →
  id ∉ ids rs →
  findIndex (has_id h id) a = Ok None.
Proof.
  induction 1 as [|v o a rs Hv Ha IH]; [done|].
  simpl. intros Hnot. rewrite (has_id_record _ _ _ _ Hv). simpl.
  apply not_elem_of_cons in Hnot as [Hne Hnot].
  rewrite bool_decide_eq_false_2 by congruence.
  by rewrite IH.
Qed.

Lemma findIndex_first h a rs id i :
  Forall2 (λ v o, record_at h v = Some o) a rs →
  first_with_id rs id i →
  findIndex (has_id h id) a = Ok (Some i).
Proof.
  intros Ha. revert i. induction Ha as [|v o a rs Hv Ha IH]; intros i.
  - intros [(o & Hi & _) _]. by rewrite lookup_nil in Hi.
  - intros [(o' & Hi & Hid) Hfirst]. simpl.
    rewrite (has_id_record _ _ _ _ Hv). simpl.
    destruct i as [|i]; simpl in Hi.
    + injection Hi as ->. by rewrite bool_decide_eq_true_2.
    + rewrite bool_decide_eq_false_2 by (apply (Hfirst 0); [lia|done]).
      rewrite (IH i); [done|]. split; [by exists o'|].
      intros j o'' Hj Hl. apply (Hfirst (S j)); [lia|done].
Qed.

Lemma find_absent h a rs id :
  Forall2 (λ v o, record_at h v = Some o) a rs →
  id ∉ ids rs →
  find (has_id h id) a = Ok VUndef.
Proof.
  induction 1 as [|v o a rs Hv Ha IH]; [done|].
  simpl. intros Hnot. rewrite (has_id_record _ _ _ _ Hv). simpl.
  apply not_elem_of_cons in Hnot as [Hne Hnot].
  rewrite bool_decide_eq_false_2 by congruence. by apply IH.
Qed.

Lemma find_first h a rs id i :
  Forall2 (λ v o, record_at h v = Some o) a rs →
  first_with_id rs id i →
  ∃ v, a !! i = Some v ∧ find (has_id h id) a = Ok v.
Proof.
  intros Ha. revert i. induction Ha as [|v o a rs Hv Ha IH]; intros i.
  - intros [(o & Hi & _) _]. by rewrite lookup_nil in Hi.
  - intros [(o' & Hi & Hid) Hfirst]. simpl.
    rewrite (has_id_record _ _ _ _ Hv). simpl.
    destruct i as [|i]; simpl in Hi.
    + injection Hi as ->. rewrite bool_decide_eq_true_2 by done. eauto.
    + rewrite bool_decide_eq_false_2 by (apply (Hfirst 0); [lia|done]).
      apply (IH i). split; [by exists o'|].
      intros j o'' Hj Hl. apply (Hfirst (S j)); [lia|done].
Qed.

(** ** Allocation and framing *)

Lemma fresh_lookup (h : gmap loc cell) : h !! fresh (dom h) = None.
Proof. apply not_elem_of_dom, is_fresh. Qed.

Lemma extends_refl st : extends st st.
Proof. done. Qed.

Lemma extends_trans st1 st2 st3 : extends st1 st2 → extends st2 st3 → extends st1 st3.
Proof.
  intros (H1 & H2 & H3) (H1' & H2' & H3'). split_and!; [|congruence..].
  by transitivity (heap st2).
Qed.

Lemma extends_new c st : extends st (new c st).2.
Proof. split_and!; [|done..]. apply insert_subseteq, fresh_lookup. Qed.

Lemma preserved_but_refl lc h : preserved_but lc h h.
Proof. by intros l x _ Hl. Qed.

Lemma preserved_but_write lc h h' c :
  preserved_but lc h h' → preserved_but lc h (<[lc := c]> h').
Proof. intros Hp l x Hne Hl. rewrite lookup_insert_ne by done. by apply Hp. Qed.

Lemma preserved_but_new lc h h' c :
  is_Some (h !! lc) → is_Some (h' !! lc) →
  preserved_but lc h h' → preserved_but lc h (<[fresh (dom h') := c]> h').
Proof.
  intros _ _ Hp l x Hne Hl.
  rewrite lookup_insert_ne; [by apply Hp|].
  intros <-. apply Hp in Hl; [|done]. by rewrite fresh_lookup in Hl.
Qed.

Lemma record_at_preserved lc a h h' v o :
  h !! lc = Some (CArr a) → preserved_but lc h h' →
  record_at h v = Some o → record_at h' v = Some o.
Proof.
  intros Hlc Hp Hv. apply record_at_inv in Hv as (l & -> & Hl).
  simpl. rewrite (Hp l (CObj o)); [done| |done]. congruence.
Qed.

Lemma Forall2_record_at_preserved lc a0 h h' a rs :
  h !! lc = Some (CArr a0) → preserved_but lc h h' →
  Forall2 (λ v o, record_at h v = Some o) a rs →
  Forall2 (λ v o, record_at h' v = Some o) a rs.
Proof.
  intros Hlc Hp Ha. eapply Forall2_impl; [done|]. intros v o.
  by apply record_at_preserved with lc a0.
Qed.

Lemma records_preserved lc a0 h h' c rs :
  h !! lc = Some (CArr a0) → preserved_but lc h h' →
  c ≠ VRef lc →
  records h c = Some rs → records h' c = Some rs.
Proof.
  intros Hlc Hp Hne Hc. apply records_inv in Hc as (l & a & -> & Hl & Ha).
  apply records_intro with a.
  - apply Hp; [congruence|done].
  - by apply Forall2_record_at_preserved with lc a0 h.
Qed.

Lemma create_invalid k st data :
  valid_input data = false →
  create k data st = (Throw ValidationError, st).
Proof.
  unfold valid_input. intros H.
  destruct k; simpl; unfold createStudent, createTeacher;
    destruct (truthy (prop data "id")), (truthy (prop data "name")),
      (truthy (prop data "email")); done.
Qed.

Lemma create_duplicate k st data rs :
  holds k st rs →
  valid_input data = true →
  prop data "id" ∈ ids rs →
  create k data st = (Throw (DuplicateKeyError (prop data "id")), st).
Proof.
  intros Hrs Hvalid Hin. unfold valid_input in Hvalid.
  apply andb_true_iff in Hvalid as [Hvalid Hemail].
  apply andb_true_iff in Hvalid as [Hid Hname].
  apply records_inv in Hrs as (lc & a & Hc & Hlc & Ha).
  apply first_with_id_exists in Hin as [i Hi].
  destruct (find_first _ _ _ _ _ Ha Hi) as (v & Hv & Hfind).
  assert (truthy v = true) as Htr.
  { destruct (Forall2_lookup_l _ _ _ _ _ Ha Hv) as (o & _ & Ho).
    apply record_at_inv in Ho as (l & -> & _). done. }
  destruct k, st as [h s t]; simpl in *; subst;
    unfold createStudent, createTeacher; rewrite Hid, Hname, Hemail; simpl;
    unfold mbind, M_bind, binding, reading; simpl;
    rewrite Hlc; simpl; rewrite Hfind, Htr; done.
Qed.

Lemma create_bad_password k st data rs e :
  holds k st rs →
  valid_input data = true →
  prop data "id" ∉ ids rs →
  chosen_password k (heap st) data = Throw e →
  create k data st = (Throw e, st).
Proof.
  intros Hrs Hvalid Hin Hpw. unfold valid_input in Hvalid.
  apply andb_true_iff in Hvalid as [Hvalid Hemail].
  apply andb_true_iff in Hvalid as [Hid Hname].
  apply records_inv in Hrs as (lc & a & Hc & Hlc & Ha).
  pose proof (find_absent _ _ _ _ Ha Hin) as Hfind.
  destruct k, st as [h s t]; simpl in *; subst;
    unfold createStudent, createTeacher; rewrite Hid, Hname, Hemail; simpl;
    unfold mbind, M_bind, binding, reading; simpl;
    rewrite Hlc; simpl; rewrite Hfind; simpl.
  - rewrite (password_or_default_run Students). cbn [heap]. by rewrite Hpw.
  - rewrite (password_or_default_run Teachers). cbn [heap]. by rewrite Hpw.
Qed.

Lemma append_facts h h1 lc a rs o :
  h !! lc = Some (CArr a) → h1 !! lc = Some (CArr a) →
  preserved_but lc h h1 →
  Forall2 (λ v r, record_at h v = Some r) a rs →
  let lo := fresh (dom h1) in
  let h2 := <[lc := CArr (a ++ [VRef lo])]> (<[lo := CObj o]> h1) in
  let h3 := <[fresh (dom h2) := CObj (spread h2 (VRef lo))]> h2 in
  spread h2 (VRef lo) = o ∧
  preserved_but lc h h3 ∧
  records h3 (VRef lc) = Some (rs ++ [o]) ∧
  record_at h3 (VRef (fresh (dom h2))) = Some o.
Proof.
  intros Hlc Hlc1 Hp Ha lo h2 h3.
  assert (lo ≠ lc) as Hne.
  { intros E. rewrite <- E in Hlc1. unfold lo in Hlc1. by rewrite fresh_lookup in Hlc1. }
  assert (h2 !! lo = Some (CObj o)) as Hlo.
  { unfold h2. rewrite lookup_insert_ne by done. by rewrite lookup_insert_eq. }
  assert (h2 !! lc = Some (CArr (a ++ [VRef lo]))) as Hlc2 by apply lookup_insert_eq.
  assert (spread h2 (VRef lo) = o) as Hs by (simpl; by rewrite Hlo).
  assert (preserved_but lc h h3) as Hp3.
  { unfold h3. apply preserved_but_new; [eauto..|].
    apply preserved_but_write. apply preserved_but_new; eauto. }
  assert (∀ l x, h2 !! l = Some x → h3 !! l = Some x) as Hext.
  { intros l x Hl. unfold h3. rewrite lookup_insert_ne; [done|].
    intros E. rewrite <- E in Hl. by rewrite fresh_lookup in Hl. }
  split_and!; [done..| |].
  - apply records_intro with (a ++ [VRef lo]); [by apply Hext|].
    apply Forall2_app.
    + by apply Forall2_record_at_preserved with lc a h.
    + constructor; [|constructor]. simpl. by rewrite (Hext _ _ Hlo).
  - unfold h3. rewrite Hs. simpl. by rewrite lookup_insert_eq.
Qed.

(** The tail of [create], from the [push] on, once the new record is in
    cell [fresh (dom h1)]. *)
Ltac finish_create h h1 lc a rs o Hlc Hlc1 Hp1 Ha :=
  destruct (append_facts h h1 lc a rs o Hlc Hlc1 Hp1 Ha) as (Hs & Hp & Hr & Hcopy);
  erewrite push_run by (simpl; rewrite lookup_insert_ne; [exact Hlc1|];
    intros E; rewrite <- E in Hlc1; by rewrite fresh_lookup in Hlc1);
  cbn [heap students teachers]; rewrite copy_of_run; cbn [heap students teachers];
  eexists _, _, o, lc; split; [reflexivity|]; cbn [heap students teachers];
  split_and!; done.

Lemma create_ok k st data rs pw :
  holds k st rs →
  valid_input data = true →
  prop data "id" ∉ ids rs →
  chosen_password k (heap st) data = Ok pw →
  ∃ r st' o lc,
    create k data st = (Ok r, st') ∧
    coll k st = VRef lc ∧
    students st' = students st ∧ teachers st' = teachers st ∧
    preserved_but lc (heap st) (heap st') ∧
    holds k st' (rs ++ [o]) ∧
    record_at (heap st') r = Some o ∧
    prop o "id" = prop data "id" ∧
    prop o "name" = prop data "name" ∧
    prop o "email" = prop data "email" ∧
    prop o "password" = pw.
Proof.
  intros Hrs Hvalid Hin Hpw. unfold valid_input in Hvalid.
  apply andb_true_iff in Hvalid as [Hvalid Hemail].
  apply andb_true_iff in Hvalid as [Hid Hname].
  apply records_inv in Hrs as (lc & a & Hc & Hlc & Ha).
  pose proof (find_absent _ _ _ _ Ha Hin) as Hfind.
  destruct k, st as [h s t]; simpl in *; subst;
    unfold createStudent, createTeacher; rewrite Hid, Hname, Hemail; simpl;
    unfold mbind, M_bind, binding, reading; simpl;
    rewrite Hlc; simpl; rewrite Hfind; simpl.
  - rewrite (password_or_default_run Students). cbn [heap]. rewrite Hpw. simpl.
    set (o := <["id":=_]> _).
    finish_create h h lc a rs o Hlc Hlc (preserved_but_refl lc h) Ha.
  - rewrite (password_or_default_run Teachers). cbn [heap]. rewrite Hpw. cbn [heap students teachers].
    destruct (isArray h (prop data "specialization")) eqn:Harr; simpl.
    + set (o := <["id":=_]> _).
      finish_create h h lc a rs o Hlc Hlc (preserved_but_refl lc h) Ha.
    + set (h1 := <[fresh (dom h) := CArr []]> h).
      set (o := <["id":=_]> _).
      assert (h1 !! lc = Some (CArr a)) as Hlc1.
      { unfold h1. rewrite lookup_insert_ne; [done|].
        intros E; rewrite <- E in Hlc; by rewrite fresh_lookup in Hlc. }
      assert (preserved_but lc h h1) as Hp1.
      { apply preserved_but_new; eauto using preserved_but_refl. }
      finish_create h h1 lc a rs o Hlc Hlc1 Hp1 Ha.
Qed.

(** ** Lookup by id *)

Lemma getById_absent k st rs id :
  holds k st rs → id ∉ ids rs → getById k id st = (Ok VNull, st).
Proof.
  intros Hrs Hnot. apply records_inv in Hrs as (lc & a & Hc & Hlc & Ha).
  unfold getById. rewrite (bind_ok _ _ _ _ _ (binding_run k st)). rewrite Hc.
  unfold mbind at 1, M_bind, reading. simpl. rewrite Hlc. simpl.
  by rewrite (find_absent _ _ _ _ Ha Hnot).
Qed.

Lemma getById_found k st rs id i o :
  holds k st rs → first_with_id rs id i → rs !! i = Some o →
  ∃ g st',
    getById k id st = (Ok g, st') ∧
    record_at (heap st') g = Some o ∧
    extends st st' ∧
    ∃ l, g = VRef l ∧ heap st !! l = None.
Proof.
  intros Hrs Hfirst Hi. apply records_inv in Hrs as (lc & a & Hc & Hlc & Ha).
  destruct (find_first _ _ _ _ _ Ha Hfirst) as (v & Hv & Hfind).
  destruct (Forall2_lookup_l _ _ _ _ _ Ha Hv) as (o' & Hi' & Ho).
  assert (o' = o) as -> by congruence.
  pose proof Ho as Ho'. apply record_at_inv in Ho' as (l & -> & Hl).
  unfold getById. rewrite (bind_ok _ _ _ _ _ (binding_run k st)). rewrite Hc.
  unfold mbind at 1, M_bind, reading. simpl. rewrite Hlc. simpl.
  rewrite Hfind. simpl. rewrite copy_of_run. simpl. rewrite Hl.
  eexists _, _. split; [reflexivity|]. simpl.
  rewrite lookup_insert_eq.
  split_and!; [done|apply (extends_new (CObj o) st)|].
  eexists. split; [done|apply fresh_lookup].
Qed.

Lemma first_with_id_last rs o :
  prop o "id" ∉ ids rs → first_with_id (rs ++ [o]) (prop o "id") (length rs).
Proof.
  intros Hnot. split.
  - exists o. split; [|done]. by rewrite lookup_app_r, Nat.sub_diag.
  - intros j o' Hj Hl Heq. rewrite lookup_app_l in Hl by done.
    apply Hnot. rewrite <- Heq. unfold ids. apply list_elem_of_fmap.
    exists o'. split; [done|]. by eapply list_elem_of_lookup_2.
Qed.

Lemma truthy_str s : s ≠ "" → truthy (VStr s) = true.
Proof. intros Hs. simpl. by destruct s. Qed.

Lemma append_nonempty s t : s ≠ "" → s +:+ t ≠ "".
Proof. by destruct s. Qed.

Lemma chosen_password_str k h data id :
  prop data "id" = VStr id →
  ∃ pw, chosen_password k h data = Ok pw ∧ truthy pw = true ∧
        (truthy (prop data "password") = true → pw = prop data "password") ∧
        (truthy (prop data "password") = false →
           pw = VStr (password_prefix k +:+ slice_last 3 id)).
Proof.
  intros Hid. unfold chosen_password. rewrite Hid.
  destruct (truthy (prop data "password")) eqn:Hpw; simpl.
  - by exists (prop data "password").
  - eexists. split; [reflexivity|]. split_and!; try done.
    apply truthy_str, append_nonempty. by destruct k.
Qed.

Lemma prop_lookup o k v : o !! k = Some v → prop o k = v.
Proof. intros H. unfold prop. by rewrite H. Qed.

Lemma valid_input_strings data id name email :
  prop data "id" = VStr id → prop data "name" = VStr name →
  prop data "email" = VStr email →
  id ≠ "" → name ≠ "" → email ≠ "" →
  valid_input data = true.
Proof.
  intros Hid Hname Hemail ? ? ?. unfold valid_input.
  rewrite Hid, Hname, Hemail. by rewrite !truthy_str.
Qed.

(** ** Creation *)




(** C5: for every input whose id, name and email are non-empty strings and
    whose id is not in the collection, [create] succeeds and a following
    [getById] with that id returns a record with the input's id, name and
    email and a non-empty password: the supplied one, or a synthesized
    non-empty string when none was supplied. *)
Theorem create_then_getById k st rs data id name email :
  holds k st rs →
  data !! "id" = Some (VStr id) →
  data !! "name" = Some (VStr name) →
  data !! "email" = Some (VStr email) →
  id ≠ "" → name ≠ "" → email ≠ "" →
  VStr id ∉ ids rs →
  ∃ r st1 g st2 o,
    create k data st = (Ok r, st1) ∧
    getById k (VStr id) st1 = (Ok g, st2) ∧
    record_at (heap st2) g = Some o ∧
    prop o "id" = VStr id ∧
    prop o "name" = VStr name ∧
    prop o "email" = VStr email ∧
    truthy (prop o "password") = true ∧
    (truthy (prop data "password") = true → prop o "password" = prop data "password") ∧
    (truthy (prop data "password") = false → ∃ s, prop o "password" = VStr s ∧ s ≠ "").
Proof.
  intros Hrs Hid Hname Hemail Hid' Hname' Hemail' Hfresh.
  apply prop_lookup in Hid, Hname, Hemail.
  destruct (chosen_password_str k (heap st) data id Hid) as (pw & Hpw & Htruthy & Hgiven & Hdefault).
  destruct (create_ok k st data rs pw Hrs) as
    (r & st1 & o & lc & Hcreate & _ & _ & _ & _ & Hrs1 & _ & Hoid & Honame & Hoemail & Hopw);
    [|by rewrite Hid|done|].
  { by apply valid_input_strings with id name email. }
  rewrite Hid in Hoid.
  destruct (getById_found k st1 (rs ++ [o]) (VStr id) (length rs) o Hrs1)
    as (g & st2 & Hget & Hg & _).
  { rewrite <- Hoid. apply first_with_id_last. by rewrite Hoid. }
  { by rewrite lookup_app_r, Nat.sub_diag. }
  exists r, st1, g, st2, o. split_and!; try done; try congruence.
  - by rewrite Hopw; apply Hgiven.
  - intros Hnone. rewrite Hopw, (Hdefault Hnone). eexists. split; [done|].
    apply append_nonempty. by destruct k.
Qed.

Lemma create_then_getById_witness :
  holds Students seed_store [john] ∧
  ∃ r st1 g st2 o,
    createStudent jane seed_store = (Ok r, st1) ∧
    getStudentById (VStr "1234500002") st1 = (Ok g, st2) ∧
    record_at (heap st2) g = Some o ∧
    prop o "id" = VStr "1234500002" ∧
    prop o "name" = VStr "Jane Roe" ∧
    prop o "email" = VStr "jane@x.edu" ∧
    truthy (prop o "password") = true.
Proof.
  assert (holds Students seed_store [john]) as H by reflexivity.
  split; [exact H|].
  destruct (create_then_getById Students seed_store [john] jane
              "1234500002" "Jane Roe" "jane@x.edu" H)
    as (r & st1 & g & st2 & o & H1 & H2 & H3 & H4 & H5 & H6 & H7 & _);
    [reflexivity..|discriminate|discriminate|discriminate| |].
  - intros Hin. apply list_elem_of_singleton in Hin. discriminate.
  - by exists r, st1, g, st2, o.
Defined.

(** ** The synthesized password *)

Lemma drop_chars_spec n s :
  n ≤ String.length s →
  ∃ pre, s = pre +:+ drop_chars n s ∧
         String.length (drop_chars n s) = String.length s - n.
Proof.
  revert s. induction n as [|n IH]; intros s Hn.
  - exists "". split; [by destruct s|]. destruct s; simpl; lia.
  - destruct s as [|c s]; simpl in *; [lia|].
    destruct (IH s) as (pre & Hs & Hlen); [lia|].
    exists (String c pre). split; [|done].
    change (String c s = String c (pre +:+ drop_chars n s)). by rewrite <- Hs.
Qed.

(** [slice_last n s] is a suffix of [s], of length [n] when [s] has that
    many code units and all of [s] otherwise. *)
Lemma slice_last_spec n s :
  ∃ pre, s = pre +:+ slice_last n s ∧
         String.length (slice_last n s) = n `min` String.length s.
Proof.
  unfold slice_last.
  destruct (drop_chars_spec (String.length s - n) s) as (pre & Hs & Hlen); [lia|].
  exists pre. split; [done|]. lia.
Qed.

Lemma create_default_password k st rs data id name email :
  holds k st rs →
  data !! "id" = Some (VStr id) →
  data !! "name" = Some (VStr name) →
  data !! "email" = Some (VStr email) →
  id ≠ "" → name ≠ "" → email ≠ "" →
  VStr id ∉ ids rs →
  truthy (prop data "password") = false →
  ∃ r st' o,
    create k data st = (Ok r, st') ∧
    holds k st' (rs ++ [o]) ∧
    record_at (heap st') r = Some o ∧
    prop o "password" = VStr (password_prefix k +:+ slice_last 3 id).
Proof.
  intros Hrs Hid Hname Hemail Hid' Hname' Hemail' Hfresh Hfalsy.
  apply prop_lookup in Hid, Hname, Hemail.
  destruct (chosen_password_str k (heap st) data id Hid) as (pw & Hpw & _ & _ & Hdefault).
  destruct (create_ok k st data rs pw Hrs) as
    (r & st1 & o & lc & Hcreate & _ & _ & _ & _ & Hrs1 & Hr & _ & _ & _ & Hopw);
    [|by rewrite Hid|done|].
  { by apply valid_input_strings with id name email. }
  exists r, st1, o. split_and!; try done. by rewrite Hopw, Hdefault.
Qed.

(** C9: when [create] is called without a password (with non-empty string
    id, name and email and a fresh id), the record appended to the
    collection, and the copy returned, have the password "Student@"
    (students) or "Teacher@" (teachers) followed by the last 3 code units of
    the id: a suffix of the id of length 3, or the whole id when it is
    shorter. *)
Theorem create_synthesizes_password k st rs data id name email :
  holds k st rs →
  data !! "id" = Some (VStr id) →
  data !! "name" = Some (VStr name) →
  data !! "email" = Some (VStr email) →
  id ≠ "" → name ≠ "" → email ≠ "" →
  VStr id ∉ ids rs →
  data !! "password" = None →
  ∃ r st' o last3,
    create k data st = (Ok r, st') ∧
    holds k st' (rs ++ [o]) ∧
    record_at (heap st') r = Some o ∧
    prop o "password" =
      VStr (match k with Students => "Student@" | Teachers => "Teacher@" end +:+ last3) ∧
    last3 = slice_last 3 id ∧
    (∃ pre, id = pre +:+ last3) ∧
    String.length last3 = 3 `min` String.length id.
Proof.
  intros Hrs Hid Hname Hemail Hid' Hname' Hemail' Hfresh Hnone.
  destruct (create_default_password k st rs data id name email)
    as (r & st' & o & Hcreate & Hrs' & Hr & Hpw); try done.
  { unfold prop. by rewrite Hnone. }
  destruct (slice_last_spec 3 id) as (pre & Hpre & Hlen).
  exists r, st', o, (slice_last 3 id). split_and!; try done.
  by exists pre.
Qed.

(** The scenario of the spec: creating the student "1234500002" without a
    password stores "Student@002"; a teacher gets "Teacher@" and the last
    three code units of its id. *)
Lemma create_synthesizes_password_witness :
  holds Students seed_store [john] ∧
  holds Teachers seed_store [ada] ∧
  (∃ r st' o,
     createStudent jane seed_store = (Ok r, st') ∧
     holds Students st' ([john] ++ [o]) ∧
     record_at (heap st') r = Some o ∧
     prop o "password" = VStr "Student@002") ∧
  (∃ r st' o,
     createTeacher alan seed_store = (Ok r, st') ∧
     holds Teachers st' ([ada] ++ [o]) ∧
     record_at (heap st') r = Some o ∧
     prop o "password" = VStr "Teacher@002").
Proof.
  assert (holds Students seed_store [john]) as HS by reflexivity.
  assert (holds Teachers seed_store [ada]) as HT by reflexivity.
  split_and!; [done..| |].
  - destruct (create_synthesizes_password Students seed_store [john] jane
                "1234500002" "Jane Roe" "jane@x.edu" HS)
      as (r & st' & o & last3 & H1 & H2 & H3 & H4 & -> & _);
      [reflexivity..|discriminate|discriminate|discriminate| |reflexivity|].
    + intros Hin. apply list_elem_of_singleton in Hin. discriminate.
    + by exists r, st', o.
  - destruct (create_synthesizes_password Teachers seed_store [ada] alan
                "T002" "Alan Turing" "alan@x.edu" HT)
      as (r & st' & o & last3 & H1 & H2 & H3 & H4 & -> & _);
      [reflexivity..|discriminate|discriminate|discriminate| |reflexivity|].
    + intros Hin. apply list_elem_of_singleton in Hin. discriminate.
    + by exists r, st', o.
Defined.

(** C10: for every input that supplies a falsy password, the empty string
    in particular (with non-empty string id, name and email and a fresh
    id), [create] stores the synthesized default, not the supplied value. *)
Theorem create_replaces_falsy_password k st rs data id name email pw :
  holds k st rs →
  data !! "id" = Some (VStr id) →
  data !! "name" = Some (VStr name) →
  data !! "email" = Some (VStr email) →
  id ≠ "" → name ≠ "" → email ≠ "" →
  VStr id ∉ ids rs →
  data !! "password" = Some pw →
  truthy pw = false →
  ∃ r st' o,
    create k data st = (Ok r, st') ∧
    holds k st' (rs ++ [o]) ∧
    record_at (heap st') r = Some o ∧
    prop o "password" = VStr (password_prefix k +:+ slice_last 3 id) ∧
    prop o "password" ≠ pw.
Proof.
  intros Hrs Hid Hname Hemail Hid' Hname' Hemail' Hfresh Hsome Hfalsy.
  destruct (create_default_password k st rs data id name email)
    as (r & st' & o & Hcreate & Hrs' & Hr & Hpw); try done.
  { unfold prop. by rewrite Hsome. }
  exists r, st', o. split_and!; try done.
  rewrite Hpw. intros <-. discriminate Hfalsy || (revert Hfalsy; by destruct k).
Qed.

Lemma create_replaces_falsy_password_witness :
  holds Students seed_store [john] ∧
  jane_empty_password !! "password" = Some (VStr "") ∧
  ∃ r st' o,
    createStudent jane_empty_password seed_store = (Ok r, st') ∧
    holds Students st' ([john] ++ [o]) ∧
    record_at (heap st') r = Some o ∧
    prop o "password" = VStr "Student@002".
Proof.
  assert (holds Students seed_store [john]) as HS by reflexivity.
  split_and!; [done|reflexivity|].
  destruct (create_replaces_falsy_password Students seed_store [john]
              jane_empty_password "1234500002" "Jane Roe" "jane@x.edu" (VStr "") HS)
    as (r & st' & o & H1 & H2 & H3 & H4 & _);
    [reflexivity..|discriminate|discriminate|discriminate| |reflexivity|reflexivity|].
  - intros Hin. apply list_elem_of_singleton in Hin. discriminate.
  - by exists r, st', o.
Defined.

(** ** Deletion *)

Lemma delete_absent k st rs id :
  holds k st rs → id ∉ ids rs → delete_record k id st = (Ok false, st).
Proof.
  intros Hrs Hnot. apply records_inv in Hrs as (lc & a & Hc & Hlc & Ha).
  unfold delete_record. rewrite (bind_ok _ _ _ _ _ (binding_run k st)). rewrite Hc.
  unfold mbind at 1, M_bind, reading. simpl. rewrite Hlc. simpl.
  by rewrite (findIndex_absent _ _ _ _ Ha Hnot).
Qed.

Lemma delete_present k st rs id i :
  holds k st rs → first_with_id rs id i →
  ∃ st' lc,
    delete_record k id st = (Ok true, st') ∧
    coll k st = VRef lc ∧
    students st' = students st ∧ teachers st' = teachers st ∧
    preserved_but lc (heap st) (heap st') ∧
    holds k st' (delete i rs).
Proof.
  intros Hrs Hfirst. apply records_inv in Hrs as (lc & a & Hc & Hlc & Ha).
  unfold delete_record. rewrite (bind_ok _ _ _ _ _ (binding_run k st)). rewrite Hc.
  unfold mbind at 1, M_bind, reading. simpl. rewrite Hlc. simpl.
  rewrite (findIndex_first _ _ _ _ _ Ha Hfirst).
  rewrite (bind_ok _ _ _ _ _ (binding_run k st)). rewrite Hc.
  rewrite (bind_ok _ _ _ _ _ (splice1_run lc a i st Hlc)).
  set (st1 := Store _ _ _).
  assert (coll k st1 = VRef lc) as Hc1 by (by destruct k).
  rewrite (bind_ok _ _ _ _ _ (binding_run k st1)).
  rewrite (bind_ok _ _ _ _ _ (save_same k st1)).
  rewrite (bind_ok _ _ _ _ _ (flush_run k st1)).
  exists st1, lc. split; [done|]. split_and!; try done.
  - apply preserved_but_write, preserved_but_refl.
  - unfold holds. rewrite Hc1. apply records_intro with (delete i a).
    + apply lookup_insert_eq.
    + apply Forall2_delete.
      apply Forall2_record_at_preserved with lc a (heap st); [done| |done].
      apply preserved_but_write, preserved_but_refl.
Qed.

(** C8: on a collection of records, [delete] never throws; for an id that
    no record has it returns [false] and leaves the store (so the length of
    the collection) as it was; for an id that some record has it returns
    [true] and the collection is one record shorter: the first record with
    that id is gone, the others stay in order. *)
Theorem delete_reports_presence k st rs id :
  holds k st rs →
  ∃ b st' rs',
    delete_record k id st = (Ok b, st') ∧
    holds k st' rs' ∧
    (id ∉ ids rs → b = false ∧ st' = st ∧ length rs' = length rs) ∧
    (id ∈ ids rs →
       b = true ∧ S (length rs') = length rs ∧
       ∃ i, first_with_id rs id i ∧ rs' = delete i rs).
Proof.
  intros Hrs. destruct (decide (id ∈ ids rs)) as [Hin|Hnot].
  - destruct (first_with_id_exists _ _ Hin) as [i Hi].
    destruct (delete_present k st rs id i Hrs Hi) as (st' & lc & Hrun & _ & _ & _ & _ & Hrs').
    exists true, st', (delete i rs). split_and!; try done.
    intros _. split_and!; [done| |by exists i].
    pose proof (first_with_id_lt _ _ _ Hi).
    rewrite length_delete by (by apply lookup_lt_is_Some). lia.
  - exists false, st, rs. split_and!; try done.
    by apply delete_absent with rs.
Qed.

Lemma delete_reports_presence_witness :
  holds Students seed_store [john] ∧
  (∃ st' rs',
     deleteStudent (VStr "1234500001") seed_store = (Ok true, st') ∧
     holds Students st' rs' ∧ S (length rs') = 1) ∧
  deleteStudent (VStr "1234500002") seed_store = (Ok false, seed_store).
Proof.
  assert (holds Students seed_store [john]) as HS by reflexivity.
  split_and!; [done| |].
  - destruct (delete_reports_presence Students seed_store [john] (VStr "1234500001") HS)
      as (b & st' & rs' & Hrun & Hrs' & _ & Hin).
    destruct Hin as (-> & Hlen & _); [vm_compute; left|].
    by exists st', rs'.
  - destruct (delete_reports_presence Students seed_store [john] (VStr "1234500002") HS)
      as (b & st' & rs' & Hrun & Hrs' & Hnot & _).
    destruct Hnot as (-> & -> & _); [|done].
    intros Hin. apply list_elem_of_singleton in Hin. discriminate.
Defined.

(** ** Update *)

Lemma update_absent k st rs id updates :
  holds k st rs → id ∉ ids rs →
  update k id updates st = (Throw (NotFoundError id), st).
Proof.
  intros Hrs Hnot. apply records_inv in Hrs as (lc & a & Hc & Hlc & Ha).
  unfold update. rewrite (bind_ok _ _ _ _ _ (binding_run k st)). rewrite Hc.
  unfold mbind at 1, M_bind, reading. simpl. rewrite Hlc. simpl.
  by rewrite (findIndex_absent _ _ _ _ Ha Hnot).
Qed.

Lemma update_found k st rs id i old updates :
  holds k st rs → first_with_id rs id i → rs !! i = Some old →
  ∃ r st' lc,
    update k id updates st = (Ok r, st') ∧
    coll k st = VRef lc ∧
    students st' = students st ∧ teachers st' = teachers st ∧
    preserved_but lc (heap st) (heap st') ∧
    holds k st' (<[i := <["id" := id]> (updates ∪ old)]> rs) ∧
    record_at (heap st') r = Some (<["id" := id]> (updates ∪ old)) ∧
    record_at (heap st) r = None.
Proof.
  intros Hrs Hfirst Hold. apply records_inv in Hrs as (lc & a & Hc & Hlc & Ha).
  pose proof (first_with_id_lt _ _ _ Hfirst) as Hlt.
  rewrite <- (Forall2_length _ _ _ Ha) in Hlt.
  destruct (lookup_lt_is_Some_2 a i Hlt) as [v Hv].
  destruct (Forall2_lookup_l _ _ _ _ _ Ha Hv) as (old' & Hold' & Hrec).
  assert (old' = old) as -> by congruence.
  pose proof Hrec as Hrec'. apply record_at_inv in Hrec' as (lold & -> & Hlold).
  unfold update. rewrite (bind_ok _ _ _ _ _ (binding_run k st)). rewrite Hc.
  unfold mbind at 1, M_bind, reading. simpl. rewrite Hlc. simpl.
  rewrite (findIndex_first _ _ _ _ _ Ha Hfirst).
  rewrite (bind_ok _ _ _ _ _ (binding_run k st)). rewrite Hc.
  rewrite (bind_ok _ _ _ _ _ (index_get_run lc a i st Hlc)). rewrite Hv. simpl.
  unfold mbind at 1, M_bind. simpl. rewrite Hlold.
  set (new := <["id" := id]> (updates ∪ old)).
  rewrite (bind_ok _ _ _ _ _ (new_run (CObj new) st)).
  set (lo := fresh (dom (heap st))).
  set (st1 := Store _ _ _).
  assert (lo ≠ lc) as Hne.
  { intros E. rewrite <- E in Hlc. unfold lo in Hlc. by rewrite fresh_lookup in Hlc. }
  assert (coll k st1 = VRef lc) as Hc1 by (by destruct k).
  assert (heap st1 !! lc = Some (CArr a)) as Hlc1.
  { simpl. by rewrite lookup_insert_ne. }
  rewrite (bind_ok _ _ _ _ _ (binding_run k st1)). rewrite Hc1.
  rewrite (bind_ok _ _ _ _ _ (index_set_run lc a i (VRef lo) st1 Hlc1 Hlt)).
  set (st2 := Store _ _ _).
  assert (coll k st2 = VRef lc) as Hc2 by (by destruct k).
  assert (heap st2 !! lc = Some (CArr (<[i := VRef lo]> a))) as Hlc2 by apply lookup_insert_eq.
  assert (heap st2 !! lo = Some (CObj new)) as Hlo2.
  { simpl. rewrite lookup_insert_ne by done. apply lookup_insert_eq. }
  rewrite (bind_ok _ _ _ _ _ (binding_run k st2)).
  rewrite (bind_ok _ _ _ _ _ (save_same k st2)).
  rewrite (bind_ok _ _ _ _ _ (flush_run k st2)).
  rewrite (bind_ok _ _ _ _ _ (binding_run k st2)). rewrite Hc2.
  rewrite (bind_ok _ _ _ _ _ (index_get_run lc _ i st2 Hlc2)).
  rewrite list_lookup_insert_eq by done. cbn [default from_option]. unfold Datatypes.id.
  rewrite copy_of_run.
  assert (spread (heap st2) (VRef lo) = new) as -> by (unfold spread; by rewrite Hlo2).
  assert (preserved_but lc (heap st) (heap st2)) as Hp2.
  { apply preserved_but_write, preserved_but_new; eauto using preserved_but_refl. }
  set (l3 := fresh (dom (heap st2))).
  assert (preserved_but lc (heap st) (<[l3 := CObj new]> (heap st2))) as Hp3.
  { apply preserved_but_new; eauto. }
  assert (∀ l x, heap st2 !! l = Some x → <[l3 := CObj new]> (heap st2) !! l = Some x) as Hext.
  { intros l x Hl. rewrite lookup_insert_ne; [done|].
    intros E. rewrite <- E in Hl. unfold l3 in Hl. by rewrite fresh_lookup in Hl. }
  eexists _, _, lc. split; [reflexivity|]. cbn [heap students teachers].
  split_and!; try done.
  - unfold holds. replace (coll k _) with (VRef lc) by (by destruct k).
    cbn [heap]. apply records_intro with (<[i := VRef lo]> a); [by apply Hext|].
    apply Forall2_insert.
    + by apply Forall2_record_at_preserved with lc a (heap st).
    + unfold record_at. by rewrite (Hext _ _ Hlo2).
  - unfold record_at. by rewrite lookup_insert_eq.
  - unfold record_at. destruct (heap st !! l3) as [c|] eqn:E; [|done].
    assert (l3 ≠ lc) as Hne3.
    { intros E'. rewrite <- E' in Hlc2. unfold l3 in Hlc2. by rewrite fresh_lookup in Hlc2. }
    apply Hp2 in E; [|done]. unfold l3 in E. by rewrite fresh_lookup in E.
Qed.

(** C6: [update] on the id of a stored record (the first record carrying
    that id, which is every record when ids are unique) replaces it, in
    place, by a record in which every property named in the patch, other
    than [id], has the patch's value and every other property has the value
    it had; the id is the one it was, whatever the patch says. The copy
    returned is that record. *)
Theorem update_changes_patched_fields_only k st rs i old updates :
  holds k st rs →
  rs !! i = Some old →
  (∀ j o, j < i → rs !! j = Some o → prop o "id" ≠ prop old "id") →
  ∃ r st' new,
    update k (prop old "id") updates st = (Ok r, st') ∧
    holds k st' (<[i := new]> rs) ∧
    record_at (heap st') r = Some new ∧
    prop new "id" = prop old "id" ∧
    ∀ key, key ≠ "id" →
      prop new key = match updates !! key with
                     | Some v => v
                     | None => prop old key
                     end.
Proof.
  intros Hrs Hold Hfirst.
  destruct (update_found k st rs (prop old "id") i old updates Hrs) as
    (r & st' & lc & Hrun & _ & _ & _ & _ & Hrs' & Hr & _); [|done|].
  { split; [by exists old|done]. }
  eexists r, st', _. split_and!; [done..| |].
  - unfold prop at 1. by rewrite lookup_insert_eq.
  - intros key Hkey. unfold prop at 1. rewrite lookup_insert_ne by done.
    rewrite lookup_union. unfold prop.
    destruct (updates !! key), (old !! key); done.
Qed.

Lemma update_changes_patched_fields_only_witness :
  holds Students seed_store [john] ∧
  ∃ r st' new,
    updateStudent (VStr "1234500001") new_email seed_store = (Ok r, st') ∧
    holds Students st' [new] ∧
    record_at (heap st') r = Some new ∧
    prop new "id" = VStr "1234500001" ∧
    prop new "email" = VStr "john2@x.edu" ∧
    prop new "name" = VStr "John Doe" ∧
    prop new "password" = VStr "Student@001".
Proof.
  assert (holds Students seed_store [john]) as HS by reflexivity.
  split; [done|].
  destruct (update_changes_patched_fields_only Students seed_store [john] 0 john new_email HS)
    as (r & st' & new & H1 & H2 & H3 & H4 & H5); [reflexivity|intros; lia|].
  exists r, st', new. split_and!; try done.
  - by rewrite (H5 "email").
  - by rewrite (H5 "name").
  - by rewrite (H5 "password").
Defined.

(** ** Search *)

Lemma prefix_spec q s :
  String.prefix q s = true ↔ ∃ post, s = q +:+ post.
Proof.
  revert s. induction q as [|c q IH]; intros s.
  - split; [intros _; by exists s|intros _; by destruct s].
  - destruct s as [|c' s]; simpl.
    + split; [done|]. intros [post H]. discriminate H.
    + destruct (Ascii.ascii_dec c c') as [->|Hne].
      * rewrite IH. split; intros [post H]; exists post.
        -- change (String c' s = String c' (q +:+ post)). by rewrite H.
        -- change (String c' s = String c' (q +:+ post)) in H. by injection H.
      * split; [done|]. intros [post H].
        change (String c' s = String c (q +:+ post)) in H. by injection H as ->.
Qed.

Lemma includes_nil q : includes "" q = String.prefix q "".
Proof. simpl. apply orb_false_r. Qed.

Lemma includes_cons c s q :
  includes (String c s) q = String.prefix q (String c s) || includes s q.
Proof. reflexivity. Qed.

(** [includes] is the substring test. *)
Lemma includes_spec s q :
  includes s q = true ↔ ∃ pre post, s = pre +:+ q +:+ post.
Proof.
  induction s as [|c s IH].
  - rewrite includes_nil, prefix_spec. split.
    + intros [post H]. by exists "", post.
    + intros (pre & post & H). destruct pre as [|c pre]; [by exists post|].
      discriminate H.
  - rewrite includes_cons, orb_true_iff, prefix_spec, IH. split.
    + intros [[post H]|(pre & post & H)].
      * by exists "", post.
      * exists (String c pre), post.
        change (String c s = String c (pre +:+ q +:+ post)). by rewrite H.
    + intros (pre & post & H). destruct pre as [|c' pre].
      * left. by exists post.
      * right. exists pre, post.
        change (String c s = String c' (pre +:+ q +:+ post)) in H. by injection H.
Qed.

Lemma includes_empty s : includes s "" = true.
Proof. destruct s; reflexivity. Qed.

Lemma matches_record h query v o :
  record_at h v = Some o → text_fields o = true →
  matches h (toLowerCase query) v = Ok (name_or_email_includes query o).
Proof.
  intros Hv Ht. apply record_at_inv in Hv as (l & -> & Hl).
  unfold matches, getProp, name_or_email_includes, text_fields in *. rewrite Hl.
  destruct (prop o "name") as [| | | |n|]; try discriminate.
  destruct (prop o "email") as [| | | |e|]; try discriminate.
  simpl. by destruct (includes (toLowerCase n) (toLowerCase query)).
Qed.

Lemma selected_iff query o :
  text_fields o = true →
  selected query o ↔ name_or_email_includes query o = true.
Proof.
  unfold selected, name_or_email_includes, text_fields, contains_ci.
  destruct (prop o "name") as [| | | |n|]; try discriminate.
  destruct (prop o "email") as [| | | |e|]; try discriminate.
  intros _. rewrite orb_true_iff, !includes_spec. split.
  - intros (s & [Hs|Hs] & Hc); injection Hs as <-; auto.
  - intros [Hc|Hc]; [exists n|exists e]; auto.
Qed.

Lemma filterA_matches h query a rs :
  Forall2 (λ v o, record_at h v = Some o) a rs →
  forallb text_fields rs = true →
  ∃ found_a found,
    filterA (matches h (toLowerCase query)) a = Ok found_a ∧
    Forall2 (λ v o, record_at h v = Some o) found_a found ∧
    sublist found_a a ∧
    selects (selected query) rs found ∧
    (query = "" → found_a = a ∧ found = rs).
Proof.
  induction 1 as [|v o a rs Hv Ha IH]; simpl.
  - intros _. exists [], []. split_and!; try done; constructor.
  - intros Ht. apply andb_true_iff in Ht as [Ho Ht].
    destruct (IH Ht) as (found_a & found & Hf & Hrec & Hsub & Hsel & Hempty).
    rewrite (matches_record _ _ _ _ Hv Ho). simpl. rewrite Hf. simpl.
    destruct (name_or_email_includes query o) eqn:Hm.
    + exists (v :: found_a), (o :: found). split_and!; try done.
      * by constructor.
      * by constructor.
      * constructor; [|done]. by apply selected_iff.
      * intros Hq. destruct (Hempty Hq) as [-> ->]. done.
    + exists found_a, found. split_and!; try done.
      * by constructor.
      * constructor; [|done]. rewrite selected_iff by done. by rewrite Hm.
      * intros ->. exfalso. revert Hm. unfold name_or_email_includes, text_fields in *.
        destruct (prop o "name") as [| | | |n|]; try discriminate.
        destruct (prop o "email") as [| | | |e|]; try discriminate.
        simpl. by rewrite includes_empty.
Qed.

Lemma selects_elem {A} (P : A → Prop) l l' :
  selects P l l' → ∀ x, x ∈ l' ↔ x ∈ l ∧ P x.
Proof.
  induction 1 as [|x l l' HP Hs IH|x l l' HP Hs IH]; intros y.
  - split; [intros H|intros [H _]]; by apply elem_of_nil in H.
  - rewrite !elem_of_cons, IH. split.
    + intros [->|[H1 H2]]; auto.
    + intros [[->|H1] H2]; auto.
  - rewrite elem_of_cons, IH. split.
    + intros [H1 H2]; auto.
    + intros [[->|H1] H2]; [done|auto].
Qed.

Lemma search_run k st rs query :
  holds k st rs → forallb text_fields rs = true →
  ∃ lc a found_a found,
    coll k st = VRef lc ∧ heap st !! lc = Some (CArr a) ∧
    search k query st =
      (Ok (VRef (fresh (dom (heap st)))),
       Store (<[fresh (dom (heap st)) := CArr found_a]> (heap st))
             (students st) (teachers st)) ∧
    sublist found_a a ∧
    Forall2 (λ v o, record_at (heap st) v = Some o) found_a found ∧
    selects (selected query) rs found ∧
    (query = "" → found_a = a ∧ found = rs).
Proof.
  intros Hrs Ht. apply records_inv in Hrs as (lc & a & Hc & Hlc & Ha).
  destruct (filterA_matches (heap st) query a rs Ha Ht)
    as (found_a & found & Hf & Hrec & Hsub & Hsel & Hempty).
  exists lc, a, found_a, found. split_and!; try done.
  unfold search. rewrite (bind_ok _ _ _ _ _ (binding_run k st)). rewrite Hc.
  unfold mbind, M_bind, reading. simpl. rewrite Hlc. simpl. by rewrite Hf.
Qed.

(** C7: on a collection of records whose name and email are strings,
    [search] returns exactly the records whose name or email contains the
    query as a substring, ignoring case, in the order of the collection;
    the id plays no part; the empty query returns every record.  The
    collection itself is left as it was. *)
Theorem search_selects_by_name_or_email k st rs query :
  holds k st rs →
  forallb text_fields rs = true →
  ∃ r st' found,
    search k query st = (Ok r, st') ∧
    records (heap st') r = Some found ∧
    selects (selected query) rs found ∧
    (∀ o, o ∈ found ↔ o ∈ rs ∧ selected query o) ∧
    (query = "" → found = rs) ∧
    holds k st' rs.
Proof.
  intros Hrs Ht.
  destruct (search_run k st rs query Hrs Ht)
    as (lc & a & found_a & found & Hc & Hlc & Hrun & Hsub & Hrec & Hsel & Hempty).
  assert (heap st ⊆ <[fresh (dom (heap st)) := CArr found_a]> (heap st)) as Hext
    by apply insert_subseteq, fresh_lookup.
  eexists _, _, found. split; [exact Hrun|]. cbn [heap].
  split_and!; try done.
  - apply records_intro with found_a; [apply lookup_insert_eq|].
    eapply Forall2_impl; [done|]. intros v o. by apply record_at_weaken.
  - by apply selects_elem.
  - intros Hq. by destruct (Hempty Hq).
  - unfold holds. replace (coll k _) with (coll k st) by (by destruct k).
    by apply records_weaken with (heap st).
Qed.

Lemma search_selects_by_name_or_email_witness :
  holds Students seed_store [john] ∧
  forallb text_fields [john] = true ∧
  (∃ r st',
     searchStudents "JOHN" seed_store = (Ok r, st') ∧
     records (heap st') r = Some [john]) ∧
  (∃ r st',
     searchStudents "1234500001" seed_store = (Ok r, st') ∧
     records (heap st') r = Some []) ∧
  holds Students jose_store [jose_record] ∧
  (∃ r st',
     searchStudents jose jose_store = (Ok r, st') ∧
     records (heap st') r = Some [jose_record]).
Proof.
  assert (holds Students seed_store [john]) as HS by reflexivity.
  assert (forallb text_fields [john] = true) as HT by reflexivity.
  assert (holds Students jose_store [jose_record]) as HS' by reflexivity.
  assert (forallb text_fields [jose_record] = true) as HT' by reflexivity.
  split_and!; [done..| | |done|].
  3: { destruct (search_selects_by_name_or_email Students jose_store [jose_record] jose
                   HS' HT') as (r & st' & found & Hrun & Hrec & Hsel & _).
       exists r, st'. split; [done|].
       inversion Hsel as [|x l l' HP Hs|x l l' HP Hs]; subst.
       - inversion Hs; by subst.
       - destruct HP. by apply selected_iff. }
  - destruct (search_selects_by_name_or_email Students seed_store [john] "JOHN" HS HT)
      as (r & st' & found & Hrun & Hrec & Hsel & _).
    exists r, st'. split; [done|].
    inversion Hsel as [|x l l' HP Hs|x l l' HP Hs]; subst.
    + inversion Hs; by subst.
    + destruct HP. by apply selected_iff.
  - destruct (search_selects_by_name_or_email Students seed_store [john] "1234500001" HS HT)
      as (r & st' & found & Hrun & Hrec & Hsel & _).
    exists r, st'. split; [done|].
    inversion Hsel as [|x l l' HP Hs|x l l' HP Hs]; subst.
    + apply selected_iff in HP; [|done]. discriminate HP.
    + inversion Hs; by subst.
Defined.

(** ** JSON data in the heap *)

Lemma depth_arr_cons j js :
  depth (JArr (j :: js)) = S (depth j `max` pred (depth (JArr js))).
Proof. reflexivity. Qed.

Lemma depth_elem js j : j ∈ js → depth j < depth (JArr js).
Proof.
  induction js as [|j' js IH]; intros Hin.
  - by apply elem_of_nil in Hin.
  - rewrite depth_arr_cons. apply elem_of_cons in Hin as [->|Hin]; [lia|].
    apply IH in Hin. lia.
Qed.

Lemma depth_obj m :
  depth (JObj m) = S (foldr (λ kj n, depth kj.2 `max` n) 0 (map_to_list m)).
Proof.
  simpl. f_equal. rewrite map_fold_foldr.
  induction (map_to_list m) as [|[k j] l IH]; simpl; congruence.
Qed.

Lemma depth_member m k j : m !! k = Some j → depth j < depth (JObj m).
Proof.
  intros Hk. rewrite depth_obj. apply elem_of_map_to_list in Hk.
  induction (map_to_list m) as [|kj l IH]; [by apply elem_of_nil in Hk|].
  simpl. apply elem_of_cons in Hk as [<-|Hk]; [simpl; lia|].
  apply IH in Hk. lia.
Qed.

(** A non-empty array or object has an element as deep as itself, less
    one. *)
Lemma depth_arr_max js :
  depth (JArr js) = 1 ∨ ∃ j, j ∈ js ∧ depth (JArr js) = S (depth j).
Proof.
  induction js as [|j js IH]; [by left|].
  rewrite depth_arr_cons.
  destruct (decide (depth j `max` pred (depth (JArr js)) = 0)) as [->|Hne]; [by left|].
  right. destruct (decide (pred (depth (JArr js)) ≤ depth j)) as [Hle|Hgt].
  - exists j. split; [left|lia].
  - destruct IH as [H1|(j' & Hin & Hd)]; [lia|].
    exists j'. split; [by right|lia].
Qed.

Lemma depth_obj_max m :
  depth (JObj m) = 1 ∨ ∃ k j, m !! k = Some j ∧ depth (JObj m) = S (depth j).
Proof.
  rewrite depth_obj.
  assert (∀ kj, kj ∈ map_to_list m → m !! kj.1 = Some kj.2) as Hin.
  { intros [k j]. apply elem_of_map_to_list. }
  induction (map_to_list m) as [|kj l IH]; [by left|].
  simpl. set (d := foldr _ 0 l) in *.
  destruct IH as [H1|(k & j & Hk & Hd)].
  { intros kj' Hkj'. apply Hin. by right. }
  - destruct (decide (depth kj.2 = 0)) as [E|Hne].
    + left. rewrite E. lia.
    + right. exists kj.1, kj.2. split; [apply Hin; left|lia].
  - right. destruct (decide (d ≤ depth kj.2)) as [Hle|Hgt].
    + exists kj.1, kj.2. split; [apply Hin; left|lia].
    + exists k, j. split; [done|lia].
Qed.

Lemma field_rel_impl (R R' : value → json → Prop) ov oj :
  (∀ v j, ov = Some v → oj = Some j → R v j → R' v j) →
  field_rel R ov oj → field_rel R' ov oj.
Proof. intros HR H. destruct H as [| |v j Hvj]; constructor. by apply (HR v j). Qed.

Lemma denotes_weaken h h' v j :
  h ⊆ h' → denotes h v j → denotes h' v j.
Proof.
  intros Hsub. remember (depth j) as n eqn:Hn.
  revert v j Hn. induction n as [n IH] using lt_wf_ind. intros v j -> Hd.
  inversion Hd as [| | | |l a js Hl Ha|l o m Hl Ho]; subst; try constructor.
  - apply denotes_arr with a; [by apply (lookup_weaken _ _ _ _ Hl Hsub)|].
    apply Forall2_same_length_lookup. split; [by eapply Forall2_length|].
    intros i x y Hx Hy. apply (IH (depth y)); [|done|].
    + apply depth_elem. by eapply list_elem_of_lookup_2.
    + by eapply Forall2_lookup_lr.
  - apply denotes_obj with o; [by apply (lookup_weaken _ _ _ _ Hl Hsub)|].
    intros k. eapply field_rel_impl; [|apply Ho].
    intros x y _ Hy. apply (IH (depth y)); [|done]. by eapply depth_member.
Qed.

Lemma field_rel_Some_inv (R : value → json → Prop) v oj :
  field_rel R (Some v) oj → (v = VUndef ∧ oj = None) ∨ ∃ j, oj = Some j ∧ R v j.
Proof. inversion 1; subst; eauto. Qed.

Lemma field_rel_None_inv (R : value → json → Prop) oj :
  field_rel R None oj → oj = None.
Proof. by inversion 1. Qed.

Lemma denotes_undef h j : ¬ denotes h VUndef j.
Proof. inversion 1. Qed.

(** A value is at most one JSON datum. *)
Lemma denotes_inj h v j1 j2 :
  denotes h v j1 → denotes h v j2 → j1 = j2.
Proof.
  remember (depth j1) as n eqn:Hn.
  revert v j1 j2 Hn. induction n as [n IH] using lt_wf_ind. intros v j1 j2 -> H1 H2.
  inversion H1 as [| | | |l a js Hl Ha|l o m Hl Ho]; subst;
    inversion H2 as [| | | |l' a' js' Hl' Ha'|l' o' m' Hl' Ho']; subst;
    try done; try congruence.
  - assert (a' = a) as -> by congruence. f_equal.
    apply list_eq_same_length with (length js).
    + rewrite <- (Forall2_length _ _ _ Ha). by apply Forall2_length in Ha'.
    + done.
    + intros i x y Hi Hx Hy.
      destruct (Forall2_lookup_r _ _ _ _ _ Ha Hx) as (w & Hw & Hwx).
      assert (denotes h w y) as Hwy by (by eapply Forall2_lookup_lr).
      apply (IH (depth x)) with w; [|done..].
      apply depth_elem. by eapply list_elem_of_lookup_2.
  - assert (o' = o) as -> by congruence. f_equal.
    apply map_eq. intros k. specialize (Ho k). specialize (Ho' k).
    destruct (o !! k) as [w|].
    + apply field_rel_Some_inv in Ho as [[-> E]|(x & E & Hx)];
        apply field_rel_Some_inv in Ho' as [[E0 E']|(x' & E' & Hx')];
        rewrite E, E'; try done.
      * by apply denotes_undef in Hx'.
      * subst w. by apply denotes_undef in Hx.
      * f_equal. apply (IH (depth x)) with w; [|done..]. by eapply depth_member.
    + apply field_rel_None_inv in Ho, Ho'. congruence.
Qed.

(** *** Serialization *)

Lemma stringify_prim fuel h v :
  (∀ l, v ≠ VRef l) →
  stringify fuel h v =
    Ok match v with
       | VUndef | VRef _ => None
       | VNull => Some JNull
       | VBool b => Some (JBool b)
       | VNum n => Some (JNum n)
       | VStr s => Some (JStr s)
       end.
Proof. intros Hv. destruct fuel, v; try done; by destruct (Hv l). Qed.

Lemma stringify_ref fuel h l :
  stringify (S fuel) h (VRef l) =
    match h !! l with
    | Some (CArr a) =>
        js ← mapR (λ x, j ← stringify fuel h x; Ok (default JNull (j : option json))) a;
        Ok (Some (JArr js))
    | Some (CObj o) =>
        if decide (map_Forall (λ _ r, is_ok r = true) (stringify fuel h <$> o))
        then Ok (Some (JObj (omap member (stringify fuel h <$> o))))
        else Throw TypeError
    | None => Ok None
    end.
Proof. reflexivity. Qed.

Lemma mapR_stringify fuel h a js :
  Forall2 (λ v j, stringify fuel h v = Ok (Some j)) a js →
  mapR (λ x, j ← stringify fuel h x; Ok (default JNull (j : option json))) a = Ok js.
Proof.
  induction 1 as [|v j a js Hv Ha IH]; [done|].
  simpl. rewrite Hv. simpl. by rewrite IH.
Qed.

(** Serializing a value that is the JSON datum [j] gives [j], when the
    fuel covers the depth of [j]. *)
Lemma stringify_denotes fuel h v j :
  denotes h v j → depth j ≤ fuel → stringify fuel h v = Ok (Some j).
Proof.
  revert v j. induction fuel as [|fuel IH]; intros v j Hd Hfuel.
  - inversion Hd; subst; try done; simpl in Hfuel; lia.
  - inversion Hd as [| | | |l a js Hl Ha|l o m Hl Ho]; subst; try done.
    + rewrite stringify_ref, Hl.
      rewrite (mapR_stringify fuel h a js); [done|].
      apply Forall2_same_length_lookup. split; [by eapply Forall2_length|].
      intros i x y Hx Hy. apply IH; [by eapply Forall2_lookup_lr|].
      assert (depth y < depth (JArr js)); [|lia].
      apply depth_elem. by eapply list_elem_of_lookup_2.
    + rewrite stringify_ref, Hl.
      assert (∀ k, (stringify fuel h <$> o) !! k = (λ v, Ok (m !! k)) <$> o !! k) as Hmem.
      { intros k. rewrite lookup_fmap. specialize (Ho k).
        destruct (o !! k) as [w|]; [|done]. simpl. f_equal.
        apply field_rel_Some_inv in Ho as [[-> ->]|(x & Hmk & Hx)].
        - by rewrite stringify_prim.
        - rewrite Hmk. apply IH; [done|].
          assert (depth x < depth (JObj m)); [|lia]. by eapply depth_member. }
      rewrite decide_True.
      * do 3 f_equal. apply map_eq. intros k. rewrite lookup_omap, Hmem.
        specialize (Ho k). destruct (o !! k) as [w|]; simpl; [done|].
        by apply field_rel_None_inv in Ho.
      * intros k r Hk. rewrite Hmem in Hk. by destruct (o !! k); simplify_eq/=.
Qed.

(** A JSON datum in the heap is no deeper than the heap has cells. *)
Lemma denotes_chain h n v j :
  denotes h v j → depth j = n →
  ∃ ls : list loc,
    length ls = n ∧ NoDup ls ∧
    ∀ l, l ∈ ls → ∃ j', denotes h (VRef l) j' ∧ depth j' ≤ n.
Proof.
  revert v j. induction n as [|n IH]; intros v j Hd Hn.
  { exists []. split_and!; [done|constructor|]. intros l Hl. by apply elem_of_nil in Hl. }
  assert (∃ l, v = VRef l) as [l ->] by (inversion Hd; subst; try done; eauto).
  assert (n = 0 ∨ ∃ v' j', denotes h v' j' ∧ depth j' = n) as [->|(v' & j' & Hd' & Hn')].
  { inversion Hd as [| | | |l0 a js Hl Ha|l0 o m Hl Ho]; subst.
    - destruct (depth_arr_max js) as [H1|(j' & Hin & Hj')]; [left; lia|].
      right. apply list_elem_of_lookup in Hin as [i Hi].
      destruct (Forall2_lookup_r _ _ _ _ _ Ha Hi) as (v' & _ & Hv').
      exists v', j'. split; [done|lia].
    - destruct (depth_obj_max m) as [H1|(k & j' & Hk & Hj')]; [left; lia|].
      right. specialize (Ho k). rewrite Hk in Ho.
      inversion Ho as [| |v' j'' Hv']; subst.
      exists v', j'. split; [done|lia]. }
  - exists [l]. split_and!; [done|apply NoDup_singleton|].
    intros l' Hl'. apply list_elem_of_singleton in Hl' as ->. exists j. split; [done|lia].
  - destruct (IH v' j' Hd' Hn') as (ls & Hlen & Hnd & Hls).
    exists (l :: ls). split_and!.
    + simpl. by rewrite Hlen.
    + constructor; [|done]. intros Hin. destruct (Hls l Hin) as (j'' & Hd'' & Hle).
      rewrite (denotes_inj _ _ _ _ Hd'' Hd) in Hle. lia.
    + intros l' Hl'. apply elem_of_cons in Hl' as [->|Hl'].
      * exists j. split; [done|lia].
      * destruct (Hls l' Hl') as (j'' & Hd'' & Hle). exists j''. split; [done|lia].
Qed.

Lemma denotes_depth_le h v j : denotes h v j → depth j ≤ size h.
Proof.
  intros Hd. destruct (denotes_chain h (depth j) v j Hd eq_refl) as (ls & <- & Hnd & Hls).
  rewrite <- (size_list_to_set (C := gset loc) ls Hnd), <- size_dom.
  apply subseteq_size. intros l Hl. apply elem_of_list_to_set in Hl.
  destruct (Hls l Hl) as (j' & Hd' & _). apply elem_of_dom.
  inversion Hd'; subst; eauto.
Qed.

(** [JSON.stringify] succeeds on a value that is JSON data. *)
Lemma stringify_heap_denotes h v j :
  denotes h v j → stringify (size h) h v = Ok (Some j).
Proof. intros Hd. apply stringify_denotes; [done|]. by apply denotes_depth_le with v. Qed.

(** *** Parsing *)

Lemma parse_arr js : parse (JArr js) = (vs ← mapA parse js; new (CArr vs)).
Proof. reflexivity. Qed.

Lemma parse_obj m :
  parse (JObj m) =
    (o ← foldr (λ kj (acc : M (gmap string value)),
                  o ← acc; v ← parse kj.2; mret (<[kj.1 := v]> o))
               (mret ∅) (map_to_list m);
     new (CObj o)).
Proof.
  change (parse (JObj m)) with
    (o ← map_fold (λ k j' (acc : M (gmap string value)),
                      o ← acc; v ← parse j'; mret (<[k := v]> o))
                   (mret ∅) m;
      new (CObj o)).
  rewrite map_fold_foldr. f_equal.
  induction (map_to_list m) as [|[k j] l IH]; simpl; [done|]. by rewrite IH.
Qed.

Lemma new_denotes_arr st vs js :
  Forall2 (denotes (heap st)) vs js →
  ∃ v st', new (CArr vs) st = (Ok v, st') ∧ extends st st' ∧ denotes (heap st') v (JArr js).
Proof.
  intros Hvs. eexists _, _. split; [reflexivity|]. split; [apply extends_new|].
  simpl. apply denotes_arr with vs; [apply lookup_insert_eq|].
  eapply Forall2_impl; [done|]. intros v j. apply denotes_weaken.
  apply insert_subseteq, fresh_lookup.
Qed.

Lemma new_denotes_obj st o (m : gmap string json) :
  (∀ k, field_rel (denotes (heap st)) (o !! k) (m !! k)) →
  ∃ v st', new (CObj o) st = (Ok v, st') ∧ extends st st' ∧ denotes (heap st') v (JObj m).
Proof.
  intros Ho. eexists _, _. split; [reflexivity|]. split; [apply extends_new|].
  simpl. apply denotes_obj with o; [apply lookup_insert_eq|].
  intros k. eapply field_rel_impl; [|apply Ho]. intros v j _ _. apply denotes_weaken.
  apply insert_subseteq, fresh_lookup.
Qed.

(** [JSON.parse] never fails; it only adds cells, and the value it builds
    is the datum parsed. *)
Lemma parse_denotes j st :
  ∃ v st', parse j st = (Ok v, st') ∧ extends st st' ∧ denotes (heap st') v j.
Proof.
  remember (depth j) as n eqn:Hn.
  revert j st Hn. induction n as [n IH] using lt_wf_ind. intros j st ->.
  destruct j as [|b|z|s|js|m].
  - exists VNull, st. split_and!; [done|apply extends_refl|constructor].
  - exists (VBool b), st. split_and!; [done|apply extends_refl|constructor].
  - exists (VNum z), st. split_and!; [done|apply extends_refl|constructor].
  - exists (VStr s), st. split_and!; [done|apply extends_refl|constructor].
  - assert (∀ st, ∃ vs st', mapA parse js st = (Ok vs, st') ∧ extends st st' ∧
                            Forall2 (denotes (heap st')) vs js) as Hjs.
    { assert (∀ j, j ∈ js → depth j < depth (JArr js)) as Hdepth by apply depth_elem.
      revert Hdepth. generalize (depth (JArr js)) IH. clear. intros n IH.
      induction js as [|j js IHjs]; intros Hdepth st0.
      - exists [], st0. split_and!; [done|apply extends_refl|constructor].
      - destruct (IH (depth j)) with j st0 as (v & st1 & Hp & He & Hd);
          [apply Hdepth; left|done|].
        destruct (IHjs (λ j' Hj', Hdepth j' (list_elem_of_further _ _ _ Hj')) st1)
          as (vs & st2 & Hps & Hes & Hds).
        exists (v :: vs), st2. split_and!.
        + simpl. unfold mbind, M_bind. rewrite Hp. fold (mapA parse js). by rewrite Hps.
        + by apply extends_trans with st1.
        + constructor; [|done]. apply denotes_weaken with (heap st1); [apply Hes|done]. }
    destruct (Hjs st) as (vs & st1 & Hps & Hes & Hds).
    destruct (new_denotes_arr st1 vs js Hds) as (v & st2 & Hnew & He2 & Hd2).
    exists v, st2. split_and!; [|by apply extends_trans with st1|done].
    rewrite parse_arr. by rewrite (bind_ok _ _ _ _ _ Hps).
  - rewrite parse_obj.
    assert (∀ st, ∃ o st',
              foldr (λ kj (acc : M (gmap string value)),
                       o ← acc; v ← parse kj.2; mret (<[kj.1 := v]> o))
                    (mret ∅) (map_to_list m) st = (Ok o, st') ∧
              extends st st' ∧
              ∀ k, field_rel (denotes (heap st')) (o !! k)
                     ((list_to_map (map_to_list m) : gmap string json) !! k)) as Hm.
    { assert (∀ kj, kj ∈ map_to_list m → depth kj.2 < depth (JObj m)) as Hdepth.
      { intros [k j] Hkj. apply elem_of_map_to_list in Hkj. by eapply depth_member. }
      revert Hdepth. generalize (depth (JObj m)) IH (map_to_list m). clear.
      intros n IH l. induction l as [|[k0 j0] l IHl]; intros Hdepth st0.
      - exists ∅, st0. split_and!; [done|apply extends_refl|].
        intros k. simpl. rewrite !lookup_empty. constructor.
      - destruct (IHl (λ kj Hkj, Hdepth kj (list_elem_of_further _ _ _ Hkj)) st0)
          as (o & st1 & Hfold & He1 & Ho).
        destruct (IH (depth j0)) with j0 st1 as (v & st2 & Hp & He2 & Hd);
          [apply (Hdepth (k0, j0)); left|done|].
        exists (<[k0 := v]> o), st2. split_and!.
        + simpl. unfold mbind at 1, M_bind at 1. rewrite Hfold.
          unfold mbind, M_bind. by rewrite Hp.
        + by apply extends_trans with st1.
        + intros k. simpl. destruct (decide (k0 = k)) as [->|Hne].
          * rewrite !lookup_insert_eq. by constructor.
          * rewrite !lookup_insert_ne by done.
            eapply field_rel_impl; [|apply Ho]. intros w x _ _.
            apply denotes_weaken, He2. }
    destruct (Hm st) as (o & st1 & Hfold & He1 & Ho).
    rewrite list_to_map_to_list in Ho.
    destruct (new_denotes_obj st1 o m Ho) as (v & st2 & Hnew & He2 & Hd2).
    exists v, st2. split_and!; [|by apply extends_trans with st1|done].
    by rewrite (bind_ok _ _ _ _ _ Hfold).
Qed.

(** ** Export and import *)

Lemma json_clone_denotes v j st :
  denotes (heap st) v j →
  ∃ v' st', json_clone v st = (Ok v', st') ∧ extends st st' ∧ denotes (heap st') v' j.
Proof.
  intros Hd. unfold json_clone, mbind, M_bind, reading. simpl.
  rewrite (stringify_heap_denotes _ _ _ Hd). apply parse_denotes.
Qed.

Lemma denotes_arr_isArray h v js : denotes h v (JArr js) → truthy v && isArray h v = true.
Proof. inversion 1 as [| | | |l a js' Hl Ha|]; subst. simpl. by rewrite Hl. Qed.

(** C3: for every state whose two collections are JSON data (arrays of
    records, without cycles and without [undefined] array elements; a
    property that holds [undefined] counts as an absent one),
    [exportData] succeeds, and [importData] of what it returned succeeds and
    leaves both collections with the contents they had: the same records,
    with the same property values, in the same order. *)
Theorem export_import_round_trip st now sj tj :
  denotes (heap st) (students st) (JArr sj) →
  denotes (heap st) (teachers st) (JArr tj) →
  ∃ data st1 st2,
    exportData now st = (Ok data, st1) ∧
    importData data st1 = (Ok (), st2) ∧
    denotes (heap st2) (students st2) (JArr sj) ∧
    denotes (heap st2) (teachers st2) (JArr tj).
Proof.
  intros Hs Ht.
  destruct (json_clone_denotes _ _ st Hs) as (sc & st1 & Hsc & (Hh1 & Hs1 & Ht1) & Hds).
  assert (denotes (heap st1) (teachers st1) (JArr tj)) as Ht'.
  { rewrite Ht1. by apply denotes_weaken with (heap st). }
  destruct (json_clone_denotes _ _ st1 Ht') as (tc & st2 & Htc & (Hh2 & Hs2 & Ht2) & Hdt).
  assert (denotes (heap st2) sc (JArr sj)) as Hds2 by (by apply denotes_weaken with (heap st1)).
  eexists _, st2, (Store (heap st2) sc tc). split_and!.
  - unfold exportData.
    rewrite (bind_ok _ _ _ _ _ (binding_run Students st)).
    rewrite (bind_ok _ _ _ _ _ Hsc).
    rewrite (bind_ok _ _ _ _ _ (binding_run Teachers st1)).
    rewrite (bind_ok _ _ _ _ _ Htc). reflexivity.
  - unfold importData, try_catch, mbind, M_bind, reading. simpl.
    unfold prop. rewrite lookup_insert_eq. simpl.
    rewrite lookup_insert_ne by done. rewrite lookup_insert_eq. simpl.
    rewrite (denotes_arr_isArray _ _ _ Hds2). simpl.
    by rewrite (denotes_arr_isArray _ _ _ Hdt).
  - done.
  - done.
Qed.

Lemma field_rel_empty (R : value → json → Prop) k :
  field_rel R ((∅ : gmap string value) !! k) ((∅ : gmap string json) !! k).
Proof. rewrite !lookup_empty. constructor. Qed.

Lemma field_rel_insert (R : value → json → Prop) k0 v j
    (o : gmap string value) (m : gmap string json) :
  R v j →
  (∀ k, field_rel R (o !! k) (m !! k)) →
  ∀ k, field_rel R (<[k0 := v]> o !! k) (<[k0 := j]> m !! k).
Proof.
  intros Hvj Hom k. destruct (decide (k0 = k)) as [->|Hne].
  - rewrite !lookup_insert_eq. by constructor.
  - by rewrite !lookup_insert_ne.
Qed.

Lemma seed_store_students :
  denotes (heap seed_store) (students seed_store) (JArr [john_json]).
Proof.
  eapply denotes_arr; [reflexivity|]. constructor; [|constructor].
  eapply denotes_obj; [reflexivity|].
  unfold john. repeat (apply field_rel_insert; [constructor|]). apply field_rel_empty.
Qed.

Lemma seed_store_teachers :
  denotes (heap seed_store) (teachers seed_store) (JArr [ada_json]).
Proof.
  eapply denotes_arr; [reflexivity|]. constructor; [|constructor].
  eapply denotes_obj; [reflexivity|].
  unfold ada. repeat (apply field_rel_insert; [constructor|]).
  apply field_rel_insert; [|apply field_rel_empty].
  eapply denotes_arr; [reflexivity|]. repeat constructor.
Qed.

Lemma export_import_round_trip_witness :
  denotes (heap seed_store) (students seed_store) (JArr [john_json]) ∧
  denotes (heap seed_store) (teachers seed_store) (JArr [ada_json]) ∧
  ∃ data st1 st2,
    exportData "2026-01-01T00:00:00.000Z" seed_store = (Ok data, st1) ∧
    importData data st1 = (Ok (), st2) ∧
    denotes (heap st2) (students st2) (JArr [john_json]) ∧
    denotes (heap st2) (teachers st2) (JArr [ada_json]).
Proof.
  split_and!; [apply seed_store_students|apply seed_store_teachers|].
  exact (export_import_round_trip seed_store "2026-01-01T00:00:00.000Z"
           [john_json] [ada_json] seed_store_students seed_store_teachers).
Defined.

(** ** Uniqueness of ids *)

Lemma unique_ids_inv h c :
  unique_ids h c → ∃ rs, records h c = Some rs ∧ NoDup (ids rs).
Proof. unfold unique_ids. destruct (records h c) as [rs|]; [eauto|done]. Qed.

Lemma unique_ids_intro h c rs :
  records h c = Some rs → NoDup (ids rs) → unique_ids h c.
Proof. unfold unique_ids. by intros ->. Qed.

Lemma unique_ids_weaken h h' c : h ⊆ h' → unique_ids h c → unique_ids h' c.
Proof.
  intros Hsub (rs & Hrs & Hnd)%unique_ids_inv.
  apply unique_ids_intro with rs; [|done]. by apply records_weaken with h.
Qed.

Lemma ids_unique_extends st st' : extends st st' → ids_unique st → ids_unique st'.
Proof.
  intros (Hh & Hs & Ht) [HS HT]. split; [rewrite Hs|rewrite Ht];
    by apply unique_ids_weaken with (heap st).
Qed.

Lemma ids_unique_coll k st : ids_unique st → unique_ids (heap st) (coll k st).
Proof. intros [HS HT]. by destruct k. Qed.

(** A change of one collection that rewrites its array cell only, and
    leaves it with unique ids, keeps the ids of both collections unique. *)
Lemma mutation_preserves k st st' lc rs' :
  ids_unique st →
  coll k st = VRef lc →
  students st' = students st → teachers st' = teachers st →
  preserved_but lc (heap st) (heap st') →
  holds k st' rs' → NoDup (ids rs') →
  ids_unique st'.
Proof.
  intros Hinv Hc Hs Ht Hp Hrs' Hnd.
  assert (∃ a, heap st !! lc = Some (CArr a)) as [a Hlc].
  { pose proof (ids_unique_coll k st Hinv) as (rs & Hrs & _)%unique_ids_inv.
    apply records_inv in Hrs as (l & a & E & Hl & _). rewrite Hc in E.
    injection E as <-. eauto. }
  assert (coll k st' = VRef lc) as Hc' by (destruct k; simpl in *; congruence).
  assert (∀ c, unique_ids (heap st) c → unique_ids (heap st') c) as Hall.
  { intros c Hu. destruct (decide (c = VRef lc)) as [->|Hne].
    - rewrite <- Hc'. by apply unique_ids_intro with rs'.
    - apply unique_ids_inv in Hu as (rs & Hrs & Hnd').
      apply unique_ids_intro with rs; [|done].
      by apply records_preserved with lc a (heap st). }
  destruct Hinv as [HS HT]. split; [rewrite Hs|rewrite Ht]; by apply Hall.
Qed.

Lemma ids_app rs o : ids (rs ++ [o]) = ids rs ++ [prop o "id"].
Proof. unfold ids. by rewrite fmap_app. Qed.

Lemma create_preserves k data st : ids_unique st → ids_unique (create k data st).2.
Proof.
  intros Hinv.
  pose proof (ids_unique_coll k st Hinv) as (rs & Hrs & Hnd)%unique_ids_inv.
  destruct (valid_input data) eqn:Hvalid;
    [|by rewrite (create_invalid k st data Hvalid)].
  destruct (decide (prop data "id" ∈ ids rs)) as [Hin|Hnot];
    [by rewrite (create_duplicate k st data rs Hrs Hvalid Hin)|].
  destruct (chosen_password k (heap st) data) as [pw|e] eqn:Hpw;
    [|by rewrite (create_bad_password k st data rs e Hrs Hvalid Hnot Hpw)].
  destruct (create_ok k st data rs pw Hrs Hvalid Hnot Hpw)
    as (r & st' & o & lc & Hrun & Hc & Hs & Ht & Hp & Hrs' & _ & Hid & _).
  rewrite Hrun. simpl. apply mutation_preserves with k st lc (rs ++ [o]); try done.
  rewrite ids_app. apply NoDup_app. split_and!; [done| |apply NoDup_singleton].
  intros x Hx Hx'. apply list_elem_of_singleton in Hx' as ->. by rewrite Hid in Hx.
Qed.

Lemma ids_insert_same rs i old new :
  rs !! i = Some old → prop new "id" = prop old "id" →
  ids (<[i := new]> rs) = ids rs.
Proof.
  intros Hi Hid. unfold ids. rewrite list_fmap_insert, Hid.
  apply list_insert_id. by rewrite list_lookup_fmap, Hi.
Qed.

Lemma update_preserves k id updates st : ids_unique st → ids_unique (update k id updates st).2.
Proof.
  intros Hinv.
  pose proof (ids_unique_coll k st Hinv) as (rs & Hrs & Hnd)%unique_ids_inv.
  destruct (decide (id ∈ ids rs)) as [Hin|Hnot];
    [|by rewrite (update_absent k st rs id updates Hrs Hnot)].
  destruct (first_with_id_exists _ _ Hin) as [i Hfirst].
  pose proof Hfirst as [(old & Hold & Hid) _].
  destruct (update_found k st rs id i old updates Hrs Hfirst Hold)
    as (r & st' & lc & Hrun & Hc & Hs & Ht & Hp & Hrs' & _).
  rewrite Hrun. simpl. eapply mutation_preserves with (k := k) (st := st); try done.
  rewrite (ids_insert_same rs i old); [done..|].
  unfold prop at 1. by rewrite lookup_insert_eq.
Qed.

Lemma delete_preserves k id st : ids_unique st → ids_unique (delete_record k id st).2.
Proof.
  intros Hinv.
  pose proof (ids_unique_coll k st Hinv) as (rs & Hrs & Hnd)%unique_ids_inv.
  destruct (decide (id ∈ ids rs)) as [Hin|Hnot];
    [|by rewrite (delete_absent k st rs id Hrs Hnot)].
  destruct (first_with_id_exists _ _ Hin) as [i Hfirst].
  destruct (delete_present k st rs id i Hrs Hfirst)
    as (st' & lc & Hrun & Hc & Hs & Ht & Hp & Hrs').
  rewrite Hrun. simpl. eapply mutation_preserves with (k := k) (st := st); try done.
  unfold ids. rewrite list_fmap_delete.
  eapply sublist_NoDup; [done|apply sublist_delete].
Qed.

(** *** Operations that only allocate *)

Lemma grows_ret {A} (a : A) : grows (mret a).
Proof. intros st. apply extends_refl. Qed.

Lemma grows_throw {A} e : grows (@throw A e).
Proof. intros st. apply extends_refl. Qed.

Lemma grows_reading {A} (f : gmap loc cell → result A) : grows (reading f).
Proof. intros st. apply extends_refl. Qed.

Lemma grows_binding k : grows (binding k).
Proof. intros st. rewrite binding_run. apply extends_refl. Qed.

Lemma grows_new c : grows (new c).
Proof. intros st. apply extends_new. Qed.

Lemma grows_bind {A B} (m : M A) (f : A → M B) :
  grows m → (∀ a, grows (f a)) → grows (m ≫= f).
Proof.
  intros Hm Hf st. unfold mbind, M_bind. specialize (Hm st).
  destruct (m st) as [[a|e] st1]; [|done].
  apply extends_trans with st1; [done|apply Hf].
Qed.

Lemma grows_if {A} (b : bool) (m1 m2 : M A) :
  grows m1 → grows m2 → grows (if b then m1 else m2).
Proof. by destruct b. Qed.

Lemma grows_mapA {A B} (f : A → M B) a : (∀ x, grows (f x)) → grows (mapA f a).
Proof.
  intros Hf. induction a as [|x a IH]; [apply grows_ret|].
  apply grows_bind; [apply Hf|]. intros y.
  apply grows_bind; [apply IH|]. intros r. apply grows_ret.
Qed.

Lemma grows_parse j : grows (parse j).
Proof. intros st. by destruct (parse_denotes j st) as (v & st' & -> & He & _). Qed.

Create HintDb grows.
#[local] Hint Resolve grows_ret grows_throw grows_reading grows_binding grows_new
  grows_bind grows_if grows_mapA grows_parse : grows.

Lemma grows_copy_of v : grows (copy_of v).
Proof. unfold copy_of. eauto with grows. Qed.

Lemma grows_json_clone v : grows (json_clone v).
Proof.
  apply grows_bind; [apply grows_reading|].
  intros [j|]; eauto with grows.
Qed.

#[local] Hint Resolve grows_copy_of grows_json_clone : grows.

Lemma grows_getAll k : grows (getAll k).
Proof. unfold getAll. eauto 10 with grows. Qed.

Lemma grows_getById k id : grows (getById k id).
Proof. unfold getById. eauto 10 with grows. Qed.

Lemma grows_search k query : grows (search k query).
Proof. unfold search. eauto 10 with grows. Qed.

Lemma grows_exportData now : grows (exportData now).
Proof. unfold exportData. eauto 10 with grows. Qed.

(** *** Import and reset *)

Lemma importData_run data st :
  importData data st =
    (Ok (),
     Store (heap st)
       (if truthy (prop data "students") && isArray (heap st) (prop data "students")
        then prop data "students" else students st)
       (if truthy (prop data "teachers") && isArray (heap st) (prop data "teachers")
        then prop data "teachers" else teachers st)).
Proof.
  unfold importData, try_catch, mbind, M_bind, reading. simpl.
  destruct st as [h s t]. simpl.
  destruct (truthy (prop data "students") && isArray h (prop data "students")); simpl;
    destruct (truthy (prop data "teachers") && isArray h (prop data "teachers")); done.
Qed.

Lemma importData_preserves data st :
  payload_unique (heap st) data "students" →
  payload_unique (heap st) data "teachers" →
  ids_unique st → ids_unique (importData data st).2.
Proof.
  intros HpS HpT [HS HT]. rewrite importData_run. unfold payload_unique in *. simpl.
  split; simpl.
  - destruct (truthy (prop data "students") && isArray _ _); [by apply HpS|done].
  - destruct (truthy (prop data "teachers") && isArray _ _); [by apply HpT|done].
Qed.

(** Seed data with unique ids, once in the heap, is a collection with
    unique ids. *)
Lemma denotes_seed_record h v j s :
  denotes h v j → seed_id j = Some s →
  ∃ o, record_at h v = Some o ∧ prop o "id" = VStr s.
Proof.
  intros Hd Hs. destruct j as [| | | | |m]; try discriminate. simpl in Hs.
  destruct (m !! "id") as [[| | |s'| |]|] eqn:Hid; try discriminate.
  injection Hs as ->.
  inversion Hd as [| | | | |l o m' Hl Ho]; subst.
  exists o. split; [simpl; by rewrite Hl|].
  specialize (Ho "id"). rewrite Hid in Ho.
  inversion Ho as [| |w x Hw Ew Ex]; subst. inversion Hw; subst.
  unfold prop. by rewrite <- Ew.
Qed.

Lemma denotes_seed_unique h v seed :
  denotes h v seed → seed_unique seed → unique_ids h v.
Proof.
  intros Hd Hu. destruct seed as [| | | |js|]; try done. simpl in Hu.
  destruct (mapM seed_id js) as [names|] eqn:Hnames; [|done].
  apply mapM_Some in Hnames.
  inversion Hd as [| | | |l a js' Hl Ha|]; subst.
  assert (∃ rs, Forall2 (λ v o, record_at h v = Some o) a rs ∧ ids rs = VStr <$> names)
    as (rs & Hrs & Hids).
  { clear Hl Hd Hu. revert names Hnames.
    induction Ha as [|w j a js Hw Ha IH]; intros names Hnames.
    - apply Forall2_nil_inv_l in Hnames as ->. by exists [].
    - apply Forall2_cons_inv_l in Hnames as (s & names' & Hs & Hnames' & ->).
      destruct (IH names' Hnames') as (rs & Hrs & Hids).
      destruct (denotes_seed_record h w j s Hw Hs) as (o & Ho & Hid).
      exists (o :: rs). split; [by constructor|]. simpl. by rewrite Hid, Hids. }
  apply unique_ids_intro with rs; [by apply records_intro with a|].
  rewrite Hids. apply NoDup_fmap; [|done]. by intros s1 s2 [= ->].
Qed.

Lemma reset_run k seed st :
  ∃ c st1,
    parse seed st = (Ok c, st1) ∧ extends st st1 ∧ denotes (heap st1) c seed ∧
    reset k seed st = save k c st1.
Proof.
  destruct (parse_denotes seed st) as (c & st1 & Hp & He & Hd).
  exists c, st1. split_and!; try done.
  unfold reset. by rewrite (bind_ok _ _ _ _ _ Hp).
Qed.

Section sessions.
Context (defaultStudents defaultTeachers : json).
Hypothesis students_seed : seed_unique defaultStudents.
Hypothesis teachers_seed : seed_unique defaultTeachers.

Lemma resetAllData_preserves st :
  ids_unique (resetAllData defaultStudents defaultTeachers st).2.
Proof.
  unfold resetAllData, mbind, M_bind.
  destruct (reset_run Students defaultStudents st) as (c & st1 & _ & _ & Hd & Hrun).
  rewrite Hrun. simpl.
  set (st2 := Store (heap st1) c (teachers st1)).
  destruct (reset_run Teachers defaultTeachers st2)
    as (c' & st3 & _ & (Hh & Hs & Ht) & Hd' & Hrun').
  rewrite Hrun'. simpl. split; simpl.
  - rewrite Hs. simpl. apply unique_ids_weaken with (heap st1); [done|].
    by apply denotes_seed_unique with defaultStudents.
  - by apply denotes_seed_unique with defaultTeachers.
Qed.

Lemma step_preserves o st :
  imports_unique defaultStudents defaultTeachers [o] st →
  ids_unique st → ids_unique (step defaultStudents defaultTeachers o st).
Proof.
  intros [Himp _] Hinv. destruct o; simpl.
  - apply ids_unique_extends with st; [apply grows_getAll|done].
  - apply ids_unique_extends with st; [apply grows_getById|done].
  - by apply create_preserves.
  - by apply update_preserves.
  - by apply delete_preserves.
  - apply ids_unique_extends with st; [apply grows_search|done].
  - apply ids_unique_extends with st; [apply grows_exportData|done].
  - destruct Himp. by apply importData_preserves.
  - by apply resetAllData_preserves.
Qed.

(** C2, as the code has it: starting from a state in which the ids of each
    collection are pairwise distinct, every sequence of façade operations
    (list, getById, create, update, delete, search, export, import, reset)
    in which every imported list has pairwise-distinct ids leads to a state
    in which the ids of each collection are pairwise distinct; the seed
    data that reset installs is assumed to have pairwise-distinct ids. *)
Theorem ids_stay_unique ops st :
  ids_unique st →
  imports_unique defaultStudents defaultTeachers ops st →
  ids_unique (run defaultStudents defaultTeachers ops st).
Proof.
  revert st. induction ops as [|o ops IH]; intros st Hinv Himp; [done|].
  destruct Himp as [Ho Hops]. simpl. apply IH; [|done].
  by apply step_preserves.
Qed.

End sessions.

Lemma ids_stay_unique_witness :
  seed_unique (JArr [john_json]) ∧
  seed_unique (JArr [ada_json]) ∧
  ids_unique import_store ∧
  imports_unique (JArr [john_json]) (JArr [ada_json]) session import_store ∧
  ids_unique (run (JArr [john_json]) (JArr [ada_json]) session import_store).
Proof.
  assert (seed_unique (JArr [john_json])) as H1
    by (apply (bool_decide_unpack _); vm_compute; exact I).
  assert (seed_unique (JArr [ada_json])) as H2
    by (apply (bool_decide_unpack _); vm_compute; exact I).
  assert (ids_unique import_store) as H3
    by (apply (bool_decide_unpack _); vm_compute; exact I).
  assert (imports_unique (JArr [john_json]) (JArr [ada_json]) session import_store) as H4
    by (apply (bool_decide_unpack _); vm_compute; exact I).
  split_and!; [done..|].
  exact (ids_stay_unique _ _ H1 H2 session import_store H3 H4).
Defined.

(** C2 as stated fails: importing a list with two records of the same id
    installs it as it is. *)
Lemma import_breaks_id_uniqueness :
  ids_unique import_store ∧
  ¬ ids_unique (run JNull JNull [OpImport duplicate_payload] import_store).
Proof.
  split.
  - apply (bool_decide_unpack _). vm_compute. exact I.
  - apply (bool_decide_eq_false_1 _). vm_compute. reflexivity.
Qed.

(** ** Sharing between the store and what the reads return *)

(** What [getStudents] and [getStudentById] (and the teacher variants)
    return is made of cells that were not in the heap before the call, so
    no write to them reaches the stored collections. *)
Lemma mapA_copy_of_run a rs st :
  Forall2 (λ v o, record_at (heap st) v = Some o) a rs →
  ∃ copies st',
    mapA copy_of a st = (Ok copies, st') ∧ extends st st' ∧
    Forall2 (λ c o, ∃ l, c = VRef l ∧ heap st !! l = None ∧
                         heap st' !! l = Some (CObj o)) copies rs.
Proof.
  revert rs st. induction a as [|v a IH]; intros rs st Ha.
  - apply Forall2_nil_inv_l in Ha as ->. exists [], st.
    split_and!; [done|apply extends_refl|constructor].
  - apply Forall2_cons_inv_l in Ha as (o & rs' & Hv & Ha & ->).
    pose proof (extends_new (CObj o) st) as He1.
    set (st1 := (new (CObj o) st).2) in *.
    destruct (IH rs' st1) as (copies & st2 & Hrun & He2 & Hcopies).
    { eapply Forall2_impl; [done|]. intros w r. apply record_at_weaken, He1. }
    exists (VRef (fresh (dom (heap st))) :: copies), st2. split_and!.
    + simpl. unfold mbind at 1, M_bind at 1. rewrite copy_of_run.
      apply record_at_inv in Hv as (l & -> & Hl). simpl spread. rewrite Hl.
      fold (mapA copy_of a). unfold mbind, M_bind.
      change (Store _ _ _) with st1. by rewrite Hrun.
    + by apply extends_trans with st1.
    + constructor.
      * exists (fresh (dom (heap st))). split_and!; [done|apply fresh_lookup|].
        eapply lookup_weaken; [|apply He2]. apply lookup_insert_eq.
      * eapply Forall2_impl; [done|]. intros c r (l & -> & Hl & Hl').
        exists l. split_and!; [done| |done].
        destruct (heap st !! l) as [x|] eqn:E; [|done].
        eapply lookup_weaken in E; [|apply He1]. congruence.
Qed.

Lemma getAll_returns_copies k st rs :
  holds k st rs →
  ∃ l copies st',
    getAll k st = (Ok (VRef l), st') ∧ extends st st' ∧
    heap st !! l = None ∧ heap st' !! l = Some (CArr copies) ∧
    Forall2 (λ c o, ∃ l', c = VRef l' ∧ heap st !! l' = None ∧
                          heap st' !! l' = Some (CObj o)) copies rs.
Proof.
  intros Hrs. apply records_inv in Hrs as (lc & a & Hc & Hlc & Ha).
  destruct (mapA_copy_of_run a rs st Ha) as (copies & st1 & Hrun & He1 & Hcopies).
  pose proof (extends_new (CArr copies) st1) as He2.
  exists (fresh (dom (heap st1))), copies, (new (CArr copies) st1).2. split_and!.
  - unfold getAll. rewrite (bind_ok _ _ _ _ _ (binding_run k st)). rewrite Hc.
    unfold mbind at 1, M_bind at 1, reading. simpl elements_of. rewrite Hlc.
    by rewrite (bind_ok _ _ _ _ _ Hrun).
  - by apply extends_trans with st1.
  - destruct (heap st !! fresh (dom (heap st1))) as [x|] eqn:E; [|done].
    eapply lookup_weaken in E; [|apply He1]. by rewrite fresh_lookup in E.
  - apply lookup_insert_eq.
  - eapply Forall2_impl; [done|]. intros c r (l & -> & Hl & Hl').
    exists l. split_and!; [done..|]. eapply lookup_weaken; [done|apply He2].
Qed.

Lemma write_fresh_keeps k st st' rs l c :
  extends st st' → heap st !! l = None →
  holds k st rs → holds k (write l c st').2 rs.
Proof.
  intros (Hh & Hs & Ht) Hl Hrs. unfold holds.
  replace (coll k (write l c st').2) with (coll k st) by (destruct k; simpl; congruence).
  apply records_weaken with (heap st); [|done]. simpl.
  by apply insert_subseteq_r.
Qed.

(** No write to the list [getStudents] (or [getTeachers]) returns, or to a
    record in it, changes the contents of a collection. *)
Lemma getAll_result_independent k k' st rs rs' :
  holds k st rs → holds k' st rs' →
  ∃ l copies st',
    getAll k st = (Ok (VRef l), st') ∧
    heap st' !! l = Some (CArr copies) ∧
    (∀ c, holds k' (write l c st').2 rs') ∧
    Forall (λ v, ∃ l', v = VRef l' ∧ ∀ c, holds k' (write l' c st').2 rs') copies.
Proof.
  intros Hrs Hrs'.
  destruct (getAll_returns_copies k st rs Hrs)
    as (l & copies & st' & Hrun & He & Hl & Hl' & Hcopies).
  exists l, copies, st'. split_and!; [done..| |].
  - intros c. by apply write_fresh_keeps with st.
  - apply Forall_forall. intros v Hv.
    apply list_elem_of_lookup in Hv as [i Hi].
    destruct (Forall2_lookup_l _ _ _ _ _ Hcopies Hi) as (o & _ & l' & -> & Hfresh & _).
    exists l'. split; [done|]. intros c. by apply write_fresh_keeps with st.
Qed.

(** No write to the record [getStudentById] (or [getTeacherById]) returns
    changes the contents of a collection. *)
Lemma getById_result_independent k k' st rs rs' id i o :
  holds k st rs → holds k' st rs' →
  first_with_id rs id i → rs !! i = Some o →
  ∃ l st',
    getById k id st = (Ok (VRef l), st') ∧
    heap st' !! l = Some (CObj o) ∧
    ∀ c, holds k' (write l c st').2 rs'.
Proof.
  intros Hrs Hrs' Hfirst Hi.
  destruct (getById_found k st rs id i o Hrs Hfirst Hi)
    as (g & st' & Hrun & Hg & He & l & -> & Hfresh).
  exists l, st'. split_and!; [done| |].
  - by apply record_at_inv in Hg as (l' & [= <-] & Hl').
  - intros c. by apply write_fresh_keeps with st.
Qed.

(** The list [searchStudents] (or [searchTeachers]) returns is a new
    array, and its elements are elements of the stored array. *)
Lemma search_result_shared k st rs query :
  holds k st rs → forallb text_fields rs = true →
  ∃ l found lc a st',
    search k query st = (Ok (VRef l), st') ∧
    heap st !! l = None ∧
    heap st' !! l = Some (CArr found) ∧
    coll k st = VRef lc ∧ heap st' !! lc = Some (CArr a) ∧
    sublist found a.
Proof.
  intros Hrs Ht.
  destruct (search_run k st rs query Hrs Ht)
    as (lc & a & found_a & found & Hc & Hlc & Hrun & Hsub & _).
  eexists _, found_a, lc, a, _. split; [exact Hrun|]. simpl.
  split_and!; [apply fresh_lookup|apply lookup_insert_eq|done| |done].
  rewrite lookup_insert_ne; [done|].
  intros E. rewrite <- E in Hlc. by rewrite fresh_lookup in Hlc.
Qed.

(** C1 at a failing input: the list [searchStudents] returns holds the
    stored record itself, so a caller that renames its first element
    renames the stored student; the same caller leaves the store alone
    when the list comes from [getStudents] or the record from
    [getStudentById]. *)
Theorem search_returns_stored_records :
  holds Students seed_store [john] ∧
  holds Students (rename_first (searchStudents "john") "Mallory" seed_store).2
    [<["name" := VStr "Mallory"]> john] ∧
  holds Students (rename_first getStudents "Mallory" seed_store).2 [john] ∧
  holds Students (rename (getStudentById (VStr "1234500001")) "Mallory" seed_store).2 [john].
Proof. split_and!; vm_compute; reflexivity. Qed.

(** * Further properties of the façade *)

(** ** Failures that leave the store alone *)

(** X1: [create] with a missing or empty (falsy) id, name or email throws
    the ValidationError and leaves the store as it was, whatever the store
    holds. *)
Theorem create_rejects_missing_fields k st data :
  truthy (prop data "id") = false ∨ truthy (prop data "name") = false
  ∨ truthy (prop data "email") = false →
  create k data st = (Throw ValidationError, st).
Proof.
  intros H. apply create_invalid. unfold valid_input.
  destruct H as [-> | [-> | ->]]; [done| |]; by rewrite ?andb_false_r.
Qed.

Lemma create_rejects_missing_fields_witness :
  (truthy (prop no_email "id") = false ∨ truthy (prop no_email "name") = false
   ∨ truthy (prop no_email "email") = false) ∧
  createStudent no_email seed_store = (Throw ValidationError, seed_store) ∧
  createTeacher no_email seed_store = (Throw ValidationError, seed_store).
Proof.
  assert (truthy (prop no_email "id") = false ∨ truthy (prop no_email "name") = false
          ∨ truthy (prop no_email "email") = false) as H by (right; right; reflexivity).
  split_and!; [done| |].
  - exact (create_rejects_missing_fields Students seed_store no_email H).
  - exact (create_rejects_missing_fields Teachers seed_store no_email H).
Defined.



(** X3: on a collection of records [getById] never throws, and it returns
    [null] exactly when no record has the id; it then leaves the store as it
    was. *)
Theorem getById_null_iff_unknown k st rs id :
  holds k st rs →
  ∃ g st',
    getById k id st = (Ok g, st') ∧
    (g = VNull ↔ id ∉ ids rs) ∧
    (id ∉ ids rs → st' = st).
Proof.
  intros Hrs. destruct (decide (id ∈ ids rs)) as [Hin|Hnot].
  - destruct (first_with_id_exists _ _ Hin) as [i Hi].
    pose proof Hi as [(o & Ho & _) _].
    destruct (getById_found k st rs id i o Hrs Hi Ho) as (g & st' & Hrun & _ & _ & l & -> & _).
    exists (VRef l), st'. split_and!; [done| |done].
    split; [discriminate|done].
  - exists VNull, st. split_and!; [by apply getById_absent with rs|done|done].
Qed.

Lemma getById_null_iff_unknown_witness :
  holds Students seed_store [john] ∧
  getStudentById unknown_id seed_store = (Ok VNull, seed_store).
Proof.
  assert (holds Students seed_store [john]) as H1 by reflexivity.
  split; [done|].
  destruct (getById_null_iff_unknown Students seed_store [john] unknown_id H1)
    as (g & st' & Hrun & Hnull & Hsame).
  assert (unknown_id ∉ ids [john]) as H2.
  { intros Hin. apply list_elem_of_singleton in Hin. discriminate. }
  unfold getStudentById. rewrite Hrun. f_equal; [f_equal; by apply Hnull|by apply Hsame].
Defined.

(** X4: [getStudents] / [getTeachers] return a new list with the contents
    of the collection, record by record in the same order, and leave the
    contents of both collections as they were. *)
Theorem getAll_lists_every_record k st rs :
  holds k st rs →
  ∃ l st',
    getAll k st = (Ok (VRef l), st') ∧
    records (heap st') (VRef l) = Some rs ∧
    ∀ k' rs', holds k' st rs' → holds k' st' rs'.
Proof.
  intros Hrs.
  destruct (getAll_returns_copies k st rs Hrs)
    as (l & copies & st' & Hrun & He & Hl & Hl' & Hcopies).
  exists l, st'. split_and!; [done| |].
  - apply records_intro with copies; [done|].
    eapply Forall2_impl; [done|]. intros c o (l' & -> & _ & Ho). simpl. by rewrite Ho.
  - intros k' rs' Hrs'. destruct He as (Hh & Hs & Ht). unfold holds.
    replace (coll k' st') with (coll k' st) by (destruct k'; simpl; congruence).
    by apply records_weaken with (heap st).
Qed.

Lemma getAll_lists_every_record_witness :
  holds Teachers seed_store [ada] ∧
  ∃ l st',
    getTeachers seed_store = (Ok (VRef l), st') ∧
    records (heap st') (VRef l) = Some [ada] ∧
    holds Students st' [john].
Proof.
  assert (holds Teachers seed_store [ada]) as H1 by reflexivity.
  split; [done|].
  destruct (getAll_lists_every_record Teachers seed_store [ada] H1)
    as (l & st' & Hrun & Hrec & Hkeep).
  exists l, st'. split_and!; [done..|]. by apply (Hkeep Students).
Defined.

(** ** What the reads hand out *)

(** X5: the list that [getStudents] / [getTeachers] return and the records
    in it are new cells: whatever a caller writes into the list or into one
    of its records, the contents of the collections stay as they were. *)
Theorem getAll_result_is_private k k' st rs rs' :
  holds k st rs → holds k' st rs' →
  ∃ l copies st',
    getAll k st = (Ok (VRef l), st') ∧
    heap st' !! l = Some (CArr copies) ∧
    (∀ c, holds k' (write l c st').2 rs') ∧
    Forall (λ v, ∃ l', v = VRef l' ∧ ∀ c, holds k' (write l' c st').2 rs') copies.
Proof. apply getAll_result_independent. Qed.

Lemma getAll_result_is_private_witness :
  holds Students seed_store [john] ∧
  ∃ l copies st',
    getStudents seed_store = (Ok (VRef l), st') ∧
    heap st' !! l = Some (CArr copies) ∧
    (∀ c, holds Students (write l c st').2 [john]) ∧
    Forall (λ v, ∃ l', v = VRef l' ∧ ∀ c, holds Students (write l' c st').2 [john]) copies.
Proof.
  assert (holds Students seed_store [john]) as H1 by reflexivity.
  split; [done|].
  exact (getAll_result_is_private Students Students seed_store [john] [john] H1 H1).
Defined.

(** X6: the record that [getStudentById] / [getTeacherById] return is a new
    cell holding the properties of the first record with that id: whatever
    a caller writes into it, the contents of the collections stay as they
    were. *)
Theorem getById_result_is_private k k' st rs rs' id i o :
  holds k st rs → holds k' st rs' →
  first_with_id rs id i → rs !! i = Some o →
  ∃ l st',
    getById k id st = (Ok (VRef l), st') ∧
    heap st' !! l = Some (CObj o) ∧
    ∀ c, holds k' (write l c st').2 rs'.
Proof. apply getById_result_independent. Qed.

Lemma getById_result_is_private_witness :
  holds Teachers seed_store [ada] ∧
  first_with_id [ada] (VStr "T001") 0 ∧
  ∃ l st',
    getTeacherById (VStr "T001") seed_store = (Ok (VRef l), st') ∧
    heap st' !! l = Some (CObj ada) ∧
    ∀ c, holds Teachers (write l c st').2 [ada].
Proof.
  assert (holds Teachers seed_store [ada]) as H1 by reflexivity.
  assert (first_with_id [ada] (VStr "T001") 0) as H2.
  { split; [by exists ada|]. intros j o Hj. lia. }
  split_and!; [done..|].
  exact (getById_result_is_private Teachers Teachers seed_store [ada] [ada]
           (VStr "T001") 0 ada H1 H1 H2 eq_refl).
Defined.

(** ** How the operations compose *)

Lemma delete_last rs (o : gmap string value) : delete (length rs) (rs ++ [o]) = rs.
Proof. induction rs as [|r rs IH]; [done|]. simpl. by rewrite IH. Qed.

(** X7: creating a record (non-empty string id, name and email, a fresh
    id) and then deleting that id gives back the collection as it was: the
    same records in the same order. *)
Theorem create_then_delete_restores k st rs data id name email :
  holds k st rs →
  data !! "id" = Some (VStr id) →
  data !! "name" = Some (VStr name) →
  data !! "email" = Some (VStr email) →
  id ≠ "" → name ≠ "" → email ≠ "" →
  VStr id ∉ ids rs →
  ∃ r st1 st2,
    create k data st = (Ok r, st1) ∧
    delete_record k (VStr id) st1 = (Ok true, st2) ∧
    holds k st2 rs.
Proof.
  intros Hrs Hid Hname Hemail Hid' Hname' Hemail' Hfresh.
  apply prop_lookup in Hid, Hname, Hemail.
  destruct (chosen_password_str k (heap st) data id Hid) as (pw & Hpw & _).
  destruct (create_ok k st data rs pw Hrs) as
    (r & st1 & o & lc & Hcreate & _ & _ & _ & _ & Hrs1 & _ & Hoid & _);
    [by apply valid_input_strings with id name email|by rewrite Hid|done|].
  rewrite Hid in Hoid.
  destruct (delete_present k st1 (rs ++ [o]) (VStr id) (length rs) Hrs1)
    as (st2 & lc' & Hdel & _ & _ & _ & _ & Hrs2).
  { rewrite <- Hoid. apply first_with_id_last. by rewrite Hoid. }
  rewrite delete_last in Hrs2. by exists r, st1, st2.
Qed.

Lemma create_then_delete_restores_witness :
  holds Students seed_store [john] ∧
  ∃ r st1 st2,
    createStudent jane seed_store = (Ok r, st1) ∧
    deleteStudent (VStr "1234500002") st1 = (Ok true, st2) ∧
    holds Students st2 [john].
Proof.
  assert (holds Students seed_store [john]) as H by reflexivity.
  split; [exact H|].
  refine (create_then_delete_restores Students seed_store [john] jane
            "1234500002" "Jane Roe" "jane@x.edu" H eq_refl eq_refl eq_refl _ _ _ _);
    try discriminate.
  intros Hin. apply list_elem_of_singleton in Hin. discriminate.
Defined.

Lemma first_with_id_unique rs id i :
  NoDup (ids rs) → first_with_id rs id i → id ∉ ids (delete i rs).
Proof.
  intros Hnd [(o & Hi & Hid) _] Hin.
  unfold ids in Hin. rewrite list_fmap_delete in Hin.
  apply list_elem_of_lookup in Hin as [j Hj].
  assert (ids rs !! i = Some id) as Hi' by (unfold ids; by rewrite list_lookup_fmap, Hi; simpl; f_equal).
  destruct (decide (j < i)) as [Hlt|Hge].
  - rewrite list_lookup_delete_lt in Hj by done.
    pose proof (NoDup_lookup _ _ _ _ Hnd Hj Hi'). lia.
  - rewrite list_lookup_delete_ge in Hj by lia.
    pose proof (NoDup_lookup _ _ _ _ Hnd Hj Hi'). lia.
Qed.

(** X8: when the ids of a collection are pairwise distinct, deleting an
    id that a record has makes the id unknown: a following [getById]
    returns [null] and a second [delete] returns [false]. *)
Theorem delete_makes_id_unknown k st rs id :
  holds k st rs → NoDup (ids rs) → id ∈ ids rs →
  ∃ st',
    delete_record k id st = (Ok true, st') ∧
    getById k id st' = (Ok VNull, st') ∧
    delete_record k id st' = (Ok false, st').
Proof.
  intros Hrs Hnd Hin. destruct (first_with_id_exists _ _ Hin) as [i Hi].
  destruct (delete_present k st rs id i Hrs Hi) as (st' & lc & Hdel & _ & _ & _ & _ & Hrs').
  pose proof (first_with_id_unique rs id i Hnd Hi) as Hnot.
  exists st'. split_and!; [done| |].
  - by apply getById_absent with (delete i rs).
  - by apply delete_absent with (delete i rs).
Qed.

Lemma delete_makes_id_unknown_witness :
  holds Students seed_store [john] ∧ NoDup (ids [john]) ∧
  (VStr "1234500001" ∈ ids [john]) ∧
  ∃ st',
    deleteStudent (VStr "1234500001") seed_store = (Ok true, st') ∧
    getStudentById (VStr "1234500001") st' = (Ok VNull, st') ∧
    deleteStudent (VStr "1234500001") st' = (Ok false, st').
Proof.
  assert (holds Students seed_store [john]) as H1 by reflexivity.
  assert (NoDup (ids [john])) as H2 by (apply (bool_decide_unpack _); vm_compute; exact I).
  assert (VStr "1234500001" ∈ ids [john]) as H3 by (vm_compute; left).
  split_and!; [done..|].
  exact (delete_makes_id_unknown Students seed_store [john] (VStr "1234500001") H1 H2 H3).
Defined.

(** X9: after [update] on the id of a stored record, [getById] with that
    id returns the merged record: the patch over the old properties, with
    the id kept. *)
Theorem update_then_getById k st rs i old updates :
  holds k st rs →
  rs !! i = Some old →
  (∀ j o, j < i → rs !! j = Some o → prop o "id" ≠ prop old "id") →
  ∃ r st1 g st2,
    update k (prop old "id") updates st = (Ok r, st1) ∧
    getById k (prop old "id") st1 = (Ok g, st2) ∧
    record_at (heap st2) g = Some (<["id" := prop old "id"]> (updates ∪ old)).
Proof.
  intros Hrs Hold Hfirst.
  assert (first_with_id rs (prop old "id") i) as Hi by (split; [by exists old|done]).
  destruct (update_found k st rs (prop old "id") i old updates Hrs Hi Hold) as
    (r & st1 & lc & Hrun & _ & _ & _ & _ & Hrs1 & _).
  set (new := <["id" := prop old "id"]> (updates ∪ old)) in *.
  assert (i < length rs) as Hlt by (by eapply lookup_lt_Some).
  destruct (getById_found k st1 (<[i := new]> rs) (prop old "id") i new Hrs1)
    as (g & st2 & Hget & Hg & _).
  - split.
    + exists new. split; [by apply list_lookup_insert_eq|].
      unfold new, prop at 1. by rewrite lookup_insert_eq.
    + intros j o Hj Ho. rewrite list_lookup_insert_ne in Ho by lia. by apply (Hfirst j).
  - by apply list_lookup_insert_eq.
  - by exists r, st1, g, st2.
Qed.

Lemma update_then_getById_witness :
  holds Students seed_store [john] ∧
  ∃ r st1 g st2 o,
    updateStudent (VStr "1234500001") new_email seed_store = (Ok r, st1) ∧
    getStudentById (VStr "1234500001") st1 = (Ok g, st2) ∧
    record_at (heap st2) g = Some o ∧
    prop o "email" = VStr "john2@x.edu" ∧ prop o "id" = VStr "1234500001".
Proof.
  assert (holds Students seed_store [john]) as H by reflexivity.
  split; [exact H|].
  destruct (update_then_getById Students seed_store [john] 0 john new_email H)
    as (r & st1 & g & st2 & H1 & H2 & H3); [reflexivity|intros; lia|].
  by exists r, st1, g, st2, (<["id" := prop john "id"]> (new_email ∪ john)).
Defined.

(** ** Edge cases *)

Lemma matches_nameless h q v o :
  record_at h v = Some o → (∀ s, prop o "name" ≠ VStr s) →
  matches h q v = Throw TypeError.
Proof.
  intros Hv Hname. apply record_at_inv in Hv as (l & -> & Hl).
  unfold matches, getProp. rewrite Hl. simpl.
  destruct (prop o "name") as [| | | |s|]; try done. by destruct (Hname s).
Qed.

Lemma matches_record_throws h q v o e :
  record_at h v = Some o → matches h q v = Throw e → e = TypeError.
Proof.
  intros Hv. apply record_at_inv in Hv as (l & -> & Hl).
  unfold matches, getProp. rewrite Hl. simpl.
  destruct (prop o "name") as [| | | |s|]; simpl; try (by intros [= <-]).
  destruct (includes (toLowerCase s) q); [done|].
  destruct (prop o "email") as [| | | |s'|]; simpl; by intros [= <-].
Qed.

Lemma filterA_matches_nameless h q a rs o :
  Forall2 (λ v r, record_at h v = Some r) a rs →
  o ∈ rs → (∀ s, prop o "name" ≠ VStr s) →
  filterA (matches h q) a = Throw TypeError.
Proof.
  induction 1 as [|v r a rs Hv Ha IH]; intros Hin Hname.
  - by apply elem_of_nil in Hin.
  - simpl. destruct (matches h q v) as [b|e] eqn:Hm.
    + apply elem_of_cons in Hin as [->|Hin].
      * by rewrite (matches_nameless _ _ _ _ Hv Hname) in Hm.
      * simpl. by rewrite (IH Hin Hname).
    + simpl. by rewrite (matches_record_throws _ _ _ _ _ Hv Hm).
Qed.

(** X10: when some record of the collection has a name that is not a
    string (a record imported without one, or updated with [name:
    undefined]), [search] throws a TypeError for every query, and leaves the
    store as it was. *)
Theorem search_throws_on_nameless_record k st rs query o :
  holds k st rs → o ∈ rs → (∀ s, prop o "name" ≠ VStr s) →
  search k query st = (Throw TypeError, st).
Proof.
  intros Hrs Hin Hname. apply records_inv in Hrs as (lc & a & Hc & Hlc & Ha).
  unfold search. rewrite (bind_ok _ _ _ _ _ (binding_run k st)). rewrite Hc.
  unfold mbind, M_bind, reading. simpl. rewrite Hlc. simpl.
  by rewrite (filterA_matches_nameless _ _ _ _ _ Ha Hin Hname).
Qed.

Lemma search_throws_on_nameless_record_witness :
  holds Students nameless_store [nameless_john] ∧
  (nameless_john ∈ [nameless_john]) ∧
  (∀ s, prop nameless_john "name" ≠ VStr s) ∧
  searchStudents "john" nameless_store = (Throw TypeError, nameless_store).
Proof.
  assert (holds Students nameless_store [nameless_john]) as H1 by reflexivity.
  assert (nameless_john ∈ [nameless_john]) as H2 by left.
  assert (∀ s, prop nameless_john "name" ≠ VStr s) as H3 by (intros s; discriminate).
  split_and!; [done..|].
  exact (search_throws_on_nameless_record Students nameless_store [nameless_john]
           "john" nameless_john H1 H2 H3).
Defined.

Lemma string_app_assoc (s t u : string) : (s +:+ t) +:+ u = s +:+ (t +:+ u).
Proof.
  induction s as [|c s IH]; [done|].
  change (String c ((s +:+ t) +:+ u) = String c (s +:+ (t +:+ u))). by rewrite IH.
Qed.

Lemma contains_ci_trans s q q' : contains_ci s q → contains_ci q q' → contains_ci s q'.
Proof.
  intros (pre & post & Hs) (pre' & post' & Hq).
  exists (pre +:+ pre'), (post' +:+ post).
  rewrite Hs, Hq. by rewrite !string_app_assoc.
Qed.

Lemma selects_sublist {A} (P Q : A → Prop) l l1 l2 :
  (∀ x, P x → Q x) → selects P l l1 → selects Q l l2 → sublist l1 l2.
Proof.
  intros HPQ H1. revert l2.
  induction H1 as [|x l l1 HP H1 IH|x l l1 HP H1 IH]; intros l2 H2.
  - inversion H2. constructor.
  - inversion H2 as [|y l' l2' HQ H2'|y l' l2' HQ H2']; subst.
    + constructor. by apply IH.
    + destruct HQ. by apply HPQ.
  - inversion H2 as [|y l' l2' HQ H2'|y l' l2' HQ H2']; subst.
    + constructor. by apply IH.
    + by apply IH.
Qed.

(** X11: a shorter query finds more: when the query [q] contains the query
    [q'] (ignoring case), every record that [search] returns for [q] is
    among those it returns for [q'], in the same order. *)
Theorem search_narrower_query_finds_less k st rs q q' :
  holds k st rs →
  forallb text_fields rs = true →
  contains_ci q q' →
  ∃ r st1 found r' st1' found',
    search k q st = (Ok r, st1) ∧ records (heap st1) r = Some found ∧
    search k q' st = (Ok r', st1') ∧ records (heap st1') r' = Some found' ∧
    sublist found found'.
Proof.
  intros Hrs Ht Hq.
  destruct (search_run k st rs q Hrs Ht)
    as (lc & a & fa & found & _ & _ & Hrun & _ & Hrec & Hsel & _).
  destruct (search_run k st rs q' Hrs Ht)
    as (lc' & a' & fa' & found' & _ & _ & Hrun' & _ & Hrec' & Hsel' & _).
  assert (heap st ⊆ <[fresh (dom (heap st)) := CArr fa]> (heap st)) as Hext
    by apply insert_subseteq, fresh_lookup.
  assert (heap st ⊆ <[fresh (dom (heap st)) := CArr fa']> (heap st)) as Hext'
    by apply insert_subseteq, fresh_lookup.
  eexists _, _, found, _, _, found'. split; [exact Hrun|]. split_and!.
  - apply records_intro with fa; [apply lookup_insert_eq|].
    eapply Forall2_impl; [done|]. intros v o. by apply record_at_weaken.
  - exact Hrun'.
  - apply records_intro with fa'; [apply lookup_insert_eq|].
    eapply Forall2_impl; [done|]. intros v o. by apply record_at_weaken.
  - eapply selects_sublist; [|done..].
    intros o (s & Hs & Hc). exists s. split; [done|]. by apply contains_ci_trans with q.
Qed.

Lemma search_narrower_query_finds_less_witness :
  holds Students jose_store [jose_record] ∧
  forallb text_fields [jose_record] = true ∧
  contains_ci JOSE SE ∧
  ∃ r st1 found r' st1' found',
    searchStudents JOSE jose_store = (Ok r, st1) ∧
    records (heap st1) r = Some found ∧
    searchStudents SE jose_store = (Ok r', st1') ∧
    records (heap st1') r' = Some found' ∧
    sublist found found'.
Proof.
  assert (holds Students jose_store [jose_record]) as H1 by reflexivity.
  assert (forallb text_fields [jose_record] = true) as H2 by reflexivity.
  assert (contains_ci JOSE SE) as H3 by (by exists "jo", "").
  split_and!; [done..|].
  exact (search_narrower_query_finds_less Students jose_store [jose_record] JOSE SE
           H1 H2 H3).
Defined.

(** X12: [importData] of a payload in which neither [students] nor
    [teachers] is an array returns without touching the store. *)
Theorem import_without_lists_is_noop data st :
  isArray (heap st) (prop data "students") = false →
  isArray (heap st) (prop data "teachers") = false →
  importData data st = (Ok (), st).
Proof.
  intros Hs Ht. rewrite importData_run, Hs, Ht, !andb_false_r. by destruct st.
Qed.

Lemma import_without_lists_is_noop_witness :
  isArray (heap seed_store) (prop empty_payload "students") = false ∧
  isArray (heap seed_store) (prop empty_payload "teachers") = false ∧
  importData empty_payload seed_store = (Ok (), seed_store).
Proof.
  split_and!; [reflexivity..|].
  exact (import_without_lists_is_noop empty_payload seed_store eq_refl eq_refl).
Defined.

(** X13: [delete] removes one record, the first with the id: when two
    records carry the id, the later one stays, and a second [delete] of the
    same id returns [true] again. *)
Theorem delete_removes_first_only k st rs id i j o :
  holds k st rs →
  first_with_id rs id i →
  rs !! j = Some o → prop o "id" = id → j ≠ i →
  ∃ st1 st2,
    delete_record k id st = (Ok true, st1) ∧
    holds k st1 (delete i rs) ∧
    o ∈ delete i rs ∧
    delete_record k id st1 = (Ok true, st2).
Proof.
  intros Hrs Hi Hj Hid Hne.
  destruct (delete_present k st rs id i Hrs Hi) as (st1 & lc & Hdel & _ & _ & _ & _ & Hrs1).
  assert (o ∈ delete i rs) as Hin.
  { destruct (decide (j < i)) as [Hlt|Hge].
    - apply list_elem_of_lookup. exists j. by rewrite list_lookup_delete_lt.
    - apply list_elem_of_lookup. exists (pred j).
      rewrite list_lookup_delete_ge by lia. by replace (S (pred j)) with j by lia. }
  assert (id ∈ ids (delete i rs)) as Hin'.
  { unfold ids. apply list_elem_of_fmap. by exists o. }
  destruct (first_with_id_exists _ _ Hin') as [i' Hi'].
  destruct (delete_present k st1 (delete i rs) id i' Hrs1 Hi') as (st2 & lc' & Hdel' & _).
  by exists st1, st2.
Qed.

Lemma delete_removes_first_only_witness :
  holds Students twins_store [john; john_again] ∧
  first_with_id [john; john_again] (VStr "1234500001") 0 ∧
  ∃ st1 st2,
    deleteStudent (VStr "1234500001") twins_store = (Ok true, st1) ∧
    holds Students st1 [john_again] ∧
    deleteStudent (VStr "1234500001") st1 = (Ok true, st2).
Proof.
  assert (holds Students twins_store [john; john_again]) as H1 by reflexivity.
  assert (first_with_id [john; john_again] (VStr "1234500001") 0) as H2.
  { split; [by exists john|]. intros j o Hj. lia. }
  split_and!; [done..|].
  destruct (delete_removes_first_only Students twins_store [john; john_again]
              (VStr "1234500001") 0 1 john_again H1 H2 eq_refl eq_refl)
    as (st1 & st2 & Hd1 & Hh & _ & Hd2); [lia|].
  by exists st1, st2.
Defined.

(** X14: [create] with a number as id and no password throws a TypeError
    (a number has no [slice]) before anything is stored; with a password
    the number is accepted as the id. *)
Theorem create_numeric_id_needs_password k st rs data n :
  holds k st rs →
  prop data "id" = VNum n → n ≠ 0%Z →
  truthy (prop data "name") = true → truthy (prop data "email") = true →
  VNum n ∉ ids rs →
  (truthy (prop data "password") = false →
     create k data st = (Throw TypeError, st)) ∧
  (truthy (prop data "password") = true →
     ∃ r st' o, create k data st = (Ok r, st') ∧ holds k st' (rs ++ [o]) ∧
                prop o "id" = VNum n).
Proof.
  intros Hrs Hid Hn Hname Hemail Hfresh.
  assert (valid_input data = true) as Hvalid.
  { unfold valid_input. rewrite Hid, Hname, Hemail. simpl.
    by destruct (Z.eqb_spec n 0). }
  split; intros Hpw.
  - apply create_bad_password with rs; [done..|by rewrite Hid|].
    unfold chosen_password. by rewrite Hpw, Hid.
  - destruct (create_ok k st data rs (prop data "password") Hrs Hvalid) as
      (r & st' & o & lc & Hrun & _ & _ & _ & _ & Hrs' & _ & Hoid & _);
      [by rewrite Hid|unfold chosen_password; by rewrite Hpw|].
    exists r, st', o. split_and!; [done..|]. by rewrite Hoid.
Qed.

Lemma create_numeric_id_needs_password_witness :
  holds Students seed_store [john] ∧
  createStudent numbered seed_store = (Throw TypeError, seed_store).
Proof.
  assert (holds Students seed_store [john]) as H1 by reflexivity.
  split; [done|].
  refine (proj1 (create_numeric_id_needs_password Students seed_store [john] numbered 7
                   H1 eq_refl _ eq_refl eq_refl _) eq_refl).
  - discriminate.
  - intros Hin. apply list_elem_of_singleton in Hin. discriminate.
Defined.

(** ** What [create] stores and what it returns *)

Lemma append_stored h h1 lc a rs o :
  h !! lc = Some (CArr a) → h1 !! lc = Some (CArr a) →
  preserved_but lc h h1 →
  Forall2 (λ v r, record_at h v = Some r) a rs →
  let lo := fresh (dom h1) in
  let h2 := <[lc := CArr (a ++ [VRef lo])]> (<[lo := CObj o]> h1) in
  spread h2 (VRef lo) = o ∧
  records h2 (VRef lc) = Some (rs ++ [o]) ∧
  (∀ l x, h1 !! l = Some x → l ≠ lc → h2 !! l = Some x) ∧
  h !! fresh (dom h2) = None.
Proof.
  intros Hlc Hlc1 Hp Ha lo h2.
  assert (lo ≠ lc) as Hne.
  { intros E. rewrite <- E in Hlc1. unfold lo in Hlc1. by rewrite fresh_lookup in Hlc1. }
  assert (h2 !! lo = Some (CObj o)) as Hlo.
  { unfold h2. rewrite lookup_insert_ne by done. by rewrite lookup_insert_eq. }
  assert (preserved_but lc h h2) as Hp2.
  { unfold h2. apply preserved_but_write. apply preserved_but_new; eauto. }
  split_and!.
  - simpl. by rewrite Hlo.
  - apply records_intro with (a ++ [VRef lo]); [apply lookup_insert_eq|].
    apply Forall2_app.
    + by apply Forall2_record_at_preserved with lc a h.
    + constructor; [|constructor]. simpl. by rewrite Hlo.
  - intros l x Hl Hnelc. unfold h2. rewrite lookup_insert_ne by done.
    rewrite lookup_insert_ne; [done|].
    intros E. rewrite <- E in Hl. unfold lo in Hl. by rewrite fresh_lookup in Hl.
  - destruct (h !! fresh (dom h2)) as [x|] eqn:E; [exfalso|done].
    destruct (decide (fresh (dom h2) = lc)) as [Heq|Hne'].
    + pose proof (fresh_lookup h2) as Hf. rewrite Heq in Hf.
      unfold h2 in Hf. by rewrite lookup_insert_eq in Hf.
    + apply Hp2 in E; [|done]. by rewrite fresh_lookup in E.
Qed.

(** [create], step by step: the new record goes into the collection of a
    store [st2], and the value returned is a further new cell [l] with the
    same properties. *)
Lemma create_steps k st data rs pw :
  holds k st rs →
  valid_input data = true →
  prop data "id" ∉ ids rs →
  chosen_password k (heap st) data = Ok pw →
  ∃ l st2 sp,
    create k data st = (Ok (VRef l), (write l (CObj (new_record k data pw sp)) st2).2) ∧
    heap st !! l = None ∧
    heap st2 !! l = None ∧
    holds k st2 (rs ++ [new_record k data pw sp]) ∧
    (k = Teachers →
       if isArray (heap st) (prop data "specialization")
       then sp = prop data "specialization"
       else ∃ ls, sp = VRef ls ∧ heap st !! ls = None ∧ heap st2 !! ls = Some (CArr [])).
Proof.
  intros Hrs Hvalid Hin Hpw. unfold valid_input in Hvalid.
  apply andb_true_iff in Hvalid as [Hvalid Hemail].
  apply andb_true_iff in Hvalid as [Hid Hname].
  apply records_inv in Hrs as (lc & a & Hc & Hlc & Ha).
  pose proof (find_absent _ _ _ _ Ha Hin) as Hfind.
  destruct k, st as [h s t]; simpl in *; subst;
    unfold createStudent, createTeacher; rewrite Hid, Hname, Hemail; simpl;
    unfold mbind, M_bind, binding, reading; simpl;
    rewrite Hlc; simpl; rewrite Hfind; simpl.
  - rewrite (password_or_default_run Students). cbn [heap]. rewrite Hpw. simpl.
    destruct (append_stored h h lc a rs (new_record Students data pw VUndef)
                Hlc Hlc (preserved_but_refl lc h) Ha) as (Hs & Hr & _ & Hf).
    erewrite push_run by (simpl; rewrite lookup_insert_ne; [exact Hlc|];
      intros E; rewrite <- E in Hlc; by rewrite fresh_lookup in Hlc).
    cbn [heap students teachers]. rewrite copy_of_run. cbn [heap students teachers].
    unfold new_record in Hs. rewrite Hs.
    eexists _, (Store _ (VRef lc) t), VUndef. split; [reflexivity|].
    split_and!; [exact Hf|apply fresh_lookup|exact Hr|discriminate].
  - rewrite (password_or_default_run Teachers). cbn [heap]. rewrite Hpw. cbn [heap students teachers].
    destruct (isArray h (prop data "specialization")) eqn:Harr; simpl.
    + destruct (append_stored h h lc a rs
                  (new_record Teachers data pw (prop data "specialization"))
                  Hlc Hlc (preserved_but_refl lc h) Ha) as (Hs & Hr & _ & Hf).
      erewrite push_run by (simpl; rewrite lookup_insert_ne; [exact Hlc|];
        intros E; rewrite <- E in Hlc; by rewrite fresh_lookup in Hlc).
      cbn [heap students teachers]. rewrite copy_of_run. cbn [heap students teachers].
      unfold new_record in Hs. rewrite Hs.
      eexists _, (Store _ s (VRef lc)), _. split; [reflexivity|].
      split_and!; [exact Hf|apply fresh_lookup|exact Hr|done].
    + set (h1 := <[fresh (dom h) := CArr []]> h).
      assert (fresh (dom h) ≠ lc) as Hne.
      { intros E; rewrite <- E in Hlc; by rewrite fresh_lookup in Hlc. }
      assert (h1 !! lc = Some (CArr a)) as Hlc1.
      { unfold h1. by rewrite lookup_insert_ne. }
      assert (preserved_but lc h h1) as Hp1.
      { apply preserved_but_new; eauto using preserved_but_refl. }
      destruct (append_stored h h1 lc a rs
                  (new_record Teachers data pw (VRef (fresh (dom h))))
                  Hlc Hlc1 Hp1 Ha) as (Hs & Hr & Hkeep & Hf).
      erewrite push_run by (simpl; rewrite lookup_insert_ne; [exact Hlc1|];
        intros E; rewrite <- E in Hlc1; by rewrite fresh_lookup in Hlc1).
      cbn [heap students teachers]. rewrite copy_of_run. cbn [heap students teachers].
      unfold new_record in Hs. rewrite Hs.
      eexists _, (Store _ s (VRef lc)), _. split; [reflexivity|].
      split_and!; [exact Hf|apply fresh_lookup|exact Hr|].
      intros _. exists (fresh (dom h)). split_and!; [done|apply fresh_lookup|].
      cbn [heap]. apply Hkeep; [|done]. apply lookup_insert_eq.
Qed.

Lemma holds_after_write k st2 l c c' rs :
  heap st2 !! l = None → holds k st2 rs →
  holds k (write l c' (write l c st2).2).2 rs.
Proof.
  intros Hl Hrs. unfold holds.
  replace (coll k (write l c' (write l c st2).2).2) with (coll k st2) by (by destruct k).
  apply records_weaken with (heap st2); [|done]. simpl.
  by apply insert_subseteq_r, insert_subseteq.
Qed.

Lemma holds_written k st2 l c rs :
  heap st2 !! l = None → holds k st2 rs → holds k (write l c st2).2 rs.
Proof.
  intros Hl Hrs. unfold holds.
  replace (coll k (write l c st2).2) with (coll k st2) by (by destruct k).
  apply records_weaken with (heap st2); [|done]. simpl. by apply insert_subseteq.
Qed.

(** X15: the record that [create] returns is not the one it stored: it is
    a further new cell with the same properties, and whatever a caller
    writes into it, the collection keeps the record as it was created. *)
Theorem create_result_is_private k st data rs pw :
  holds k st rs →
  valid_input data = true →
  prop data "id" ∉ ids rs →
  chosen_password k (heap st) data = Ok pw →
  ∃ l st' o,
    create k data st = (Ok (VRef l), st') ∧
    heap st !! l = None ∧
    heap st' !! l = Some (CObj o) ∧
    holds k st' (rs ++ [o]) ∧
    ∀ c, holds k (write l c st').2 (rs ++ [o]).
Proof.
  intros Hrs Hvalid Hin Hpw.
  destruct (create_steps k st data rs pw Hrs Hvalid Hin Hpw)
    as (l & st2 & sp & Hrun & Hl0 & Hl & Hrs2 & _).
  eexists l, _, _. split; [exact Hrun|]. split_and!.
  - done.
  - simpl. apply lookup_insert_eq.
  - by apply holds_written.
  - intros c. by apply holds_after_write.
Qed.

Lemma create_result_is_private_witness :
  holds Students seed_store [john] ∧
  valid_input jane = true ∧
  (prop jane "id" ∉ ids [john]) ∧
  chosen_password Students (heap seed_store) jane = Ok (VStr "Student@002") ∧
  ∃ l st' o,
    createStudent jane seed_store = (Ok (VRef l), st') ∧
    heap seed_store !! l = None ∧
    heap st' !! l = Some (CObj o) ∧
    holds Students st' ([john] ++ [o]) ∧
    ∀ c, holds Students (write l c st').2 ([john] ++ [o]).
Proof.
  assert (holds Students seed_store [john]) as H1 by reflexivity.
  assert (valid_input jane = true) as H2 by reflexivity.
  assert (prop jane "id" ∉ ids [john]) as H3.
  { intros Hin. apply list_elem_of_singleton in Hin. discriminate. }
  assert (chosen_password Students (heap seed_store) jane = Ok (VStr "Student@002")) as H4 by reflexivity.
  split_and!; [done..|].
  exact (create_result_is_private Students seed_store jane [john] _ H1 H2 H3 H4).
Defined.

(** X16: the record [create] stores has the properties [create] names
    (id, name, email, password, and specialization for a teacher) and no
    other: id, name and email are the input's, and any further property of
    the input is dropped. *)
Theorem create_stores_named_fields_only k st data rs pw :
  holds k st rs →
  valid_input data = true →
  prop data "id" ∉ ids rs →
  chosen_password k (heap st) data = Ok pw →
  ∃ r st' o,
    create k data st = (Ok r, st') ∧
    holds k st' (rs ++ [o]) ∧
    dom o = list_to_set (fields k) ∧
    (∀ key, key ∈ ["id"; "name"; "email"] → o !! key = Some (prop data key)) ∧
    ∀ key, key ∉ fields k → prop o key = VUndef.
Proof.
  intros Hrs Hvalid Hin Hpw.
  destruct (create_steps k st data rs pw Hrs Hvalid Hin Hpw)
    as (l & st2 & sp & Hrun & _ & Hl & Hrs2 & _).
  assert (dom (new_record k data pw sp) = list_to_set (fields k)) as Hdom.
  { unfold new_record. destruct k; simpl; rewrite !dom_insert_L, dom_empty_L; set_solver. }
  eexists _, _, _. split; [exact Hrun|]. split_and!.
  - by apply holds_written.
  - done.
  - intros key Hkey. unfold new_record.
    repeat (apply elem_of_cons in Hkey as [->|Hkey]); [by simplify_map_eq..|].
    by apply elem_of_nil in Hkey.
  - intros key Hkey. unfold prop.
    assert (new_record k data pw sp !! key = None) as ->; [|done].
    apply not_elem_of_dom. rewrite Hdom. by rewrite elem_of_list_to_set.
Qed.

Lemma create_stores_named_fields_only_witness :
  holds Teachers seed_store [ada] ∧
  valid_input grace = true ∧
  (prop grace "id" ∉ ids [ada]) ∧
  chosen_password Teachers (heap seed_store) grace = Ok (VStr "Teacher@003") ∧
  ∃ r st' o,
    createTeacher grace seed_store = (Ok r, st') ∧
    holds Teachers st' ([ada] ++ [o]) ∧
    prop o "office" = VUndef.
Proof.
  assert (holds Teachers seed_store [ada]) as H1 by reflexivity.
  assert (valid_input grace = true) as H2 by reflexivity.
  assert (prop grace "id" ∉ ids [ada]) as H3.
  { intros Hin. apply list_elem_of_singleton in Hin. discriminate. }
  assert (chosen_password Teachers (heap seed_store) grace = Ok (VStr "Teacher@003")) as H4 by reflexivity.
  split_and!; [done..|].
  destruct (create_stores_named_fields_only Teachers seed_store grace [ada] _ H1 H2 H3 H4)
    as (r & st' & o & Hrun & Hrs & _ & _ & Hother).
  exists r, st', o. split_and!; [done..|].
  apply Hother. simpl. intros Hin.
  repeat (apply elem_of_cons in Hin as [Hin|Hin]; [discriminate|]).
  by apply elem_of_nil in Hin.
Defined.

(** X17: [createTeacher] stores the input's [specialization] when it is an
    array: the same array, not a copy, so the stored teacher, the record
    returned and the caller's input share it.  Anything else (absent, a
    string, an object) is replaced by a new empty array. *)
Theorem createTeacher_specialization st data rs pw :
  holds Teachers st rs →
  valid_input data = true →
  prop data "id" ∉ ids rs →
  chosen_password Teachers (heap st) data = Ok pw →
  ∃ r st' o,
    createTeacher data st = (Ok r, st') ∧
    holds Teachers st' (rs ++ [o]) ∧
    record_at (heap st') r = Some o ∧
    if isArray (heap st) (prop data "specialization")
    then prop o "specialization" = prop data "specialization"
    else ∃ ls, prop o "specialization" = VRef ls ∧ heap st !! ls = None ∧
               heap st' !! ls = Some (CArr []).
Proof.
  intros Hrs Hvalid Hin Hpw.
  destruct (create_steps Teachers st data rs pw Hrs Hvalid Hin Hpw)
    as (l & st2 & sp & Hrun & _ & Hl & Hrs2 & Hsp).
  specialize (Hsp eq_refl).
  eexists _, _, _. split; [exact Hrun|]. split_and!.
  - by apply (holds_written Teachers).
  - simpl. by rewrite lookup_insert_eq.
  - destruct (isArray (heap st) (prop data "specialization")).
    + by rewrite Hsp.
    + destruct Hsp as (ls & -> & Hnew & Hls). exists ls. split_and!; [done..|].
      simpl. rewrite lookup_insert_ne; [done|]. intros <-. by rewrite Hl in Hls.
Qed.

Lemma createTeacher_specialization_witness :
  holds Teachers seed_store [ada] ∧
  valid_input grace = true ∧
  (prop grace "id" ∉ ids [ada]) ∧
  chosen_password Teachers (heap seed_store) grace = Ok (VStr "Teacher@003") ∧
  ∃ r st' o,
    createTeacher grace seed_store = (Ok r, st') ∧
    holds Teachers st' ([ada] ++ [o]) ∧
    record_at (heap st') r = Some o ∧
    prop o "specialization" = prop ada "specialization".
Proof.
  assert (holds Teachers seed_store [ada]) as H1 by reflexivity.
  assert (valid_input grace = true) as H2 by reflexivity.
  assert (prop grace "id" ∉ ids [ada]) as H3.
  { intros Hin. apply list_elem_of_singleton in Hin. discriminate. }
  assert (chosen_password Teachers (heap seed_store) grace = Ok (VStr "Teacher@003")) as H4 by reflexivity.
  split_and!; [done..|].
  destruct (createTeacher_specialization seed_store grace [ada] _ H1 H2 H3 H4)
    as (r & st' & o & Hrun & Hrs & Hr & Hsp).
  exists r, st', o. split_and!; [done..|]. exact Hsp.
Defined.

(** ** What [update] returns and what it leaves behind *)

(** [update], step by step: the merged record goes into position [i] of
    the collection of a store [st2], and the value returned is a further
    new cell [l] with the same properties. *)
Lemma update_steps k st rs id i old updates :
  holds k st rs → first_with_id rs id i → rs !! i = Some old →
  let merged := <["id" := id]> (updates ∪ old) in
  ∃ l st2,
    update k id updates st = (Ok (VRef l), (write l (CObj merged) st2).2) ∧
    heap st2 !! l = None ∧
    holds k st2 (<[i := merged]> rs).
Proof.
  intros Hrs Hfirst Hold new. apply records_inv in Hrs as (lc & a & Hc & Hlc & Ha).
  pose proof (first_with_id_lt _ _ _ Hfirst) as Hlt.
  rewrite <- (Forall2_length _ _ _ Ha) in Hlt.
  destruct (lookup_lt_is_Some_2 a i Hlt) as [v Hv].
  destruct (Forall2_lookup_l _ _ _ _ _ Ha Hv) as (old' & Hold' & Hrec).
  assert (old' = old) as -> by congruence.
  pose proof Hrec as Hrec'. apply record_at_inv in Hrec' as (lold & -> & Hlold).
  unfold update. rewrite (bind_ok _ _ _ _ _ (binding_run k st)). rewrite Hc.
  unfold mbind at 1, M_bind, reading. simpl. rewrite Hlc. simpl.
  rewrite (findIndex_first _ _ _ _ _ Ha Hfirst).
  rewrite (bind_ok _ _ _ _ _ (binding_run k st)). rewrite Hc.
  rewrite (bind_ok _ _ _ _ _ (index_get_run lc a i st Hlc)). rewrite Hv. simpl.
  unfold mbind at 1, M_bind. simpl. rewrite Hlold. fold new.
  rewrite (bind_ok _ _ _ _ _ (new_run (CObj new) st)).
  set (lo := fresh (dom (heap st))).
  set (st1 := Store _ _ _).
  assert (lo ≠ lc) as Hne.
  { intros E. rewrite <- E in Hlc. unfold lo in Hlc. by rewrite fresh_lookup in Hlc. }
  assert (coll k st1 = VRef lc) as Hc1 by (by destruct k).
  assert (heap st1 !! lc = Some (CArr a)) as Hlc1.
  { simpl. by rewrite lookup_insert_ne. }
  rewrite (bind_ok _ _ _ _ _ (binding_run k st1)). rewrite Hc1.
  rewrite (bind_ok _ _ _ _ _ (index_set_run lc a i (VRef lo) st1 Hlc1 Hlt)).
  set (st2 := Store _ _ _).
  assert (coll k st2 = VRef lc) as Hc2 by (by destruct k).
  assert (heap st2 !! lc = Some (CArr (<[i := VRef lo]> a))) as Hlc2 by apply lookup_insert_eq.
  assert (heap st2 !! lo = Some (CObj new)) as Hlo2.
  { simpl. rewrite lookup_insert_ne by done. apply lookup_insert_eq. }
  rewrite (bind_ok _ _ _ _ _ (binding_run k st2)).
  rewrite (bind_ok _ _ _ _ _ (save_same k st2)).
  rewrite (bind_ok _ _ _ _ _ (flush_run k st2)).
  rewrite (bind_ok _ _ _ _ _ (binding_run k st2)). rewrite Hc2.
  rewrite (bind_ok _ _ _ _ _ (index_get_run lc _ i st2 Hlc2)).
  rewrite list_lookup_insert_eq by done. cbn [default from_option]. unfold Datatypes.id.
  rewrite copy_of_run.
  assert (spread (heap st2) (VRef lo) = new) as -> by (unfold spread; by rewrite Hlo2).
  assert (preserved_but lc (heap st) (heap st2)) as Hp2.
  { apply preserved_but_write, preserved_but_new; eauto using preserved_but_refl. }
  exists (fresh (dom (heap st2))), st2. split; [done|]. split; [apply fresh_lookup|].
  unfold holds. rewrite Hc2.
  apply records_intro with (<[i := VRef lo]> a); [done|].
  apply Forall2_insert.
  - by apply Forall2_record_at_preserved with lc a (heap st).
  - unfold record_at. by rewrite Hlo2.
Qed.

(** X18: the record that [update] returns is not the one it stored:
    whatever a caller writes into it, the collection keeps the updated
    record. *)
Theorem update_result_is_private k st rs id i old updates :
  holds k st rs → first_with_id rs id i → rs !! i = Some old →
  ∃ l st',
    update k id updates st = (Ok (VRef l), st') ∧
    heap st' !! l = Some (CObj (<["id" := id]> (updates ∪ old))) ∧
    ∀ c, holds k (write l c st').2 (<[i := <["id" := id]> (updates ∪ old)]> rs).
Proof.
  intros Hrs Hfirst Hold.
  destruct (update_steps k st rs id i old updates Hrs Hfirst Hold)
    as (l & st2 & Hrun & Hl & Hrs2).
  eexists l, _. split; [exact Hrun|]. split.
  - simpl. apply lookup_insert_eq.
  - intros c. by apply holds_after_write.
Qed.

Lemma update_result_is_private_witness :
  holds Students seed_store [john] ∧
  first_with_id [john] (VStr "1234500001") 0 ∧
  ∃ l st',
    updateStudent (VStr "1234500001") new_email seed_store = (Ok (VRef l), st') ∧
    ∀ c, holds Students (write l c st').2
           [<["id" := VStr "1234500001"]> (new_email ∪ john)].
Proof.
  assert (holds Students seed_store [john]) as H1 by reflexivity.
  assert (first_with_id [john] (VStr "1234500001") 0) as H2.
  { split; [by exists john|]. intros j o Hj. lia. }
  split_and!; [done..|].
  destruct (update_result_is_private Students seed_store [john] (VStr "1234500001") 0 john
              new_email H1 H2 eq_refl) as (l & st' & Hrun & _ & Hw).
  by exists l, st'.
Defined.

(** X19: [update] never writes into the record it replaces: the object
    that was element [i] of the array before the call has the properties
    it had, so a reference obtained earlier (from [search], which hands out
    the stored objects) shows the old values while the collection shows the
    new ones. *)
Theorem update_leaves_replaced_object k st rs id i old updates a v :
  holds k st rs → first_with_id rs id i → rs !! i = Some old →
  elements_of (heap st) (coll k st) = Ok a → a !! i = Some v →
  ∃ r st',
    update k id updates st = (Ok r, st') ∧
    record_at (heap st') v = Some old ∧
    holds k st' (<[i := <["id" := id]> (updates ∪ old)]> rs).
Proof.
  intros Hrs Hfirst Hold Ha Hv.
  destruct (update_found k st rs id i old updates Hrs Hfirst Hold)
    as (r & st' & lc & Hrun & Hc & _ & _ & Hp & Hrs' & _).
  exists r, st'. split_and!; [done| |done].
  apply records_inv in Hrs as (lc' & a' & Hc' & Hlc & Hall).
  assert (lc' = lc) as -> by congruence.
  rewrite Hc in Ha. simpl in Ha. rewrite Hlc in Ha. injection Ha as ->.
  destruct (Forall2_lookup_l _ _ _ _ _ Hall Hv) as (old' & Hold' & Hrec).
  assert (old' = old) as -> by congruence.
  by apply record_at_preserved with lc a (heap st).
Qed.

Lemma update_leaves_replaced_object_witness :
  holds Students seed_store [john] ∧
  first_with_id [john] (VStr "1234500001") 0 ∧
  ∃ r st',
    updateStudent (VStr "1234500001") new_email seed_store = (Ok r, st') ∧
    record_at (heap st') (VRef 2) = Some john ∧
    holds Students st' [<["id" := VStr "1234500001"]> (new_email ∪ john)].
Proof.
  assert (holds Students seed_store [john]) as H1 by reflexivity.
  assert (first_with_id [john] (VStr "1234500001") 0) as H2.
  { split; [by exists john|]. intros j o Hj. lia. }
  split_and!; [done..|].
  exact (update_leaves_replaced_object Students seed_store [john] (VStr "1234500001") 0 john
           new_email [VRef 2] (VRef 2) H1 H2 eq_refl eq_refl eq_refl).
Defined.

(** ** Export is a deep copy *)

Lemma difference_mono_l (h0 h1 h2 : gmap loc cell) : h1 ⊆ h2 → h1 ∖ h0 ⊆ h2 ∖ h0.
Proof.
  intros Hsub. apply map_subseteq_spec. intros l x Hl.
  apply lookup_difference_Some in Hl as [Hl Hl0]. apply lookup_difference_Some.
  split; [|done]. by apply (lookup_weaken _ _ _ _ Hl Hsub).
Qed.

Lemma difference_mono_r (h0 h1 h2 : gmap loc cell) : h0 ⊆ h1 → h2 ∖ h1 ⊆ h2 ∖ h0.
Proof.
  intros Hsub. apply map_subseteq_spec. intros l x Hl.
  apply lookup_difference_Some in Hl as [Hl Hl1]. apply lookup_difference_Some.
  split; [done|]. by apply (lookup_weaken_None _ _ _ Hl1 Hsub).
Qed.

Lemma difference_new (h0 h1 : gmap loc cell) c :
  h0 ⊆ h1 →
  ((<[fresh (dom h1) := c]> h1) ∖ h0) !! fresh (dom h1) = Some c ∧
  h1 ∖ h0 ⊆ (<[fresh (dom h1) := c]> h1) ∖ h0.
Proof.
  intros Hsub. split.
  - apply lookup_difference_Some. split; [apply lookup_insert_eq|].
    apply (lookup_weaken_None _ _ _ (fresh_lookup h1) Hsub).
  - apply difference_mono_l, insert_subseteq, fresh_lookup.
Qed.

(** What [JSON.parse] builds consists of cells that did not exist before. *)
Lemma parse_fresh j st :
  ∃ v st', parse j st = (Ok v, st') ∧ extends st st' ∧
           denotes (heap st' ∖ heap st) v j.
Proof.
  remember (depth j) as n eqn:Hn.
  revert j st Hn. induction n as [n IH] using lt_wf_ind. intros j st ->.
  destruct j as [|b|z|s|js|m].
  - exists VNull, st. split_and!; [done|apply extends_refl|constructor].
  - exists (VBool b), st. split_and!; [done|apply extends_refl|constructor].
  - exists (VNum z), st. split_and!; [done|apply extends_refl|constructor].
  - exists (VStr s), st. split_and!; [done|apply extends_refl|constructor].
  - assert (∀ st, ∃ vs st', mapA parse js st = (Ok vs, st') ∧ extends st st' ∧
                            Forall2 (denotes (heap st' ∖ heap st)) vs js) as Hjs.
    { assert (∀ j, j ∈ js → depth j < depth (JArr js)) as Hdepth by apply depth_elem.
      revert Hdepth. generalize (depth (JArr js)) IH. clear. intros n IH.
      induction js as [|j js IHjs]; intros Hdepth st0.
      - exists [], st0. split_and!; [done|apply extends_refl|constructor].
      - destruct (IH (depth j)) with j st0 as (v & st1 & Hp & He & Hd);
          [apply Hdepth; left|done|].
        destruct (IHjs (λ j' Hj', Hdepth j' (list_elem_of_further _ _ _ Hj')) st1)
          as (vs & st2 & Hps & Hes & Hds).
        exists (v :: vs), st2. split_and!.
        + simpl. unfold mbind, M_bind. rewrite Hp. fold (mapA parse js). by rewrite Hps.
        + by apply extends_trans with st1.
        + constructor.
          * apply denotes_weaken with (heap st1 ∖ heap st0); [|done].
            apply difference_mono_l, Hes.
          * eapply Forall2_impl; [exact Hds|]. intros w x.
            apply denotes_weaken, difference_mono_r, He. }
    destruct (Hjs st) as (vs & st1 & Hps & Hes & Hds).
    destruct (difference_new (heap st) (heap st1) (CArr vs) (proj1 Hes)) as [Hl Hsub].
    eexists _, _. split_and!.
    + rewrite parse_arr. rewrite (bind_ok _ _ _ _ _ Hps). reflexivity.
    + apply extends_trans with st1; [done|apply extends_new].
    + simpl. apply denotes_arr with vs; [exact Hl|].
      eapply Forall2_impl; [exact Hds|]. intros w x. by apply denotes_weaken.
  - rewrite parse_obj.
    assert (∀ st, ∃ o st',
              foldr (λ kj (acc : M (gmap string value)),
                       o ← acc; v ← parse kj.2; mret (<[kj.1 := v]> o))
                    (mret ∅) (map_to_list m) st = (Ok o, st') ∧
              extends st st' ∧
              ∀ k, field_rel (denotes (heap st' ∖ heap st)) (o !! k)
                     ((list_to_map (map_to_list m) : gmap string json) !! k)) as Hm.
    { assert (∀ kj, kj ∈ map_to_list m → depth kj.2 < depth (JObj m)) as Hdepth.
      { intros [k j] Hkj. apply elem_of_map_to_list in Hkj. by eapply depth_member. }
      revert Hdepth. generalize (depth (JObj m)) IH (map_to_list m). clear.
      intros n IH l. induction l as [|[k0 j0] l IHl]; intros Hdepth st0.
      - exists ∅, st0. split_and!; [done|apply extends_refl|].
        intros k. simpl. rewrite !lookup_empty. constructor.
      - destruct (IHl (λ kj Hkj, Hdepth kj (list_elem_of_further _ _ _ Hkj)) st0)
          as (o & st1 & Hfold & He1 & Ho).
        destruct (IH (depth j0)) with j0 st1 as (v & st2 & Hp & He2 & Hd);
          [apply (Hdepth (k0, j0)); left|done|].
        exists (<[k0 := v]> o), st2. split_and!.
        + simpl. unfold mbind at 1, M_bind at 1. rewrite Hfold.
          unfold mbind, M_bind. by rewrite Hp.
        + by apply extends_trans with st1.
        + intros k. simpl. destruct (decide (k0 = k)) as [->|Hne].
          * rewrite !lookup_insert_eq. constructor.
            apply denotes_weaken with (heap st2 ∖ heap st1); [|done].
            apply difference_mono_r, He1.
          * rewrite !lookup_insert_ne by done.
            eapply field_rel_impl; [|apply Ho]. intros w x _ _.
            apply denotes_weaken, difference_mono_l, He2. }
    destruct (Hm st) as (o & st1 & Hfold & He1 & Ho).
    rewrite list_to_map_to_list in Ho.
    destruct (difference_new (heap st) (heap st1) (CObj o) (proj1 He1)) as [Hl Hsub].
    eexists _, _. split_and!.
    + rewrite (bind_ok _ _ _ _ _ Hfold). reflexivity.
    + apply extends_trans with st1; [done|apply extends_new].
    + simpl. apply denotes_obj with o; [exact Hl|].
      intros k. eapply field_rel_impl; [|apply Ho]. intros w x _ _.
      by apply denotes_weaken.
Qed.

Lemma json_clone_fresh v j st :
  denotes (heap st) v j →
  ∃ v' st', json_clone v st = (Ok v', st') ∧ extends st st' ∧
            denotes (heap st' ∖ heap st) v' j.
Proof.
  intros Hd. unfold json_clone, mbind, M_bind, reading. simpl.
  rewrite (stringify_heap_denotes _ _ _ Hd). apply parse_fresh.
Qed.

(** X20: on a store whose collections are JSON data, [exportData] returns
    a deep copy: the two lists it returns have the contents of the
    collections, are built only of cells that did not exist before the call
    (they share no array and no object with the store, unlike the copies of
    [getTeachers], which share the specialization arrays), and the store
    keeps every cell and both bindings; [exportDate] is the time of the
    call. *)
Theorem exportData_is_deep_copy st now sj tj :
  denotes (heap st) (students st) (JArr sj) →
  denotes (heap st) (teachers st) (JArr tj) →
  ∃ data st',
    exportData now st = (Ok data, st') ∧
    extends st st' ∧
    denotes (heap st' ∖ heap st) (prop data "students") (JArr sj) ∧
    denotes (heap st' ∖ heap st) (prop data "teachers") (JArr tj) ∧
    prop data "exportDate" = VStr now.
Proof.
  intros Hs Ht.
  destruct (json_clone_fresh _ _ st Hs) as (sc & st1 & Hsc & He1 & Hds).
  assert (denotes (heap st1) (teachers st1) (JArr tj)) as Ht'.
  { destruct He1 as (Hh & _ & ->). by apply denotes_weaken with (heap st). }
  destruct (json_clone_fresh _ _ st1 Ht') as (tc & st2 & Htc & He2 & Hdt).
  unfold exportData.
  rewrite (bind_ok _ _ _ _ _ (binding_run Students st)).
  rewrite (bind_ok _ _ _ _ _ Hsc).
  rewrite (bind_ok _ _ _ _ _ (binding_run Teachers st1)).
  rewrite (bind_ok _ _ _ _ _ Htc).
  eexists _, st2. split; [reflexivity|]. split_and!.
  - by apply extends_trans with st1.
  - unfold prop. rewrite lookup_insert_eq. cbn [default from_option].
    apply denotes_weaken with (heap st1 ∖ heap st); [|done].
    apply difference_mono_l, He2.
  - unfold prop. rewrite lookup_insert_ne by done. rewrite lookup_insert_eq.
    cbn [default from_option].
    apply denotes_weaken with (heap st2 ∖ heap st1); [|done].
    apply difference_mono_r, He1.
  - done.
Qed.

Lemma exportData_is_deep_copy_witness :
  denotes (heap seed_store) (students seed_store) (JArr [john_json]) ∧
  denotes (heap seed_store) (teachers seed_store) (JArr [ada_json]) ∧
  ∃ data st',
    exportData "2026-01-01T00:00:00.000Z" seed_store = (Ok data, st') ∧
    extends seed_store st' ∧
    denotes (heap st' ∖ heap seed_store) (prop data "students") (JArr [john_json]) ∧
    denotes (heap st' ∖ heap seed_store) (prop data "teachers") (JArr [ada_json]) ∧
    prop data "exportDate" = VStr "2026-01-01T00:00:00.000Z".
Proof.
  split_and!; [apply seed_store_students|apply seed_store_teachers|].
  exact (exportData_is_deep_copy seed_store "2026-01-01T00:00:00.000Z"
           [john_json] [ada_json] seed_store_students seed_store_teachers).
Defined.

(** * The student list *)

(** ** The generated fields *)

Lemma nonempty_truthy s : truthy (VStr s) = true ↔ s ≠ "".
Proof. destruct s; simpl; split; done. Qed.

Lemma generatePassword_nonempty id :
  id ≠ "" → generatePassword id = "Student@" +:+ slice_last 3 id.
Proof. intros H. unfold generatePassword. by rewrite (proj2 (nonempty_truthy id) H). Qed.

Lemma holds_extends k st st' rs : extends st st' → holds k st rs → holds k st' rs.
Proof.
  intros (Hh & Hs & Ht) Hrs. unfold holds.
  replace (coll k st') with (coll k st) by (destruct k; simpl; congruence).
  by apply records_weaken with (heap st).
Qed.

Lemma getAll_listing k st rs :
  holds k st rs →
  ∃ l st', getAll k st = (Ok (VRef l), st') ∧ extends st st' ∧
           records (heap st') (VRef l) = Some rs.
Proof.
  intros Hrs.
  destruct (getAll_returns_copies k st rs Hrs)
    as (l & copies & st' & Hrun & He & Hl & Hl' & Hcopies).
  exists l, st'. split_and!; [done..|].
  apply records_intro with copies; [done|].
  eapply Forall2_impl; [done|]. intros c o (l' & -> & _ & Ho). simpl. by rewrite Ho.
Qed.

(** X21: the password the form shows is the one [createStudent] chooses
    by itself: creating a student from a form with the generated password
    and creating one from the same form with an empty password store the
    same record. *)
Theorem generatePassword_is_createStudent_default st rs id name email :
  holds Students st rs →
  id ≠ "" → name ≠ "" → email ≠ "" →
  VStr id ∉ ids rs →
  ∃ r st' r' st'' o,
    createStudent (form_data (Form id name email (generatePassword id))) st = (Ok r, st') ∧
    createStudent (form_data (Form id name email "")) st = (Ok r', st'') ∧
    holds Students st' (rs ++ [o]) ∧
    holds Students st'' (rs ++ [o]) ∧
    prop o "password" = VStr (generatePassword id).
Proof.
  intros Hrs Hid Hname Hemail Hfresh.
  rewrite (generatePassword_nonempty id Hid).
  set (pw := "Student@" +:+ slice_last 3 id).
  assert (∀ p, valid_input (form_data (Form id name email p)) = true) as Hvalid.
  { intros p. by apply valid_input_strings with id name email. }
  destruct (create_steps Students st (form_data (Form id name email pw)) rs (VStr pw) Hrs)
    as (l & st2 & sp & Hrun & _ & Hl & Hrs2 & _); [done..|].
  destruct (create_steps Students st (form_data (Form id name email "")) rs (VStr pw) Hrs)
    as (l' & st2' & sp' & Hrun' & _ & Hl' & Hrs2' & _); [done..|].
  eexists _, _, _, _, _. split; [exact Hrun|]. split; [exact Hrun'|]. split_and!.
  - by apply (holds_written Students).
  - by apply (holds_written Students).
  - done.
Qed.

Lemma generatePassword_is_createStudent_default_witness :
  holds Students seed_store [john] ∧
  (VStr "1234500002" ∉ ids [john]) ∧
  ∃ r st' r' st'' o,
    createStudent (form_data jane_form) seed_store = (Ok r, st') ∧
    createStudent (form_data (Form "1234500002" "Jane Roe" "jane.roe.002@university.edu" ""))
      seed_store = (Ok r', st'') ∧
    holds Students st' ([john] ++ [o]) ∧
    holds Students st'' ([john] ++ [o]) ∧
    prop o "password" = VStr "Student@002".
Proof.
  assert (holds Students seed_store [john]) as H1 by reflexivity.
  assert (VStr "1234500002" ∉ ids [john]) as H2.
  { intros Hin. apply list_elem_of_singleton in Hin. discriminate. }
  split_and!; [done..|].
  refine (generatePassword_is_createStudent_default seed_store [john] "1234500002"
            "Jane Roe" "jane.roe.002@university.edu" H1 _ _ _ H2); discriminate.
Defined.

Lemma lower_unit_idemp c : lower_unit (lower_unit c) = lower_unit c.
Proof. by destruct c as [[] [] [] [] [] [] [] []]. Qed.

Lemma lower_unit_space c : is_space (lower_unit c) = is_space c.
Proof. by destruct c as [[] [] [] [] [] [] [] []]. Qed.

Lemma letters_app s t : letters (s +:+ t) = letters s ++ letters t.
Proof.
  induction s as [|c s IH]; [done|].
  change (c :: letters (s +:+ t) = c :: (letters s ++ letters t)). by rewrite IH.
Qed.

Lemma replace_spaces_from_letters (P : ascii → Prop) b s :
  P "."%char →
  Forall (λ c, is_space c = false → P c) (letters s) →
  Forall (λ c, is_space c = false ∧ P c) (letters (replace_spaces_from b s)).
Proof.
  intros Hdot. revert b. induction s as [|c s IH]; intros b Hs; [constructor|].
  apply Forall_cons in Hs as [Hc Hs]. simpl.
  destruct (is_space c) eqn:E.
  - destruct b; [by apply IH|]. simpl. constructor; [done|by apply IH].
  - simpl. constructor; [by auto|by apply IH].
Qed.

Lemma replace_spaces_from_nonempty b s :
  s ≠ "" → b = false → replace_spaces_from b s ≠ "".
Proof. intros Hs ->. destruct s as [|c s]; [done|]. simpl. by destruct (is_space c). Qed.

Lemma toLowerCase_letters s : Forall (λ c, lower_unit c = c) (letters (toLowerCase s)).
Proof.
  induction s as [|c s IH]; [constructor|]. simpl.
  constructor; [apply lower_unit_idemp|done].
Qed.

Lemma toLowerCase_nonempty s : s ≠ "" → toLowerCase s ≠ "".
Proof. by destruct s. Qed.

Lemma generateEmail_empty id name : generateEmail id name = "" ↔ id = "" ∨ name = "".
Proof.
  unfold generateEmail. destruct id as [|c id]; [by split; [left|]|].
  destruct name as [|d name]; [by split; [right|]|].
  cbn [truthy negb orb]. split; [|by intros [|]].
  intros H. exfalso. revert H.
  apply append_nonempty, replace_spaces_from_nonempty; [|done].
  by apply toLowerCase_nonempty.
Qed.

(** X22: for a non-empty id and a non-empty name, [generateEmail] is
    [namePart.XXX@university.edu], where [XXX] is the last three characters
    of the id (the whole id when it is shorter) and [namePart] is not
    empty and has no white space and no capital letter. *)
Theorem generateEmail_shape id name :
  id ≠ "" → name ≠ "" →
  ∃ namePart,
    generateEmail id name = namePart +:+ "." +:+ slice_last 3 id +:+ "@university.edu" ∧
    namePart ≠ "" ∧
    Forall (λ c, is_space c = false ∧ lower_unit c = c) (letters namePart).
Proof.
  intros Hid Hname. exists (replace_spaces (toLowerCase name)). split_and!.
  - unfold generateEmail.
    by rewrite (proj2 (nonempty_truthy id) Hid), (proj2 (nonempty_truthy name) Hname).
  - apply replace_spaces_from_nonempty; [by apply toLowerCase_nonempty|done].
  - apply replace_spaces_from_letters; [done|].
    eapply Forall_impl; [apply toLowerCase_letters|]. by intros c Hc _.
Qed.

Lemma generateEmail_shape_witness :
  (∃ namePart,
     generateEmail "1234500002" jose_roe =
       namePart +:+ "." +:+ slice_last 3 "1234500002" +:+ "@university.edu" ∧
     namePart ≠ "" ∧
     Forall (λ c, is_space c = false ∧ lower_unit c = c) (letters namePart)) ∧
  generateEmail "1234500002" jose_roe = jose +:+ ".roe.002@university.edu".
Proof.
  split; [|reflexivity].
  refine (generateEmail_shape "1234500002" jose_roe _ _); discriminate.
Defined.

(** ** The handlers *)

Lemma generated_blank : generated blank_form.
Proof. by split. Qed.

Lemma handleSave_steady v st :
  generated (v_formData v) → v_editingId v = VNull →
  ∃ v' st', handleSave v st = (Ok v', st') ∧
            generated (v_formData v') ∧ v_editingId v' = VNull.
Proof.
  intros Hg Hnull. unfold handleSave. rewrite Hnull.
  destruct (negb (truthy (VStr (f_id (v_formData v)))) || _ || _).
  - eexists _, _. split; [reflexivity|]. by split.
  - cbn [truthy]. unfold try_catch, mbind, M_bind, mret, M_ret.
    destruct (createStudent _ st) as [[r|e] st1]; cbv beta iota zeta.
    + destruct (getStudents st1) as [[l|e] st2]; cbv beta iota zeta.
      * eexists _, _. split; [reflexivity|]. split; [apply generated_blank|done].
      * eexists _, _. split; [reflexivity|]. by split.
    + eexists _, _. split; [reflexivity|]. by split.
Qed.

Lemma handleDelete_steady id name confirmed v st :
  generated (v_formData v) → v_editingId v = VNull →
  ∃ v' st', handleDelete id name confirmed v st = (Ok v', st') ∧
            generated (v_formData v') ∧ v_editingId v' = VNull.
Proof.
  intros Hg Hnull. unfold handleDelete. destruct confirmed.
  - unfold try_catch, mbind, M_bind, mret, M_ret.
    destruct (deleteStudent id st) as [[b|e] st1]; cbv beta iota zeta.
    + destruct (getStudents st1) as [[l|e] st2]; cbv beta iota zeta;
        (eexists _, _; split; [reflexivity|]; by split).
    + eexists _, _. split; [reflexivity|]. by split.
  - eexists _, _. split; [reflexivity|]. by split.
Qed.

Lemma handle_steady e v st :
  generated (v_formData v) → v_editingId v = VNull →
  ∃ v' st', handle e v st = (Ok v', st') ∧
            generated (v_formData v') ∧ v_editingId v' = VNull.
Proof.
  intros Hg Hnull. destruct e as [|newId|newName| |id name confirmed|open].
  - eexists _, _. split; [reflexivity|]. split; [apply generated_blank|done].
  - eexists _, _. split; [reflexivity|]. by split.
  - eexists _, _. split; [reflexivity|]. split; [|done].
    split; [done|]. apply Hg.
  - by apply handleSave_steady.
  - by apply handleDelete_steady.
  - eexists _, _. split; [reflexivity|]. by split.
Qed.

(** X23: whatever the user does (open the dialog, type an id or a name,
    save, delete, close the dialog), in whatever store, no handler throws,
    the email and the password of the form stay the ones generated from its
    id and name, and [editingId] stays [null]: the update branch of
    [handleSave] is never taken. *)
Theorem form_stays_generated es v st :
  generated (v_formData v) → v_editingId v = VNull →
  ∃ v' st', handle_all es v st = (Ok v', st') ∧
            generated (v_formData v') ∧ v_editingId v' = VNull.
Proof.
  revert v st. induction es as [|e es IH]; intros v st Hg Hnull.
  - by exists v, st.
  - destruct (handle_steady e v st Hg Hnull) as (v1 & st1 & Hrun & Hg1 & Hnull1).
    destruct (IH v1 st1 Hg1 Hnull1) as (v2 & st2 & Hrun2 & Hg2 & Hnull2).
    exists v2, st2. split; [|done].
    simpl. unfold mbind, M_bind. by rewrite Hrun.
Qed.

Lemma form_stays_generated_witness :
  ∃ v' st',
    handle_all [OpenCreate; IdChange "1234500002"; NameChange "Jane Roe"; Save;
                Delete (VStr "1234500001") "John Doe" true]
      (initial_view (VRef 0)) seed_store = (Ok v', st') ∧
    generated (v_formData v') ∧ v_editingId v' = VNull.
Proof.
  exact (form_stays_generated
           [OpenCreate; IdChange "1234500002"; NameChange "Jane Roe"; Save;
            Delete (VStr "1234500001") "John Doe" true]
           (initial_view (VRef 0)) seed_store generated_blank eq_refl).
Defined.

(** X24: [handleSave] on a form with an empty id or an empty name (the
    email being the generated one) shows "ID, Name, and Email are
    required", clears the success message, and does nothing else: the
    façade is not called and the store is as it was. *)
Theorem handleSave_requires_id_and_name v st :
  f_email (v_formData v) = generateEmail (f_id (v_formData v)) (f_name (v_formData v)) →
  f_id (v_formData v) = "" ∨ f_name (v_formData v) = "" →
  handleSave v st =
    (Ok (View (v_students v) (v_isCreateOpen v) (v_editingId v) (v_formData v)
           (Text "ID, Name, and Email are required") ""), st).
Proof.
  intros Hemail Hempty. apply generateEmail_empty in Hempty. rewrite <- Hemail in Hempty.
  unfold handleSave. rewrite Hempty. cbn [truthy negb]. by rewrite !orb_true_r.
Qed.

Lemma handleSave_requires_id_and_name_witness :
  handleSave (handleNameChange "Jane Roe" (handleOpenCreate (initial_view (VRef 0))))
    seed_store =
    (Ok (View (VRef 0) true VNull (Form "" "Jane Roe" "" "")
           (Text "ID, Name, and Email are required") ""), seed_store).
Proof.
  exact (handleSave_requires_id_and_name
           (handleNameChange "Jane Roe" (handleOpenCreate (initial_view (VRef 0))))
           seed_store eq_refl (or_introl eq_refl)).
Defined.

(** X25: [handleSave] in create mode, on a form whose id, name and email
    are not empty and whose id is not in the collection: the student is
    appended to the collection with the form's four fields, the list shown
    is refreshed to the new contents, the dialog is closed, the form is
    blank again, and the success message names the student. *)
Theorem handleSave_creates v st rs :
  holds Students st rs →
  truthy (v_editingId v) = false →
  f_id (v_formData v) ≠ "" → f_name (v_formData v) ≠ "" →
  f_email (v_formData v) ≠ "" → f_password (v_formData v) ≠ "" →
  VStr (f_id (v_formData v)) ∉ ids rs →
  ∃ list st',
    handleSave v st =
      (Ok (View list false VNull blank_form (Text "")
             ("Student " +:+ f_name (v_formData v) +:+ " created successfully!")), st') ∧
    holds Students st' (rs ++ [form_data (v_formData v)]) ∧
    records (heap st') list = Some (rs ++ [form_data (v_formData v)]).
Proof.
  intros Hrs Hedit Hid Hname Hemail Hpw Hfresh.
  destruct (create_steps Students st (form_data (v_formData v)) rs
              (VStr (f_password (v_formData v))) Hrs)
    as (l & st2 & sp & Hrun & _ & Hl & Hrs2 & _).
  { by apply valid_input_strings
      with (f_id (v_formData v)) (f_name (v_formData v)) (f_email (v_formData v)). }
  { done. }
  { unfold chosen_password.
    change (prop (form_data (v_formData v)) "password")
      with (VStr (f_password (v_formData v))).
    by rewrite (proj2 (nonempty_truthy _) Hpw). }
  assert (new_record Students (form_data (v_formData v))
            (VStr (f_password (v_formData v))) sp = form_data (v_formData v)) as Hrec.
  { unfold new_record, form_data, prop. by simplify_map_eq. }
  rewrite Hrec in Hrun, Hrs2.
  pose proof (holds_written Students st2 l (CObj (form_data (v_formData v))) _ Hl Hrs2)
    as Hrs1.
  destruct (getAll_listing Students _ _ Hrs1) as (ll & st' & Hget & He & Hlist).
  exists (VRef ll), st'. split_and!; [|by apply holds_extends with (2 := Hrs1)|done].
  unfold handleSave. rewrite Hedit.
  rewrite (proj2 (nonempty_truthy _) Hid), (proj2 (nonempty_truthy _) Hname),
    (proj2 (nonempty_truthy _) Hemail). cbn [negb orb].
  unfold try_catch, mbind, M_bind, mret, M_ret. unfold create in Hrun. rewrite Hrun.
  cbv beta iota zeta. unfold getStudents. by rewrite Hget.
Qed.

Lemma handleSave_creates_witness :
  holds Students seed_store [john] ∧
  (VStr (f_id jane_form) ∉ ids [john]) ∧
  ∃ list st',
    handleSave (View (VRef 0) true VNull jane_form (Text "") "") seed_store =
      (Ok (View list false VNull blank_form (Text "")
             "Student Jane Roe created successfully!"), st') ∧
    holds Students st' ([john] ++ [form_data jane_form]) ∧
    records (heap st') list = Some ([john] ++ [form_data jane_form]).
Proof.
  assert (holds Students seed_store [john]) as H1 by reflexivity.
  assert (VStr (f_id jane_form) ∉ ids [john]) as H2.
  { intros Hin. apply list_elem_of_singleton in Hin. discriminate. }
  split_and!; [done..|].
  refine (handleSave_creates (View (VRef 0) true VNull jane_form (Text "") "")
            seed_store [john] H1 eq_refl _ _ _ _ H2); discriminate.
Defined.

(** X26: [handleSave] in create mode with the id of a stored student: the
    error shown is the façade's "already exists" message; the store, the
    list shown, the dialog and the form stay as they were. *)
Theorem handleSave_duplicate_id v st rs :
  holds Students st rs →
  truthy (v_editingId v) = false →
  f_id (v_formData v) ≠ "" → f_name (v_formData v) ≠ "" →
  f_email (v_formData v) ≠ "" →
  VStr (f_id (v_formData v)) ∈ ids rs →
  handleSave v st =
    (Ok (View (v_students v) (v_isCreateOpen v) (v_editingId v) (v_formData v)
           (MessageOf (DuplicateKeyError (VStr (f_id (v_formData v))))) ""), st).
Proof.
  intros Hrs Hedit Hid Hname Hemail Hin.
  pose proof (create_duplicate Students st (form_data (v_formData v)) rs Hrs) as Hrun.
  unfold create in Hrun. unfold handleSave. rewrite Hedit.
  rewrite (proj2 (nonempty_truthy _) Hid), (proj2 (nonempty_truthy _) Hname),
    (proj2 (nonempty_truthy _) Hemail). cbn [negb orb].
  unfold try_catch, mbind, M_bind, mret, M_ret. rewrite Hrun; [done| |done].
  by apply valid_input_strings
    with (f_id (v_formData v)) (f_name (v_formData v)) (f_email (v_formData v)).
Qed.

Lemma handleSave_duplicate_id_witness :
  holds Students seed_store [john] ∧
  (VStr (f_id john_form) ∈ ids [john]) ∧
  handleSave (View (VRef 0) true VNull john_form (Text "") "old") seed_store =
    (Ok (View (VRef 0) true VNull john_form
           (MessageOf (DuplicateKeyError (VStr "1234500001"))) ""), seed_store).
Proof.
  assert (holds Students seed_store [john]) as H1 by reflexivity.
  assert (VStr (f_id john_form) ∈ ids [john]) as H2 by (vm_compute; left).
  split_and!; [done..|].
  refine (handleSave_duplicate_id (View (VRef 0) true VNull john_form (Text "") "old")
            seed_store [john] H1 eq_refl _ _ _ H2); discriminate.
Defined.

(** X27: [handleDelete], once confirmed, shows "deleted successfully"
    also when the id is not in the collection and nothing was deleted; an
    error shown before stays.  Unconfirmed, it does nothing. *)
Theorem handleDelete_reports_success_regardless v st rs id name :
  holds Students st rs →
  id ∉ ids rs →
  (∃ list st',
     handleDelete id name true v st =
       (Ok (View list (v_isCreateOpen v) (v_editingId v) (v_formData v) (v_error v)
              ("Student " +:+ name +:+ " deleted successfully!")), st') ∧
     holds Students st' rs ∧
     records (heap st') list = Some rs) ∧
  handleDelete id name false v st = (Ok v, st).
Proof.
  intros Hrs Hnot. split; [|done].
  destruct (getAll_listing Students st rs Hrs) as (ll & st' & Hget & He & Hlist).
  exists (VRef ll), st'. split_and!; [|by apply holds_extends with (2 := Hrs)|done].
  unfold handleDelete, try_catch, mbind, M_bind, mret, M_ret, deleteStudent.
  rewrite (delete_absent Students st rs id Hrs Hnot).
  cbv beta iota zeta. unfold getStudents. by rewrite Hget.
Qed.

Lemma handleDelete_reports_success_regardless_witness :
  holds Students seed_store [john] ∧
  (unknown_id ∉ ids [john]) ∧
  ∃ list st',
    handleDelete unknown_id "Nobody" true (initial_view (VRef 0)) seed_store =
      (Ok (View list false VNull blank_form (Text "")
             "Student Nobody deleted successfully!"), st') ∧
    holds Students st' [john] ∧
    records (heap st') list = Some [john].
Proof.
  assert (holds Students seed_store [john]) as H1 by reflexivity.
  assert (unknown_id ∉ ids [john]) as H2.
  { intros Hin. apply list_elem_of_singleton in Hin. discriminate. }
  split_and!; [done..|].
  exact (proj1 (handleDelete_reports_success_regardless (initial_view (VRef 0)) seed_store
                  [john] unknown_id "Nobody" H1 H2)).
Defined.

(** ** The search box *)

Lemma string_length_app s t :
  String.length (s +:+ t) = String.length s + String.length t.
Proof.
  induction s as [|c s IH]; [done|].
  change (S (String.length (s +:+ t)) = S (String.length s + String.length t)).
  by rewrite IH.
Qed.

Lemma string_app_empty_r s : s +:+ "" = s.
Proof.
  induction s as [|c s IH]; [done|].
  change (String c (s +:+ "") = String c s). by rewrite IH.
Qed.

Lemma string_length_0 s : String.length s = 0 → s = "".
Proof. by destruct s. Qed.

Lemma toLowerCase_length s : String.length (toLowerCase s) = String.length s.
Proof. induction s as [|c s IH]; [done|]. simpl. by rewrite IH. Qed.

Lemma includes_same_length s q :
  String.length q = String.length s → includes s q = true ↔ s = q.
Proof.
  intros Hlen. rewrite includes_spec. split.
  - intros (pre & post & Hs). rewrite Hs in Hlen.
    rewrite !string_length_app in Hlen.
    assert (pre = "") as -> by (apply string_length_0; lia).
    assert (post = "") as -> by (apply string_length_0; lia).
    rewrite Hs. apply string_app_empty_r.
  - intros ->. exists "", "". by rewrite string_app_empty_r.
Qed.

Lemma row_matches_record h q s o name id :
  record_at h s = Some o → prop o "name" = VStr name → prop o "id" = VStr id →
  row_matches h q s = Ok (includes (toLowerCase name) q || includes id q).
Proof.
  intros Hs Hname Hid. apply record_at_inv in Hs as (l & -> & Hl).
  unfold row_matches, getProp. rewrite Hl, Hname, Hid. simpl.
  by destruct (includes (toLowerCase name) q).
Qed.

Lemma filterA_elem (p : value → result bool) (f : value → bool) a :
  Forall (λ x, p x = Ok (f x)) a →
  ∃ found, filterA p a = Ok found ∧ ∀ x, x ∈ found ↔ x ∈ a ∧ f x = true.
Proof.
  induction 1 as [|x a Hx Ha (found & Hrun & Hfound)].
  - exists []. split; [done|]. intros x. split; [by intros ?%elem_of_nil|].
    by intros [?%elem_of_nil _].
  - simpl. rewrite Hx, Hrun. simpl. destruct (f x) eqn:E.
    + exists (x :: found). split; [done|]. intros y.
      rewrite !elem_of_cons, Hfound. split.
      * intros [->|[? ?]]; [by split; [left|]|by split; [right|]].
      * intros [[->|?] ?]; [by left|by right].
    + exists found. split; [done|]. intros y. rewrite Hfound, elem_of_cons. split.
      * intros [? ?]. by split; [right|].
      * intros [[->|?] ?]; [congruence|done].
Qed.

(** X28: the search box lowers the text typed before it compares it with
    the ids, and does not lower the ids: a listed student whose name does
    not contain the text is found by typing its id exactly when the id has
    no capital letter. *)
Theorem filter_by_id_is_case_sensitive v st a s o name id :
  elements_of (heap st) (v_students v) = Ok a →
  Forall (λ x, ∃ r n i, record_at (heap st) x = Some r ∧
                        prop r "name" = VStr n ∧ prop r "id" = VStr i) a →
  s ∈ a →
  record_at (heap st) s = Some o →
  prop o "name" = VStr name → prop o "id" = VStr id →
  includes (toLowerCase name) (toLowerCase id) = false →
  ∃ found,
    filteredStudents id v st = (Ok found, st) ∧
    (s ∈ found ↔ toLowerCase id = id).
Proof.
  intros Ha Hrows Hin Hs Hname Hid Hnot.
  set (q := toLowerCase id).
  set (f := λ x, match record_at (heap st) x with
                 | Some r =>
                     match prop r "name", prop r "id" with
                     | VStr n, VStr i => includes (toLowerCase n) q || includes i q
                     | _, _ => false
                     end
                 | None => false
                 end).
  destruct (filterA_elem (row_matches (heap st) q) f a) as (found & Hrun & Hfound).
  { eapply Forall_impl; [exact Hrows|]. intros x (r & n & i & Hx & Hn & Hi).
    rewrite (row_matches_record _ _ _ _ _ _ Hx Hn Hi). unfold f. by rewrite Hx, Hn, Hi. }
  exists found. split.
  - unfold filteredStudents, reading. fold q. by rewrite Ha; simpl; rewrite Hrun.
  - rewrite Hfound. unfold f. rewrite Hs, Hname, Hid. unfold q. rewrite Hnot.
    cbn [orb]. rewrite includes_same_length by apply toLowerCase_length.
    split; [by intros [_ ?]|by intros ?].
Qed.

Lemma filter_by_id_is_case_sensitive_witness :
  ∃ found,
    filteredStudents capital_id (initial_view (VRef 0)) capital_store =
      (Ok found, capital_store) ∧
    VRef 2 ∉ found.
Proof.
  destruct (filter_by_id_is_case_sensitive (initial_view (VRef 0)) capital_store
              [VRef 2] (VRef 2) capital "Cy Dee" capital_id)
    as (found & Hrun & Hfound); try reflexivity.
  - constructor; [|constructor]. by exists capital, "Cy Dee", capital_id.
  - left.
  - exists found. split; [exact Hrun|]. intros Hin. apply Hfound in Hin. discriminate Hin.
Defined.

(** * The application shell *)

Lemma same_user_other h cu id :
  cu = VNull ∨ (∃ c, record_at h cu = Some c ∧ prop c "id" ≠ VStr id) →
  (if truthy cu then cid ← getProp h cu "id"; Ok (strict_eq cid (VStr id)) else Ok false)
  = Ok false.
Proof.
  intros [->|(c & Hc & Hne)]; [done|].
  apply record_at_inv in Hc as (l & -> & Hl). simpl. rewrite Hl. simpl.
  unfold strict_eq. by rewrite bool_decide_eq_false_2.
Qed.

(** X29: when the address bar is [/id/dashboard] and the session is not
    already the one of [id], the effect makes a session without asking for a
    password: of the first student with that id, whatever the teachers are;
    of the first teacher with that id when no student has it.  The session
    is a new object with the record's id, name and email, the type, and for
    a teacher the specialization; it has no password. *)
Theorem select_from_path_by_id pathname id rest cu st ss ts k i o :
  path_parts pathname = id :: "dashboard" :: rest →
  cu = VNull ∨ (∃ c, record_at (heap st) cu = Some c ∧ prop c "id" ≠ VStr id) →
  holds Students st ss → holds Teachers st ts →
  match k with
  | Students => first_with_id ss (VStr id) i ∧ ss !! i = Some o
  | Teachers => (VStr id ∉ ids ss) ∧ first_with_id ts (VStr id) i ∧ ts !! i = Some o
  end →
  ∃ l st',
    select_from_path pathname cu st = (Ok (VRef l), st') ∧
    heap st !! l = None ∧
    heap st' !! l = Some (CObj (session_of k o)) ∧
    prop (session_of k o) "password" = VUndef ∧
    extends st st'.
Proof.
  intros Hpath Hcu Hss Hts Hk.
  unfold select_from_path, try_catch. rewrite Hpath. cbn [String.eqb Ascii.eqb Bool.eqb].
  unfold mbind at 1, M_bind at 1, reading at 1. rewrite (same_user_other _ _ _ Hcu).
  destruct k.
  - destruct Hk as [Hi Ho].
    destruct (getById_found Students st ss (VStr id) i o Hss Hi Ho)
      as (g & st1 & Hrun & Hg & He & lg & -> & Hlg).
    unfold getStudentById. rewrite (bind_ok _ _ _ _ _ Hrun). cbn [truthy].
    apply record_at_inv in Hg as (lg' & [= <-] & Hg).
    unfold mbind, M_bind, reading. cbn [getProp]. rewrite Hg. rewrite new_run.
    eexists _, _. split; [reflexivity|]. cbn [heap]. split_and!.
    + apply (lookup_weaken_None _ _ _ (fresh_lookup (heap st1))), He.
    + apply lookup_insert_eq.
    + done.
    + apply extends_trans with st1; [done|apply (extends_new _ st1)].
  - destruct Hk as (Hnot & Hi & Ho).
    unfold getStudentById. rewrite (bind_ok _ _ _ _ _ (getById_absent _ _ _ _ Hss Hnot)).
    cbn [truthy].
    destruct (getById_found Teachers st ts (VStr id) i o Hts Hi Ho)
      as (g & st1 & Hrun & Hg & He & lg & -> & Hlg).
    unfold getTeacherById. rewrite (bind_ok _ _ _ _ _ Hrun). cbn [truthy].
    apply record_at_inv in Hg as (lg' & [= <-] & Hg).
    unfold mbind, M_bind, reading. cbn [getProp]. rewrite Hg. rewrite new_run.
    eexists _, _. split; [reflexivity|]. cbn [heap]. split_and!.
    + apply (lookup_weaken_None _ _ _ (fresh_lookup (heap st1))), He.
    + apply lookup_insert_eq.
    + done.
    + apply extends_trans with st1; [done|apply (extends_new _ st1)].
Qed.

Lemma select_from_path_by_id_witness :
  path_parts "/1234500001/dashboard" = ["1234500001"; "dashboard"] ∧
  holds Students shared_id_store [john] ∧
  holds Teachers shared_id_store [<["id" := VStr "1234500001"]> ada] ∧
  first_with_id [john] (VStr "1234500001") 0 ∧
  ∃ l st',
    select_from_path "/1234500001/dashboard" VNull shared_id_store = (Ok (VRef l), st') ∧
    heap shared_id_store !! l = None ∧
    heap st' !! l = Some (CObj (session_of Students john)) ∧
    prop (session_of Students john) "password" = VUndef ∧
    extends shared_id_store st'.
Proof.
  assert (holds Students shared_id_store [john]) as H1 by reflexivity.
  assert (holds Teachers shared_id_store [<["id" := VStr "1234500001"]> ada]) as H2
    by reflexivity.
  assert (first_with_id [john] (VStr "1234500001") 0) as H3.
  { split; [by exists john|]. intros j o Hj. lia. }
  split_and!; [done..|].
  exact (select_from_path_by_id "/1234500001/dashboard" "1234500001" [] VNull
           shared_id_store [john] [<["id" := VStr "1234500001"]> ada] Students 0 john
           eq_refl (or_introl eq_refl) H1 H2 (conj H3 eq_refl)).
Defined.

(** X30: the effect leaves the session and the store as they were unless
    the address bar names a stored user: on every path that is not
    [/id/dashboard/...], and on such a path when no student and no teacher
    has the id. *)
Theorem select_from_path_keeps_session pathname cu st ss ts :
  holds Students st ss → holds Teachers st ts →
  (∀ id rest, path_parts pathname = id :: "dashboard" :: rest →
              (VStr id ∉ ids ss) ∧ (VStr id ∉ ids ts)) →
  select_from_path pathname cu st = (Ok cu, st).
Proof.
  intros Hss Hts Hpath. unfold select_from_path, try_catch.
  destruct (path_parts pathname) as [|id [|second rest]]; [done..|].
  destruct (String.eqb second "dashboard") eqn:E; [|done].
  apply String.eqb_eq in E as ->.
  destruct (Hpath id rest eq_refl) as [Hs Ht].
  unfold mbind at 1, M_bind at 1, reading at 1.
  destruct (if truthy cu then _ else _) as [[|]|e]; [done| |done].
  unfold getStudentById. rewrite (bind_ok _ _ _ _ _ (getById_absent _ _ _ _ Hss Hs)).
  cbn [truthy].
  unfold getTeacherById. by rewrite (bind_ok _ _ _ _ _ (getById_absent _ _ _ _ Hts Ht)).
Qed.

Lemma select_from_path_keeps_session_witness :
  holds Students seed_store [john] ∧ holds Teachers seed_store [ada] ∧
  select_from_path "/0000000000/dashboard" VNull seed_store = (Ok VNull, seed_store).
Proof.
  assert (holds Students seed_store [john]) as H1 by reflexivity.
  assert (holds Teachers seed_store [ada]) as H2 by reflexivity.
  split_and!; [done..|].
  refine (select_from_path_keeps_session "/0000000000/dashboard" VNull seed_store
            [john] [ada] H1 H2 _).
  intros id rest [= <- <-].
  split; intros Hin; apply list_elem_of_singleton in Hin; discriminate.
Defined.

(** * Ids that are arrays *)

Lemma mapR_ext {A B} (f g : A → result B) a :
  (∀ x, x ∈ a → f x = g x) → mapR f a = mapR g a.
Proof.
  induction a as [|x a IH]; intros Hfg; [done|].
  simpl. rewrite (Hfg x) by left. destruct (g x) as [y|e]; [|done].
  simpl. fold (mapR f a) (mapR g a). rewrite IH; [done|].
  intros z Hz. apply Hfg. by right.
Qed.

Lemma stack_below_size (h : gmap loc cell) seen l :
  NoDup seen → (∀ l', l' ∈ seen → is_Some (h !! l')) →
  is_Some (h !! l) → l ∉ seen → length seen < size h.
Proof.
  intros Hnd Hin Hl Hnot.
  assert (NoDup (l :: seen)) as Hnd' by (by constructor).
  rewrite <- size_dom.
  assert (list_to_set (l :: seen) ⊆ dom h) as Hsub.
  { intros x Hx. apply elem_of_list_to_set in Hx. apply elem_of_dom.
    apply elem_of_cons in Hx as [->|Hx]; [done|by apply Hin]. }
  apply subseteq_size in Hsub.
  rewrite (size_list_to_set (C := gset loc)) in Hsub by done. simpl in Hsub. lia.
Qed.

(** The fuel of [to_text] never runs out: with as much fuel as the heap
    has cells not on the stack, more fuel gives the same text. *)
Lemma to_text_fuel fuel h seen v :
  NoDup seen → (∀ l, l ∈ seen → is_Some (h !! l)) →
  size h ≤ fuel + length seen →
  to_text (S fuel) h seen v = to_text fuel h seen v.
Proof.
  revert seen v. induction fuel as [|fuel IH]; intros seen v Hnd Hin Hsize;
    destruct v as [| | | | |l]; try done.
  - cbn [to_text]. destruct (h !! l) as [[o|a]|] eqn:Hl; try done.
    destruct (bool_decide (l ∈ seen)) eqn:Hseen; [done|].
    apply bool_decide_eq_false in Hseen.
    pose proof (stack_below_size h seen l Hnd Hin (mk_is_Some _ _ Hl) Hseen). lia.
  - cbn [to_text]. destruct (h !! l) as [[o|a]|] eqn:Hl; try done.
    destruct (bool_decide (l ∈ seen)) eqn:Hseen; [done|].
    apply bool_decide_eq_false in Hseen. f_equal.
    apply mapR_ext. intros x _. destruct (nullish x); [done|].
    apply IH.
    + by constructor.
    + intros l' [->|Hl']%elem_of_cons; [by rewrite Hl|by apply Hin].
    + simpl. lia.
Qed.

(** [create] with an array as id and no password: when the text of the
    last three elements of the array is [s], the record is stored with the
    password [Student@s] (or [Teacher@s]).  The text is undefined, and
    [create] throws a TypeError before it stores anything, only when it
    meets an object with a [toString] property of its own. *)
Lemma create_array_id k st rs data l a :
  holds k st rs →
  prop data "id" = VRef l → heap st !! l = Some (CArr a) →
  truthy (prop data "name") = true → truthy (prop data "email") = true →
  truthy (prop data "password") = false →
  VRef l ∉ ids rs →
  match slice3 (heap st) (VRef l) with
  | Ok s =>
      ∃ r st' o, create k data st = (Ok r, st') ∧ holds k st' (rs ++ [o]) ∧
                 prop o "id" = VRef l ∧
                 prop o "password" = VStr (password_prefix k +:+ s)
  | Throw e => e = TypeError ∧ create k data st = (Throw TypeError, st)
  end.
Proof.
  intros Hrs Hid Hl Hname Hemail Hpw Hfresh.
  assert (valid_input data = true) as Hvalid.
  { unfold valid_input. by rewrite Hid, Hname, Hemail. }
  assert (chosen_password k (heap st) data =
            (s ← slice3 (heap st) (VRef l); Ok (VStr (password_prefix k +:+ s)))) as Hch.
  { unfold chosen_password. by rewrite Hpw, Hid. }
  destruct (slice3 (heap st) (VRef l)) as [s|e] eqn:Hs.
  - destruct (create_ok k st data rs (VStr (password_prefix k +:+ s)) Hrs Hvalid)
      as (r & st' & o & lc & Hrun & _ & _ & _ & _ & Hrs' & _ & Hoid & _ & _ & Hopw);
      [by rewrite Hid|done|].
    exists r, st', o. split_and!; [done..|by rewrite Hoid|done].
  - assert (e = TypeError) as ->.
    { revert Hs. cbn [slice3]. rewrite Hl.
      generalize (drop (length a - 3) a). intros b.
      assert (∀ fuel seen x e', to_text fuel (heap st) seen x = Throw e' → e' = TypeError)
        as Htext.
      { induction fuel as [|fuel IH]; intros seen x e'; destruct x as [| | | | |l'];
          try done; cbn [to_text];
          (destruct (heap st !! l') as [[o|a']|]; [| |done]);
          try (destruct (bool_decide (is_Some (o !! "toString"))); [by intros [= <-]|done]);
          (destruct (bool_decide (l' ∈ seen)); [done|]); [done|].
        intros Hthrow.
        destruct (mapR _ a') as [parts|e''] eqn:Hparts; [done|].
        simpl in Hthrow. injection Hthrow as ->.
        revert Hparts. clear -IH. induction a' as [|y a' IHa]; [done|].
        simpl. destruct (nullish y).
        - simpl. destruct (mapR _ a') as [ps|e2] eqn:E; [done|].
          simpl. intros [= <-]. by apply IHa.
        - destruct (to_text fuel (heap st) (l' :: seen) y) as [t|e1] eqn:Ey.
          + simpl. destruct (mapR _ a') as [ps|e2] eqn:E; [done|].
            simpl. intros [= <-]. by apply IHa.
          + simpl. intros [= <-]. by apply IH in Ey. }
      induction b as [|y b IHb]; [done|].
      simpl. destruct (nullish y).
      - simpl. destruct (mapR _ b) as [ps|e2] eqn:E; [done|].
        simpl. intros [= <-]. by apply IHb.
      - destruct (to_text (size (heap st)) (heap st) [] y) as [t|e1] eqn:Ey.
        + simpl. destruct (mapR _ b) as [ps|e2] eqn:E; [done|].
          simpl. intros [= <-]. by apply IHb.
        + simpl. intros [= <-]. by apply Htext in Ey. }
    split; [done|].
    apply create_bad_password with rs; [done..|by rewrite Hid|by rewrite Hch].
Qed.

Example create_array_id_example :
  ∃ r st' o,
    createStudent listed_id array_store = (Ok r, st') ∧
    holds Students st' ([john] ++ [o]) ∧
    prop o "id" = VRef 5 ∧
    prop o "password" = VStr "Student@b,,Mathematics".
Proof.
  assert (holds Students array_store [john]) as H1 by reflexivity.
  assert (VRef 5 ∉ ids [john]) as H2.
  { intros Hin. apply list_elem_of_singleton in Hin. discriminate. }
  exact (create_array_id Students array_store [john] listed_id 5
           [VNum 1; VStr "b"; VNull; VRef 4] H1 eq_refl eq_refl eq_refl eq_refl eq_refl H2).
Qed.
